(** * MiningDataProcessor: a shallow embedding of [scripts/data_processor.py]

    The processor turns geological sampling records into clusters, a grade
    model, an interpolated grade field and reserve figures.  Tables are
    pandas DataFrames in the source; here a table is a list of typed rows,
    one record field per column:

      N° Anomalie -> N_Anomalie       Longueur (m)    -> Longueur
      N° Tranche  -> N_Tranche        de (m)          -> de_m
      Début_EUTM  -> Debut_EUTM       à (m)           -> a_m
      Début_NUTM  -> Debut_NUTM       Épaisseur (m)   -> Epaisseur
      Fin_EUTM    -> Fin_EUTM         Moyenne U (ppm) -> Moyenne_U
      Fin_NUTM    -> Fin_NUTM         Max U (ppm)     -> Max_U

    Numbers are float64 in the source.  They are idealised as exact
    rationals plus one missing value [NaN]: infinities are outside the
    model, and so is rounding, but for the reserve calculator, which is
    written out a second time with the rounding of float64 and the order in
    which numpy adds a column up, where its totals depend on them.  What is
    stated of sums and means in the idealised numbers is kept to what no
    rounding changes.

    A method that writes to [self] takes the processor and returns it with
    its result; a method that can raise returns [Ok] or [Err].  What the
    processor calls in pandas, numpy, scikit-learn and scipy stands behind
    four interfaces; the element-wise arithmetic of numpy and the reductions
    of pandas are written out. *)

From Stdlib Require Import QArith Qround Qminmax Qabs Qpower ZArith String List Bool Lia Lqa.
Import ListNotations.

Set Implicit Arguments.

(** ** Numbers *)

Inductive num : Type :=
| NaN
| Fin (q : Q).

Definition fadd (x y : num) : num :=
  match x, y with Fin a, Fin b => Fin (a + b) | _, _ => NaN end.

Definition fsub (x y : num) : num :=
  match x, y with Fin a, Fin b => Fin (a - b) | _, _ => NaN end.

Definition fmul (x y : num) : num :=
  match x, y with Fin a, Fin b => Fin (a * b) | _, _ => NaN end.

(** Division; a zero divisor (an infinity or NaN in float64) is [NaN]. *)
Definition fdiv (x y : num) : num :=
  match x, y with
  | Fin a, Fin b => if Qeq_bool b 0 then NaN else Fin (a / b)
  | _, _ => NaN
  end.

(** [x >= y] of numpy: false as soon as one side is NaN. *)
Definition fge (x y : num) : bool :=
  match x, y with Fin a, Fin b => Qle_bool b a | _, _ => false end.

Definition flt (x y : num) : bool :=
  match x, y with Fin a, Fin b => negb (Qle_bool b a) | _, _ => false end.

Definition isna (x : num) : bool :=
  match x with NaN => true | Fin _ => false end.

Definition fillna (v x : num) : num :=
  match x with NaN => v | Fin _ => x end.

(** ** Series reductions of pandas (all with [skipna=True]) *)

Fixpoint dropna_values (s : list num) : list Q :=
  match s with
  | [] => []
  | NaN :: s' => dropna_values s'
  | Fin q :: s' => q :: dropna_values s'
  end.

Definition Qsum (l : list Q) : Q := fold_right Qplus 0 l.

(** [Series.sum()]: the sum of the present values, 0 when there is none;
    taken exactly, where float64 rounds every addition. *)
Definition series_sum (s : list num) : num := Fin (Qsum (dropna_values s)).

(** [Series.mean()]: NaN when no value is present; taken exactly, where
    the mean of float64 values can fall a rounding outside of their range. *)
Definition series_mean (s : list num) : num :=
  match dropna_values s with
  | [] => NaN
  | vs => Fin (Qsum vs / inject_Z (Z.of_nat (length vs)))
  end.

Definition Qmin_list (l : list Q) : option Q :=
  match l with
  | [] => None
  | q :: l' => Some (fold_left Qmin l' q)
  end.

Definition Qmax_list (l : list Q) : option Q :=
  match l with
  | [] => None
  | q :: l' => Some (fold_left Qmax l' q)
  end.

Definition of_option (o : option Q) : num :=
  match o with Some q => Fin q | None => NaN end.

Definition series_min (s : list num) : num := of_option (Qmin_list (dropna_values s)).
Definition series_max (s : list num) : num := of_option (Qmax_list (dropna_values s)).

(** ** Tables *)

(** A cell of a column that pandas keeps as read (dtype object). *)
Inductive cell : Type :=
| CNaN
| CNum (q : Q)
| CStr (s : string).

(** A row of the preprocessed table.  [Cluster] is [None] until
    [spatial_clustering] has written the column. *)
Record Row : Type := mkRow {
  N_Anomalie : cell;
  N_Tranche : cell;
  Debut_EUTM : num;
  Debut_NUTM : num;
  Fin_EUTM : num;
  Fin_NUTM : num;
  Direction : num;
  Longueur : num;
  de_m : num;
  a_m : num;
  Epaisseur : num;
  Moyenne_U : num;
  Max_U : num;
  Lithologie : string;
  X_mean : num;
  Y_mean : num;
  Z_mean : num;
  Lithologie_encoded : nat;
  Volume_approx : num;
  Gradient_U : num;
  Cluster : option Z
}.

Definition DataFrame := list Row.

(** ** Exceptions *)

(** A raised Python exception: its class name and its message. *)
Inductive exn : Type :=
| Raise (cls msg : string).

Definition exn_class (e : exn) : string :=
  match e with Raise cls _ => cls end.

Definition ValueError (msg : string) : exn := Raise "ValueError" msg.

Inductive result (A : Type) : Type :=
| Ok (a : A)
| Err (e : exn).

Arguments Ok {A} a.
Arguments Err {A} e.

Definition is_ok {A} (r : result A) : bool :=
  match r with Ok _ => true | Err _ => false end.

(** The loop [for a in l: ...append(f(a))]: the first exception ends it. *)
Fixpoint for_each {A B} (f : A -> result B) (l : list A) : result (list B) :=
  match l with
  | [] => Ok []
  | a :: l' =>
      match f a with
      | Err e => Err e
      | Ok b =>
          match for_each f l' with
          | Err e => Err e
          | Ok bs => Ok (b :: bs)
          end
      end
  end.

(** ** Raw tables *)

(** A row of the raw table, cells as read from the file. *)
Record RawRow : Type := mkRawRow {
  raw_N_Anomalie : cell;
  raw_N_Tranche : cell;
  raw_Debut_EUTM : cell;
  raw_Debut_NUTM : cell;
  raw_Fin_EUTM : cell;
  raw_Fin_NUTM : cell;
  raw_Direction : cell;
  raw_Longueur : cell;
  raw_de_m : cell;
  raw_a_m : cell;
  raw_Epaisseur : cell;
  raw_Moyenne_U : cell;
  raw_Max_U : cell;
  raw_Lithologie : option string
}.

(** The raw table; [has_Lithologie] is ['Lithologie' in df.columns]. *)
Record RawFrame : Type := mkRawFrame {
  has_Lithologie : bool;
  raw_rows : list RawRow
}.

(** ** The libraries the processor calls

    pandas, numpy, scikit-learn and scipy are not part of the repository.
    What the processor calls in them is taken as a parameter; 2-D arrays are
    lists of rows. *)

Definition matrix := list (list num).

Class Pandas : Type := {
  (** how [pd.to_numeric] reads a string cell, [None] when it cannot *)
  parse_float : string -> option Q;
  (** [pd.read_csv(path)] *)
  read_csv : option string -> result RawFrame
}.

Class Numpy : Type := {
  RandomState : Type;
  (** [np.random.seed] *)
  seed : Z -> RandomState;
  (** [np.random.uniform(low, high, size)] *)
  uniform : Q -> Q -> nat -> RandomState -> list Q * RandomState;
  (** [np.random.normal(loc, scale, size)] *)
  normal : Q -> Q -> nat -> RandomState -> list Q * RandomState;
  (** [np.random.choice(a, size)] *)
  choice : list string -> nat -> RandomState -> list string * RandomState;
  (** [np.random.randint(low, high, size)] *)
  randint : Z -> Z -> nat -> RandomState -> list Z * RandomState;
  sin : Q -> Q;
  cos : Q -> Q
}.

Class Sklearn : Type := {
  (** a fitted [StandardScaler] *)
  scaler_state : Type;
  (** a [RandomForestRegressor] object, fitted or not *)
  forest : Type;
  StandardScaler_fit_transform : matrix -> result (scaler_state * matrix);
  (** [DBSCAN(eps, min_samples).fit_predict] *)
  DBSCAN_fit_predict : Q -> nat -> matrix -> result (list Z);
  (** [LabelEncoder.fit_transform]: the fitted [classes_] and the codes *)
  LabelEncoder_fit_transform : list string -> list string * list nat;
  (** [train_test_split(X, y, test_size, random_state)] as row positions:
      the training rows and the test rows of a table of the given size *)
  train_test_split : nat -> Q -> Z -> result (list nat * list nat);
  (** [RandomForestRegressor(n_estimators, random_state)]: the estimator
      as created, not fitted yet *)
  RandomForestRegressor : nat -> Z -> forest;
  (** [model.fit(X, y)] works on the estimator in place: the estimator as
      the call leaves it, whether it returns or raises *)
  fit : forest -> matrix -> list num -> result unit * forest;
  (** [model.predict(X)] *)
  predict : forest -> matrix -> result (list num);
  (** [model.feature_importances_], an [AttributeError] of the library on
      an estimator that is not fitted *)
  feature_importances_ : forest -> result (list num);
  mean_squared_error : list num -> list num -> result num;
  r2_score : list num -> list num -> result num
}.

Class Scipy : Type := {
  (** [griddata(points, values, xi, method, fill_value)] *)
  griddata : matrix -> list num -> matrix -> string -> num -> result (list num)
}.

(** ** The processor object *)

Section Processor.

Context {pandas : Pandas} {numpy : Numpy} {sklearn : Sklearn} {scipy : Scipy}.

(** [self]: the scaler and the encoder are created unfitted, the models
    start as [None]. *)
Record MiningDataProcessor : Type := mkProcessor {
  scaler : option scaler_state;
  label_encoder : option (list string);
  uranium_model : option forest;
  thickness_model : option forest
}.

Definition __init__ : MiningDataProcessor := mkProcessor None None None None.

(** A method that reads and writes [self] and may raise. *)
Definition method (A : Type) : Type :=
  MiningDataProcessor -> result A * MiningDataProcessor.

(** ** Preprocessor *)

(** [pd.to_numeric(_, errors='coerce')] on one cell. *)
Definition to_numeric (c : cell) : num :=
  match c with
  | CNaN => NaN
  | CNum q => Fin q
  | CStr s => match parse_float s with Some q => Fin q | None => NaN end
  end.

(** The table once the numeric columns are converted. *)
Record NumRow : Type := mkNumRow {
  n_N_Anomalie : cell;
  n_N_Tranche : cell;
  n_Debut_EUTM : num;
  n_Debut_NUTM : num;
  n_Fin_EUTM : num;
  n_Fin_NUTM : num;
  n_Direction : num;
  n_Longueur : num;
  n_de_m : num;
  n_a_m : num;
  n_Epaisseur : num;
  n_Moyenne_U : num;
  n_Max_U : num;
  n_Lithologie : option string
}.

Definition to_numeric_row (r : RawRow) : NumRow :=
  mkNumRow (raw_N_Anomalie r) (raw_N_Tranche r)
    (to_numeric (raw_Debut_EUTM r)) (to_numeric (raw_Debut_NUTM r))
    (to_numeric (raw_Fin_EUTM r)) (to_numeric (raw_Fin_NUTM r))
    (to_numeric (raw_Direction r)) (to_numeric (raw_Longueur r))
    (to_numeric (raw_de_m r)) (to_numeric (raw_a_m r))
    (to_numeric (raw_Epaisseur r)) (to_numeric (raw_Moyenne_U r))
    (to_numeric (raw_Max_U r)) (raw_Lithologie r).

(** [dropna(subset=critical_columns)] keeps a row when none of the five
    critical cells is missing. *)
Definition critical_present (r : NumRow) : bool :=
  negb (isna (n_Debut_EUTM r)) && negb (isna (n_Debut_NUTM r)) &&
  negb (isna (n_Fin_EUTM r)) && negb (isna (n_Fin_NUTM r)) &&
  negb (isna (n_Moyenne_U r)).

Definition two : num := Fin 2.

Definition Inconnu : string := "Inconnu".

Definition fill_label (l : option string) : string :=
  match l with Some s => s | None => Inconnu end.

(** One row of the returned table, from its converted row, its lithology
    label and code, and the two column means used as fill values.  A column
    that holds whole numbers only is int64 in pandas, and its sums and
    products wrap around past [2 ^ 63]; the numbers of the model have no
    such bound. *)
Definition derive (longueur_mean epaisseur_mean : num)
    (row : NumRow * (string * nat)) : Row :=
  let '(r, (label, code)) := row in
  let longueur := fillna longueur_mean (n_Longueur r) in
  let epaisseur := fillna epaisseur_mean (n_Epaisseur r) in
  mkRow (n_N_Anomalie r) (n_N_Tranche r)
    (n_Debut_EUTM r) (n_Debut_NUTM r) (n_Fin_EUTM r) (n_Fin_NUTM r)
    (n_Direction r) longueur (n_de_m r) (n_a_m r) epaisseur
    (n_Moyenne_U r) (n_Max_U r) label
    (fdiv (fadd (n_Debut_EUTM r) (n_Fin_EUTM r)) two)
    (fdiv (fadd (n_Debut_NUTM r) (n_Fin_NUTM r)) two)
    (fdiv (fadd (n_de_m r) (n_a_m r)) two)
    code
    (fmul (fmul longueur epaisseur) (Fin 1))
    (fsub (n_Max_U r) (n_Moyenne_U r))
    None.

Definition no_valid_data : string :=
  "Aucune donnée valide après nettoyage. Vérifiez le format de vos données.".

Definition with_encoder (self : MiningDataProcessor) (classes_ : list string)
  : MiningDataProcessor :=
  mkProcessor (scaler self) (Some classes_) (uranium_model self) (thickness_model self).

(** What follows the loading in [load_and_preprocess_data]. *)
Definition preprocess (loaded : RawFrame) : method DataFrame :=
  fun self =>
    let df := filter critical_present (map to_numeric_row (raw_rows loaded)) in
    if (length df =? 0)%nat then (Err (ValueError no_valid_data), self)
    else
      let '(labels, codes, self') :=
        if has_Lithologie loaded then
          let labels := map (fun r => fill_label (n_Lithologie r)) df in
          let (classes_, codes) := LabelEncoder_fit_transform labels in
          (labels, codes, with_encoder self classes_)
        else (repeat Inconnu (length df), repeat 0%nat (length df), self) in
      let longueur_mean := series_mean (map n_Longueur df) in
      let epaisseur_mean := series_mean (map n_Epaisseur df) in
      (Ok (map (derive longueur_mean epaisseur_mean)
             (combine df (combine labels codes))),
       self').

(** [load_and_preprocess_data(data_path=None, sample_data=None)].  A given
    table is copied, so the caller's table is left as it was; without one
    the file is read. *)
Definition load_and_preprocess_data (data_path : option string)
    (sample_data : option RawFrame) : method DataFrame :=
  fun self =>
    match sample_data with
    | Some table => preprocess table self
    | None =>
        match read_csv data_path with
        | Err e => (Err e, self)
        | Ok table => preprocess table self
        end
    end.

(** ** Sample data *)

(** Drawing from numpy's global generator. *)
Definition draw (A : Type) : Type := RandomState -> A * RandomState.

Definition draw_ret {A} (a : A) : draw A := fun g => (a, g).

Definition draw_bind {A B} (c : draw A) (k : A -> draw B) : draw B :=
  fun g => let (a, g') := c g in k a g'.

Notation "x <~ c ;; k" := (draw_bind c (fun x => k))
  (at level 61, c at next level, right associativity).

Definition at_ {A} (col : list A) (d : A) (i : nat) : A := nth i col d.

Definition sample_lithologies : list string :=
  ["Granite"; "Schiste"; "Quartzite"; "Gneiss"]%string.

Definition uranium_base (x y : Q) : Q :=
  50 + 30 * sin (x / 1000) * cos (y / 1000).

Definition n_samples_default : nat := 200.

(** [create_sample_data(n_samples)]: the generator is re-seeded with 42 and
    the columns are drawn in the order of the source; the dictionary is
    evaluated top to bottom, so [N° Tranche] is drawn before the two end
    coordinates. *)
Definition create_sample_data (n_samples : nat) : RawFrame :=
  let columns :=
    x_coords <~ uniform 500000 502000 n_samples ;;
    y_coords <~ uniform 4500000 4502000 n_samples ;;
    depths_start <~ uniform 0 100 n_samples ;;
    depths_delta <~ uniform 5 50 n_samples ;;
    lithologies <~ choice sample_lithologies n_samples ;;
    directions <~ uniform 0 360 n_samples ;;
    lengths <~ uniform 10 200 n_samples ;;
    thicknesses <~ uniform (1 # 2) 15 n_samples ;;
    uranium_noise <~ normal 0 10 n_samples ;;
    uranium_delta <~ uniform 0 50 n_samples ;;
    tranches <~ randint 1 20 n_samples ;;
    fin_e_delta <~ uniform (-50) 50 n_samples ;;
    fin_n_delta <~ uniform (-50) 50 n_samples ;;
    draw_ret (fun i : nat =>
      let x := at_ x_coords 0 i in
      let y := at_ y_coords 0 i in
      let depth_start := at_ depths_start 0 i in
      let depth_end := depth_start + at_ depths_delta 0 i in
      let uranium_mean := Qmax 0 (uranium_base x y + at_ uranium_noise 0 i) in
      let uranium_max := uranium_mean + at_ uranium_delta 0 i in
      mkRawRow
        (CNum (inject_Z (Z.of_nat i + 1)))
        (CNum (inject_Z (at_ tranches 0%Z i)))
        (CNum x) (CNum y)
        (CNum (x + at_ fin_e_delta 0 i))
        (CNum (y + at_ fin_n_delta 0 i))
        (CNum (at_ directions 0 i))
        (CNum (at_ lengths 0 i))
        (CNum depth_start) (CNum depth_end)
        (CNum (at_ thicknesses 0 i))
        (CNum uranium_mean) (CNum uranium_max)
        (Some (at_ lithologies ""%string i))) in
  let (row, _) := columns (seed 42) in
  mkRawFrame true (map row (seq 0 n_samples)).

(** ** Spatial clusterer *)

Definition eps_default : Q := 100.
Definition min_samples_default : nat := 3.

Definition keyword {A} (given : option A) (default : A) : A :=
  match given with Some a => a | None => default end.

Definition set_Cluster (rl : Row * Z) : Row :=
  let (r, label) := rl in
  mkRow (N_Anomalie r) (N_Tranche r) (Debut_EUTM r) (Debut_NUTM r)
    (Fin_EUTM r) (Fin_NUTM r) (Direction r) (Longueur r) (de_m r) (a_m r)
    (Epaisseur r) (Moyenne_U r) (Max_U r) (Lithologie r)
    (X_mean r) (Y_mean r) (Z_mean r) (Lithologie_encoded r)
    (Volume_approx r) (Gradient_U r) (Some label).

Definition midpoints (df : DataFrame) : matrix :=
  map (fun r => [X_mean r; Y_mean r; Z_mean r]) df.

Definition with_scaler (self : MiningDataProcessor) (s : scaler_state)
  : MiningDataProcessor :=
  mkProcessor (Some s) (label_encoder self) (uranium_model self) (thickness_model self).

(** [spatial_clustering(df, eps=100, min_samples=3)] *)
Definition spatial_clustering (df : DataFrame)
    (eps : option Q) (min_samples : option nat) : method DataFrame :=
  fun self =>
    let eps := keyword eps eps_default in
    let min_samples := keyword min_samples min_samples_default in
    let coords := midpoints df in
    match StandardScaler_fit_transform coords with
    | Err e => (Err e, self)
    | Ok (fitted, coords_scaled) =>
        let self' := with_scaler self fitted in
        match DBSCAN_fit_predict (eps / 1000) min_samples coords_scaled with
        | Err e => (Err e, self')
        | Ok labels => (Ok (map set_Cluster (combine df labels)), self')
        end
    end.

(** ** Grade predictor *)

Definition features : list string :=
  ["X_mean"; "Y_mean"; "Z_mean"; "Épaisseur (m)";
   "Longueur (m)"; "Lithologie_encoded"; "Direction"]%string.

Definition feature_row (r : Row) : list num :=
  [X_mean r; Y_mean r; Z_mean r; Epaisseur r;
   Longueur r; Fin (inject_Z (Z.of_nat (Lithologie_encoded r))); Direction r].

Record TrainingReport : Type := mkReport {
  mse : num;
  r2 : num;
  feature_importance : list (string * num)
}.

(** The rows of [l] at the positions [idx], in that order. *)
Definition take {A} (l : list A) (idx : list nat) : list A :=
  flat_map (fun i => match nth_error l i with Some a => [a] | None => [] end) idx.

Definition with_uranium_model (self : MiningDataProcessor) (m : forest)
  : MiningDataProcessor :=
  mkProcessor (scaler self) (label_encoder self) (Some m) (thickness_model self).

(** [train_uranium_model(df)].  The new estimator is assigned to
    [self.uranium_model] before it is fitted, so it stays there when [fit]
    or a later call raises; each of the calls to scikit-learn may raise,
    and its exception leaves the method as it is. *)
Definition train_uranium_model (df : DataFrame) : method TrainingReport :=
  fun self =>
    let X := map feature_row df in
    let y := map Moyenne_U df in
    match train_test_split (length df) (2 # 10) 42 with
    | Err e => (Err e, self)
    | Ok (train, test) =>
        let X_train := take X train in
        let X_test := take X test in
        let y_train := take y train in
        let y_test := take y test in
        let (fitted, model) := fit (RandomForestRegressor 100 42) X_train y_train in
        let self' := with_uranium_model self model in
        match fitted with
        | Err e => (Err e, self')
        | Ok _ =>
            match predict model X_test with
            | Err e => (Err e, self')
            | Ok y_pred =>
                match mean_squared_error y_test y_pred with
                | Err e => (Err e, self')
                | Ok mse =>
                    match r2_score y_test y_pred with
                    | Err e => (Err e, self')
                    | Ok r2 =>
                        match feature_importances_ model with
                        | Err e => (Err e, self')
                        | Ok importances =>
                            (Ok (mkReport mse r2 (combine features importances)),
                             self')
                        end
                    end
                end
            end
        end
    end.

(** ** Grid interpolator *)

Definition of_nat (n : nat) : num := Fin (inject_Z (Z.of_nat n)).

(** [np.linspace(start, stop, num)]: [num] evenly spaced samples, the last
    one set to [stop] when there are at least two. *)
Definition linspace (start stop : num) (n : nat) : list num :=
  match n with
  | 0%nat => []
  | 1%nat => [start]
  | S m =>
      let step := fdiv (fsub stop start) (of_nat m) in
      map (fun i => fadd (fmul (of_nat i) step) start) (seq 0 m) ++ [stop]
  end.

(** [np.meshgrid(x_grid, y_grid)]: one row per [y], one column per [x]. *)
Definition meshgrid (x_grid y_grid : list num) : matrix * matrix :=
  (map (fun _ => x_grid) y_grid,
   map (fun y => map (fun _ => y) x_grid) y_grid).

Definition full_like (m : matrix) (v : num) : matrix :=
  map (map (fun _ => v)) m.

Definition ravel (m : matrix) : list num := concat m.

Fixpoint column_stack3 (a b c : list num) : matrix :=
  match a, b, c with
  | x :: a', y :: b', z :: c' => [x; y; z] :: column_stack3 a' b' c'
  | _, _, _ => []
  end.

(** [flat.reshape(m.shape)] *)
Definition reshape_like (m : matrix) (flat : list num) : matrix :=
  let ncols := length (hd [] m) in
  map (fun r => firstn ncols (skipn (r * ncols) flat)) (seq 0 (length m)).

(** One horizontal slice; the dictionary keys ['x'], ['y'], ['z'] are the
    fields [grid_x], [grid_y], [grid_z]. *)
Record Slice : Type := mkSlice {
  grid_x : matrix;
  grid_y : matrix;
  grid_z : matrix;
  values : matrix;
  z_level : num
}.

Definition grid_resolution_default : nat := 50.

Definition grid_points (xi yi zi : matrix) : matrix :=
  column_stack3 (ravel xi) (ravel yi) (ravel zi).

(** [interpolate_3d_grid(df, grid_resolution)] *)
Definition interpolate_3d_grid (df : DataFrame) (grid_resolution : nat)
  : result (list Slice) :=
  let x_grid := linspace (series_min (map X_mean df)) (series_max (map X_mean df))
                  grid_resolution in
  let y_grid := linspace (series_min (map Y_mean df)) (series_max (map Y_mean df))
                  grid_resolution in
  let z_grid := linspace (series_min (map Z_mean df)) (series_max (map Z_mean df))
                  (grid_resolution / 2) in
  let points := midpoints df in
  let values := map Moyenne_U df in
  for_each (fun z =>
    let (xi, yi) := meshgrid x_grid y_grid in
    let zi := full_like xi z in
    match griddata points values (grid_points xi yi zi) "linear" (Fin 0) with
    | Err e => Err e
    | Ok interpolated => Ok (mkSlice xi yi zi (reshape_like xi interpolated) z)
    end) z_grid.

End Processor.

(** ** Reserve calculator *)

(** A row of [ore_data]: the source row and the two columns added to it. *)
Record OreRow : Type := mkOreRow {
  ore_row : Row;
  Tonnage : num;
  Metal_content : num
}.

Record Reserves : Type := mkReserves {
  total_tonnage : num;
  average_grade : num;
  metal_content : num;
  ore_blocks : nat
}.

Definition density : Q := 27 # 10.
Definition ppm : Q := 1000000.

Definition cutoff_grade_default : Q := 30.

(** [df[df['Moyenne U (ppm)'] >= cutoff_grade]] *)
Definition ore_mask (cutoff_grade : Q) (r : Row) : bool :=
  fge (Moyenne_U r) (Fin cutoff_grade).

Definition with_tonnage (r : Row) : OreRow :=
  let tonnage := fmul (Volume_approx r) (Fin density) in
  mkOreRow r tonnage (fdiv (fmul tonnage (Moyenne_U r)) (Fin ppm)).

Definition calculate_ore_reserves (df : DataFrame) (cutoff_grade : Q)
  : Reserves * list OreRow :=
  let ore_data := map with_tonnage (filter (ore_mask cutoff_grade) df) in
  let reserves :=
    mkReserves
      (series_sum (map Tonnage ore_data))
      (series_mean (map (fun o => Moyenne_U (ore_row o)) ore_data))
      (series_sum (map Metal_content ore_data))
      (length ore_data) in
  (reserves, ore_data).

(** ** Notions the contracts of the libraries are stated with *)

Definition Qmean (l : list Q) : Q := Qsum l / inject_Z (Z.of_nat (length l)).

(** Population variance, the one [StandardScaler] divides by. *)
Definition Qvar (l : list Q) : Q :=
  Qmean (map (fun x => (x - Qmean l) * (x - Qmean l)) l).

Fixpoint finite_list (l : list num) : option (list Q) :=
  match l with
  | [] => Some []
  | NaN :: _ => None
  | Fin q :: l' =>
      match finite_list l' with Some qs => Some (q :: qs) | None => None end
  end.

Fixpoint finite_matrix (m : matrix) : option (list (list Q)) :=
  match m with
  | [] => Some []
  | row :: m' =>
      match finite_list row, finite_matrix m' with
      | Some r, Some rs => Some (r :: rs)
      | _, _ => None
      end
  end.

Definition axis (k : nat) (m : list (list Q)) : list Q :=
  map (fun row => nth k row 0) m.

(** [zs] is the column [xs] brought to zero mean and unit variance by a
    shift and a positive scaling. *)
Definition standardized_axis (xs zs : list Q) : Prop :=
  length zs = length xs /\
  Qmean zs == 0 /\ Qvar zs == 1 /\
  exists s, 0 < s /\
    forall i, (i < length xs)%nat -> nth i zs 0 == (nth i xs 0 - Qmean xs) / s.

(** Squared Euclidean distance; [d(p, q) <= eps] is compared on squares. *)
Definition dist2 (p q : list Q) : Q :=
  Qsum (map (fun ab => (fst ab - snd ab) * (fst ab - snd ab)) (combine p q)).

Definition within (eps : Q) (p q : list Q) : bool :=
  Qle_bool 0 eps && Qle_bool (dist2 p q) (eps * eps).

(** A core point has at least [min_samples] points within [eps], itself
    included. *)
Definition is_core (eps : Q) (min_samples : nat) (pts : list (list Q))
    (p : list Q) : bool :=
  (min_samples <=? length (filter (within eps p) pts))%nat.

(** [density_reachable eps m pts j i]: the point at position [i] is reached
    from the core point at position [j] along a chain of core points, each
    within [eps] of the next. *)
Inductive density_reachable (eps : Q) (min_samples : nat) (pts : list (list Q))
  : nat -> nat -> Prop :=
| reach_core j p :
    nth_error pts j = Some p -> is_core eps min_samples pts p = true ->
    density_reachable eps min_samples pts j j
| reach_step j k i p q :
    density_reachable eps min_samples pts j k ->
    nth_error pts k = Some p -> is_core eps min_samples pts p = true ->
    nth_error pts i = Some q -> within eps p q = true ->
    density_reachable eps min_samples pts j i.

Definition noise (eps : Q) (min_samples : nat) (pts : list (list Q)) (i : nat) : Prop :=
  forall j, ~ density_reachable eps min_samples pts j i.

(** The same, decided: no core point lies within [eps] of the point. *)
Definition noiseb (eps : Q) (min_samples : nat) (pts : list (list Q)) (i : nat) : bool :=
  match nth_error pts i with
  | None => true
  | Some q =>
      negb (existsb (fun p => is_core eps min_samples pts p && within eps p q) pts)
  end.

(** Convex hull of the sample points: the convex combinations. *)
Definition combination (ws : list Q) (pts : list (list Q)) (k : nat) : Q :=
  Qsum (map (fun wp => fst wp * nth k (snd wp) 0) (combine ws pts)).

Definition in_hull (pts : list (list Q)) (p : list Q) : Prop :=
  exists ws, length ws = length pts /\
    Forall (fun w => 0 <= w) ws /\ Qsum ws == 1 /\
    forall k, (k < 3)%nat -> combination ws pts k == nth k p 0.

(** All the points lie in one plane [a x + b y + c z = d]. *)
Definition coplanar (pts : list (list Q)) : Prop :=
  exists a b c d, ~ (a == 0 /\ b == 0 /\ c == 0) /\
    Forall (fun p => a * nth 0 p 0 + b * nth 1 p 0 + c * nth 2 p 0 == d) pts.

(** ** Stand-ins for the libraries

    Executable instances of the four interfaces, used to run the processor
    on concrete tables.  They follow the documented behaviour of the
    libraries where the processor depends on it (value ranges of the
    generator, sizes of the train/test split, sorted label classes, the
    scaler's formula, the labelling rule of DBSCAN, Qhull's refusal of flat
    input); the generator, the forest and the interpolant themselves are
    simple substitutes. *)

Module Reference.

(** *** pandas *)

Definition digit (c : Ascii.ascii) : option Z :=
  let n := Z.of_nat (Ascii.nat_of_ascii c) in
  if ((48 <=? n) && (n <=? 57))%Z then Some (n - 48)%Z else None.

Fixpoint digits (s : string) (acc : Z) : option Z :=
  match s with
  | EmptyString => Some acc
  | String c s' =>
      match digit c with
      | Some d => digits s' (10 * acc + d)%Z
      | None => None
      end
  end.

(** Reads unsigned decimal integers, nothing else. *)
Definition read_decimal (s : string) : option Q :=
  match s with
  | EmptyString => None
  | _ => match digits s 0 with Some z => Some (inject_Z z) | None => None end
  end.

(** No file can be read. *)
Definition no_file (path : option string) : result RawFrame :=
  Err (Raise "FileNotFoundError" "No such file or directory").

Definition pandas : Pandas := Build_Pandas read_decimal no_file.

(** *** numpy: a linear congruential generator in place of MT19937 *)

Definition modulus : Z := 2147483648.

Definition lcg (s : Z) : Z := ((1103515245 * s + 12345) mod modulus)%Z.

(** A fraction in [[0, 1)]. *)
Definition fraction (s : Z) : Q := inject_Z (s mod modulus) / inject_Z modulus.

Fixpoint draws {A} (f : Z -> A) (n : nat) (s : Z) : list A * Z :=
  match n with
  | O => ([], s)
  | S n' =>
      let s1 := lcg s in
      let (xs, s2) := draws f n' s1 in
      (f s1 :: xs, s2)
  end.

Definition rng_uniform (low high : Q) : nat -> Z -> list Q * Z :=
  draws (fun s => low + (high - low) * fraction s).

(** A bounded, centred substitute for the Gaussian. *)
Definition rng_normal (loc scale : Q) : nat -> Z -> list Q * Z :=
  draws (fun s => loc + scale * (2 * fraction s - 1)).

Definition rng_choice (a : list string) : nat -> Z -> list string * Z :=
  draws (fun s => nth (Z.to_nat (s mod Z.of_nat (length a))) a ""%string).

Definition rng_randint (low high : Z) : nat -> Z -> list Z * Z :=
  draws (fun s => (low + s mod (high - low))%Z).

(** A triangle wave of period [44/7] in place of the sine. *)
Definition wave (x : Q) : Q :=
  let t := x / (44 # 7) in
  let f := t - inject_Z (Qfloor t) in
  if Qle_bool f (1 # 2) then 1 - 4 * Qabs (f - (1 # 4))
  else 4 * Qabs (f - (3 # 4)) - 1.

Definition numpy : Numpy :=
  Build_Numpy (fun z => z) rng_uniform rng_normal rng_choice rng_randint
    wave (fun x => wave (x + (11 # 7))).

(** *** scikit-learn *)

(** Square root, exact on squares of rationals. *)
Definition Qsqrt (q : Q) : Q :=
  let r := Qred q in
  Z.sqrt (Qnum r) # Pos.sqrt (Qden r).

Definition column (k : nat) (m : matrix) : list num :=
  map (fun row => nth k row NaN) m.

Definition mean_of (s : list num) : Q :=
  match dropna_values s with [] => 0 | vs => Qmean vs end.

Definition scale_of (s : list num) : Q :=
  match dropna_values s with
  | [] => 1
  | vs => let sd := Qsqrt (Qvar vs) in if Qeq_bool sd 0 then 1 else sd
  end.

Definition fitted_scaler : Type := list Q * list Q.

Definition rescale (mean_ scale_ : Q) (x : num) : num :=
  match x with NaN => NaN | Fin q => Fin ((q - mean_) / scale_) end.

Fixpoint rescale_row (mean_ scale_ : list Q) (row : list num) : list num :=
  match mean_, scale_, row with
  | m :: mean', s :: scale', x :: row' =>
      rescale m s x :: rescale_row mean' scale' row'
  | _, _, _ => []
  end.

(** [StandardScaler().fit_transform]: per column [(x - mean_) / scale_],
    [scale_] the population standard deviation, 1 for a constant column. *)
Definition scaler_fit_transform (X : matrix) : result (fitted_scaler * matrix) :=
  match X with
  | [] => Err (ValueError "Found array with 0 sample(s) while a minimum of 1 is required")
  | row :: _ =>
      let ks := seq 0 (length row) in
      let mean_ := map (fun k => mean_of (column k X)) ks in
      let scale_ := map (fun k => scale_of (column k X)) ks in
      Ok ((mean_, scale_), map (rescale_row mean_ scale_) X)
  end.

Definition positions {A} (l : list A) : list nat := seq 0 (length l).

Definition point (pts : list (list Q)) (i : nat) : list Q := nth i pts [].

Definition core_at (eps : Q) (m : nat) (pts : list (list Q)) (i : nat) : bool :=
  is_core eps m pts (point pts i).

(** Core points within [eps] of the point at [i]. *)
Definition core_neighbours (eps : Q) (m : nat) (pts : list (list Q)) (i : nat)
  : list nat :=
  filter (fun j => core_at eps m pts j && within eps (point pts j) (point pts i))
    (positions pts).

Definition minimum (l : list nat) (d : nat) : nat := fold_right Nat.min d l.

(** One round of relaxation: each point takes the least representative
    among the core points within [eps] of it. *)
Definition relax (eps : Q) (m : nat) (pts : list (list Q)) (reps : list nat)
  : list nat :=
  map (fun i =>
         minimum (map (fun j => nth j reps j) (core_neighbours eps m pts i))
           (nth i reps i))
      (positions pts).

(** For a core point, the least position among the core points of its
    cluster: as many rounds as there are points. *)
Definition representatives (eps : Q) (m : nat) (pts : list (list Q)) : list nat :=
  Nat.iter (length pts) (relax eps m pts) (positions pts).

(** Clusters are numbered in the order their first core point appears; a
    border point joins the first cluster that reaches it; a point with no
    core point within [eps] is noise, [-1]. *)
Definition dbscan_labels (eps : Q) (m : nat) (pts : list (list Q)) : list Z :=
  let reps := representatives eps m pts in
  let cluster_of := fun i =>
    length (filter (fun j => core_at eps m pts j && (nth j reps j =? j)%nat
                             && (j <? nth i reps i)%nat)
              (positions pts)) in
  map (fun i =>
         match core_neighbours eps m pts i with
         | [] => (-1)%Z
         | j :: js => Z.of_nat (minimum (map cluster_of js) (cluster_of j))
         end)
      (positions pts).

Definition dbscan_fit_predict (eps : Q) (min_samples : nat) (X : matrix)
  : result (list Z) :=
  if Qle_bool eps 0 then Err (ValueError "eps must be > 0")
  else
    match finite_matrix X with
    | None => Err (ValueError "Input contains NaN")
    | Some pts => Ok (dbscan_labels eps min_samples pts)
    end.

Fixpoint insert_class (s : string) (classes : list string) : list string :=
  match classes with
  | [] => [s]
  | c :: cs =>
      match String.compare s c with
      | Lt => s :: classes
      | Eq => classes
      | Gt => c :: insert_class s cs
      end
  end.

Fixpoint index_of (s : string) (classes : list string) : nat :=
  match classes with
  | [] => O
  | c :: cs => if String.eqb s c then O else S (index_of s cs)
  end.

(** [classes_] are the distinct labels in increasing order; a label's code
    is its position there. *)
Definition encoder_fit_transform (y : list string) : list string * list nat :=
  let classes_ := fold_right insert_class [] y in
  (classes_, map (fun s => index_of s classes_) y).

(** The sizes are scikit-learn's: [ceil(test_size * n)] test rows, the rest
    for training, an error when nothing is left to train on.  The shuffle
    is a rotation by the seed. *)
Definition split (n : nat) (test_size : Q) (random_state : Z)
  : result (list nat * list nat) :=
  let n_test := Z.to_nat (Qceiling (test_size * inject_Z (Z.of_nat n))) in
  let n_train := (n - n_test)%nat in
  if (n_train =? 0)%nat then
    Err (ValueError "the resulting train set will be empty")
  else
    let k := Z.to_nat (random_state mod Z.of_nat n) in
    let permutation := seq k (n - k) ++ seq 0 k in
    Ok (firstn n_train (skipn n_test permutation), firstn n_test permutation).

(** The forest is replaced by the mean of the training targets; an
    estimator that is not fitted is [None].  The refusals are
    scikit-learn's where the processor can meet them: a missing target, a
    feature beyond the range of float32, an estimator used before it is
    fitted, a missing value handed to a metric.  A missing feature is
    accepted, as the forests of scikit-learn 1.4 do. *)
Definition constant_forest : Type := option (Q * nat).

Definition new_forest (n_estimators : nat) (random_state : Z) : constant_forest :=
  None.

Definition float32_max : Q := inject_Z ((2 ^ 24 - 1) * 2 ^ 104).

Definition fits_float32 (x : num) : bool :=
  match x with NaN => true | Fin q => Qle_bool (Qabs q) float32_max end.

Definition too_large : exn :=
  ValueError "Input X contains infinity or a value too large for dtype('float32').".

Definition not_fitted : exn :=
  Raise "NotFittedError" "This RandomForestRegressor instance is not fitted yet.".

Definition contains_nan : exn := ValueError "Input contains NaN.".

Definition constant_fit (model : constant_forest) (X : matrix) (y : list num)
  : result unit * constant_forest :=
  if negb (forallb (forallb fits_float32) X) then (Err too_large, model)
  else if existsb isna y then (Err (ValueError "Input y contains NaN."), model)
  else (Ok tt, Some (mean_of y, length (hd [] X))).

Definition constant_predict (model : constant_forest) (X : matrix)
  : result (list num) :=
  match model with
  | None => Err not_fitted
  | Some (centre, _) =>
      if negb (forallb (forallb fits_float32) X) then Err too_large
      else Ok (map (fun _ => Fin centre) X)
  end.

Definition equal_importances (model : constant_forest) : result (list num) :=
  match model with
  | None => Err not_fitted
  | Some (_, n_features) =>
      Ok (repeat (Fin (1 / inject_Z (Z.of_nat n_features))) n_features)
  end.

Fixpoint zip_with (f : num -> num -> num) (a b : list num) : list num :=
  match a, b with
  | x :: a', y :: b' => f x y :: zip_with f a' b'
  | _, _ => []
  end.

Definition squared_error (y_true y_pred : list num) : list num :=
  zip_with (fun a b => fmul (fsub a b) (fsub a b)) y_true y_pred.

Definition mean_squared (y_true y_pred : list num) : result num :=
  if existsb isna y_true || existsb isna y_pred then Err contains_nan
  else Ok (series_mean (squared_error y_true y_pred)).

(** [r2_score]: not defined, NaN, on fewer than two samples. *)
Definition determination (y_true y_pred : list num) : result num :=
  if existsb isna y_true || existsb isna y_pred then Err contains_nan
  else if (length y_true <? 2)%nat then Ok NaN
  else
    let centre := series_mean y_true in
    Ok (fsub (Fin 1)
          (fdiv (series_sum (squared_error y_true y_pred))
                (series_sum (squared_error y_true (map (fun _ => centre) y_true))))).

Definition sklearn : Sklearn :=
  Build_Sklearn scaler_fit_transform dbscan_fit_predict encoder_fit_transform
    split new_forest constant_fit constant_predict equal_importances
    mean_squared determination.

(** *** scipy *)

Definition minus (p q : list Q) : list Q :=
  map (fun ab => fst ab - snd ab) (combine p q).

Definition det3 (u v w : list Q) : Q :=
  let c := fun (p : list Q) k => nth k p 0 in
  c u 0%nat * (c v 1%nat * c w 2%nat - c v 2%nat * c w 1%nat)
  - c u 1%nat * (c v 0%nat * c w 2%nat - c v 2%nat * c w 0%nat)
  + c u 2%nat * (c v 0%nat * c w 1%nat - c v 1%nat * c w 0%nat).

(** No four of the points span a tetrahedron. *)
Definition flat (pts : list (list Q)) : bool :=
  match pts with
  | [] => true
  | o :: rest =>
      let ds := map (fun p => minus p o) rest in
      forallb (fun u => forallb (fun v => forallb (fun w =>
        Qeq_bool (det3 u v w) 0) ds) ds) ds
  end.

Fixpoint same_point (p q : list Q) : bool :=
  match p, q with
  | [], [] => true
  | a :: p', b :: q' => Qeq_bool a b && same_point p' q'
  | _, _ => false
  end.

Fixpoint value_at (samples : list (list Q * num)) (fill_value : num) (q : list Q) : num :=
  match samples with
  | [] => fill_value
  | (p, v) :: rest => if same_point p q then v else value_at rest fill_value q
  end.

(** Flat input is refused as Qhull does.  The interpolant is a stand-in: a
    sample's own value at a sample point, the fill value anywhere else. *)
Definition grid_data (points : matrix) (vals : list num) (xi : matrix)
    (method : string) (fill_value : num) : result (list num) :=
  match finite_matrix points with
  | None => Err (ValueError "Input contains NaN")
  | Some pts =>
      if flat pts then Err (Raise "QhullError" "initial simplex is flat")
      else
        match finite_matrix xi with
        | None => Err (ValueError "Input contains NaN")
        | Some qs => Ok (map (value_at (combine pts vals) fill_value) qs)
        end
  end.

Definition scipy : Scipy := Build_Scipy grid_data.

End Reference.

(** ** Vocabulary of the statements *)

(** *** Tables used as examples *)

Definition raw_row (easting : cell) (length_ : cell) (lithology : option string)
  : RawRow :=
  mkRawRow (CNum 1) (CNum 1) easting (CNum 4500000) (CStr "500010") (CNum 4500010)
    (CNum 90) length_ (CNum 0) (CNum 10) (CNum 2) (CNum 40) (CNum 55) lithology.

(** Four raw rows: an unreadable easting, a missing length, a missing
    lithology. *)
Definition raw_example : RawFrame :=
  mkRawFrame true
    [raw_row (CNum 500000) (CNum 100) (Some "Schiste");
     raw_row (CStr "n/a") (CNum 500) (Some "Gneiss");
     raw_row (CNum 500020) CNaN (Some "Granite");
     raw_row (CNum 500040) (CStr "300") None]%string.

(** A preprocessed row with the given grade and volume proxy. *)
Definition sample_row (grade volume : Q) : Row :=
  mkRow (CNum 1) (CNum 1) (Fin 500000) (Fin 4500000) (Fin 500010) (Fin 4500010)
    (Fin 90) (Fin volume) (Fin 0) (Fin 10) (Fin 1) (Fin grade) (Fin (grade + 5))
    "Granite" (Fin 500005) (Fin 4500005) (Fin 5) 0 (Fin volume) (Fin 5) None.

Definition three_rows : DataFrame :=
  [sample_row 10 100; sample_row 40 200; sample_row 60 300].

(** A preprocessed row with the given midpoint and grade. *)
Definition at_point (x y z grade : Q) : Row :=
  mkRow (CNum 1) (CNum 1) (Fin x) (Fin y) (Fin x) (Fin y)
    (Fin 90) (Fin 10) (Fin z) (Fin z) (Fin 1) (Fin grade) (Fin grade)
    "Granite" (Fin x) (Fin y) (Fin z) 0 (Fin 10) (Fin 0) None.

(** Four samples at the same depth. *)
Definition flat_table : DataFrame :=
  [at_point 0 0 5 10; at_point 2 0 5 40; at_point 0 2 5 60; at_point 2 2 5 20].

Definition flat_points : list (list Q) :=
  [[0; 0; 5]; [2; 0; 5]; [0; 2; 5]; [2; 2; 5]].

(** The four samples above and one below them. *)
Definition solid_table : DataFrame :=
  flat_table ++ [at_point 1 1 9 30].

Definition solid_points : list (list Q) :=
  [[0; 0; 5]; [2; 0; 5]; [0; 2; 5]; [2; 2; 5]; [1; 1; 9]].

(** Three samples close to each other and three scattered ones. *)
Definition cluster_table : DataFrame :=
  [at_point 0 1 1 10; at_point 1 0 1 40; at_point 1 1 0 60;
   at_point 1 1 6 20; at_point 6 6 1 30; at_point 6 6 6 50].

Definition cluster_coords : list (list Q) :=
  [[0; 1; 1]; [1; 0; 1]; [1; 1; 0]; [1; 1; 6]; [6; 6; 1]; [6; 6; 6]].

(** The same points once each axis is centred on 5/2 and divided by 5/2. *)
Definition cluster_scaled : list (list Q) :=
  [[-30 # 30; -18 # 30; -18 # 30]; [-18 # 30; -30 # 30; -18 # 30];
   [-18 # 30; -18 # 30; -30 # 30]; [-18 # 30; -18 # 30; 42 # 30];
   [42 # 30; 42 # 30; -18 # 30]; [42 # 30; 42 # 30; 42 # 30]].

(** *** Sample data *)

(** [np.random.uniform(low, high, size)] returns [size] values of the
    half-open interval [[low, high)]. *)
Definition uniform_in_range (numpy : Numpy) : Prop :=
  forall (low high : Q) (n : nat) (g : RandomState),
    low < high ->
    length (fst (uniform low high n g)) = n /\
    Forall (fun x => low <= x /\ x < high) (fst (uniform low high n g)).

(** The cell holds a number of [[low, high]]. *)
Definition cell_between (low high : Q) (c : cell) : Prop :=
  match c with CNum q => low <= q /\ q <= high | _ => False end.

Definition cell_nonneg (c : cell) : Prop :=
  match c with CNum q => 0 <= q | _ => False end.

Definition cell_lt (a b : cell) : Prop :=
  match a, b with CNum x, CNum y => x < y | _, _ => False end.

Definition cell_le (a b : cell) : Prop :=
  match a, b with CNum x, CNum y => x <= y | _, _ => False end.

(** What the generator's ranges give for one row. *)
Record row_drawn (r : RawRow) : Prop := {
  start_easting : cell_between 500000 502000 (raw_Debut_EUTM r);
  start_northing : cell_between 4500000 4502000 (raw_Debut_NUTM r);
  end_easting : cell_between 499950 502050 (raw_Fin_EUTM r);
  end_northing : cell_between 4499950 4502050 (raw_Fin_NUTM r);
  mean_grade_nonneg : cell_nonneg (raw_Moyenne_U r);
  depth_order : cell_lt (raw_de_m r) (raw_a_m r);
  grade_order : cell_le (raw_Moyenne_U r) (raw_Max_U r)
}.

(** *** Spatial clusterer *)

(** The scaler's contract on a table of three columns: every axis is
    standardized. *)
Definition standardized (X Z : list (list Q)) : Prop :=
  forall k, (k < 3)%nat -> standardized_axis (axis k X) (axis k Z).

(** The contract of DBSCAN the processor relies on: one label per point,
    [-1] on the noise points and on them only. *)
Definition marks_noise (eps : Q) (min_samples : nat) (pts : list (list Q))
    (labels : list Z) : Prop :=
  length labels = length pts /\
  forall i, (i < length pts)%nat ->
    (nth i labels 0%Z = (-1)%Z <-> noise eps min_samples pts i).

(** What [StandardScaler] does to one axis: the values are centred on
    their mean and divided by a positive scale, which is the standard
    deviation of the axis when that is a rational number and 1 when the
    values are all equal. *)
Definition rescaled_axis (xs zs : list Q) : Prop :=
  length zs = length xs /\
  exists s, 0 < s /\
    (forall i, (i < length xs)%nat -> nth i zs 0 == (nth i xs 0 - Qmean xs) / s) /\
    (Qvar xs == 0 -> s == 1) /\
    (forall t, 0 < t -> t * t == Qvar xs -> s == t).

(** The contract of the scaler the processor relies on, on a table of
    three columns without missing values. *)
Definition scaler_rescales (sklearn : Sklearn) : Prop :=
  forall (X : list (list Q)) (fitted : scaler_state) (scaled : matrix),
    Forall (fun p => length p = 3%nat) X ->
    StandardScaler_fit_transform (map (map Fin) X) = Ok (fitted, scaled) ->
    exists Z,
      scaled = map (map Fin) Z /\
      forall k, (k < 3)%nat -> rescaled_axis (axis k X) (axis k Z).

(** The contract of DBSCAN, for every radius and every table without
    missing values. *)
Definition dbscan_marks_noise (sklearn : Sklearn) : Prop :=
  forall (eps : Q) (min_samples : nat) (X : list (list Q)) (labels : list Z),
    DBSCAN_fit_predict eps min_samples (map (map Fin) X) = Ok labels ->
    marks_noise eps min_samples X labels.

(** [min_samples], or the default 3. *)
Definition or_three (min_samples : option nat) : nat :=
  match min_samples with Some m => m | None => 3%nat end.

(** *** Grade predictor *)

(** The rows left to train on once [train_test_split] has put the test rows
    aside. *)
Definition rows_after_split {sklearn : Sklearn} (df : DataFrame) : nat :=
  match train_test_split (length df) (2 # 10) 42 with
  | Ok (train, _) => length train
  | Err _ => 0%nat
  end.

(** The guard the specification asks of the grade predictor: with fewer
    than 5 rows left after the split, training fails with an
    [InsufficientDataError]. *)
Definition insufficient_data_guard (sklearn : Sklearn) : Prop :=
  forall (df : DataFrame) (self : MiningDataProcessor),
    (rows_after_split df < 5)%nat ->
    exists msg,
      fst (train_uranium_model df self) = Err (Raise "InsufficientDataError" msg).

(** The exception is raised by one of the calls [train_uranium_model]
    makes to scikit-learn on the table: the split, or, on the rows the split
    returns, [fit], [predict], one of the two metrics or
    [feature_importances_]. *)
Definition raised_by_sklearn {sklearn : Sklearn} (df : DataFrame) (e : exn) : Prop :=
  let X := map feature_row df in
  let y := map Moyenne_U df in
  train_test_split (length df) (2 # 10) 42 = Err e \/
  exists train test,
    train_test_split (length df) (2 # 10) 42 = Ok (train, test) /\
    let model := snd (fit (RandomForestRegressor 100 42) (take X train) (take y train)) in
    fst (fit (RandomForestRegressor 100 42) (take X train) (take y train)) = Err e \/
    predict model (take X test) = Err e \/
    feature_importances_ model = Err e \/
    exists y_pred,
      predict model (take X test) = Ok y_pred /\
      (mean_squared_error (take y test) y_pred = Err e \/
       r2_score (take y test) y_pred = Err e).

(** A table of one row. *)
Definition one_row : DataFrame := [sample_row 40 200].

(** *** Grid interpolator *)

(** The grids and the levels [interpolate_3d_grid] works on. *)
Definition x_grid (df : DataFrame) (grid_resolution : nat) : list num :=
  linspace (series_min (map X_mean df)) (series_max (map X_mean df)) grid_resolution.

Definition y_grid (df : DataFrame) (grid_resolution : nat) : list num :=
  linspace (series_min (map Y_mean df)) (series_max (map Y_mean df)) grid_resolution.

Definition z_grid (df : DataFrame) (grid_resolution : nat) : list num :=
  linspace (series_min (map Z_mean df)) (series_max (map Z_mean df))
    (grid_resolution / 2).

(** The lattice points of the level [z], row after row. *)
Definition lattice (df : DataFrame) (grid_resolution : nat) (z : num) : matrix :=
  let (xi, yi) := meshgrid (x_grid df grid_resolution) (y_grid df grid_resolution) in
  grid_points xi yi (full_like xi z).

(** The body of the loop of [interpolate_3d_grid], for one level. *)
Definition slice_at {scipy : Scipy} (df : DataFrame) (grid_resolution : nat) (z : num)
  : result Slice :=
  let (xi, yi) := meshgrid (x_grid df grid_resolution) (y_grid df grid_resolution) in
  match griddata (midpoints df) (map Moyenne_U df)
          (lattice df grid_resolution z) "linear" (Fin 0) with
  | Err e => Err e
  | Ok interpolated =>
      Ok (mkSlice xi yi (full_like xi z) (reshape_like xi interpolated) z)
  end.

(** [l] is [n] numbers, from [lo] in equal steps, reaching [hi] when there
    are two of them or more. *)
Definition evenly_spaced (lo hi : Q) (n : nat) (l : list num) : Prop :=
  length l = n /\
  (forall i, (i < n)%nat ->
     exists v, nth_error l i = Some (Fin v) /\
       v == lo + inject_Z (Z.of_nat i) * ((hi - lo) / (inject_Z (Z.of_nat n) - 1))) /\
  ((1 <= n)%nat -> exists v, nth_error l 0 = Some (Fin v) /\ v == lo) /\
  ((2 <= n)%nat -> nth_error l (n - 1) = Some (Fin hi)).

(** [lo] and [hi] are the least and the greatest present value of the
    column. *)
Definition column_bounds (s : list num) (lo hi : Q) : Prop :=
  In (Fin lo) s /\ In (Fin hi) s /\
  forall q, In (Fin q) s -> lo <= q /\ q <= hi.

(** The contract of [griddata] the interpolator relies on: one value per
    query point, and the fill value at every query point outside the convex
    hull of the samples. *)
Definition fills_outside_hull {scipy : Scipy} (points : matrix) (vals : list num)
    (pts : list (list Q)) : Prop :=
  forall (xi : matrix) (fill_value : num) (out : list num),
    griddata points vals xi "linear" fill_value = Ok out ->
    length out = length xi /\
    forall i q v,
      nth_error xi i = Some (map Fin q) -> nth_error out i = Some v ->
      ~ in_hull pts q -> v = fill_value.

(** The value of the slice at each of its lattice points is 0 when the
    point is outside the hull of the samples. *)
Definition zero_outside_hull (pts : list (list Q)) (s : Slice) : Prop :=
  Forall2 (fun p v => forall q, p = map Fin q -> ~ in_hull pts q -> v = Fin 0)
    (grid_points (grid_x s) (grid_y s) (grid_z s)) (ravel (values s)).

(** The fallback the specification asks of the interpolator: on sample
    points that lie in one plane it still returns its slices, filled with
    the fill value. *)
Definition degenerate_fallback (scipy : Scipy) : Prop :=
  forall (df : DataFrame) (grid_resolution : nat) (pts : list (list Q)),
    finite_matrix (midpoints df) = Some pts ->
    coplanar pts ->
    exists slices,
      interpolate_3d_grid df grid_resolution = Ok slices /\
      length slices = (grid_resolution / 2)%nat /\
      Forall (fun s => Forall (Forall (fun v => v = Fin 0)) (values s)) slices.

(** The levels of the slices reach both ends of the depth range of the
    table, whatever the resolution. *)
Definition levels_span_depth (scipy : Scipy) : Prop :=
  forall (df : DataFrame) (grid_resolution : nat) (slices : list Slice) (lo hi : Q),
    interpolate_3d_grid df grid_resolution = Ok slices ->
    slices <> [] ->
    column_bounds (map Z_mean df) lo hi ->
    In (Fin lo) (map z_level slices) /\ In (Fin hi) (map z_level slices).

(** *** Reserve calculator *)

(** The grade of a row is the rational [q]. *)
Definition grade_is (r : Row) (q : Q) : Prop :=
  match Moyenne_U r with Fin g => g == q | NaN => False end.

(** [x <= y] on numbers that are both present. *)
Definition fle (x y : num) : Prop :=
  match x, y with Fin a, Fin b => a <= b | _, _ => False end.

Definition nonneg (x : num) : Prop :=
  match x with Fin a => 0 <= a | NaN => False end.


(** ** The reserve calculator in float64

    The sums of [calculate_ore_reserves] depend on how float64 rounds: the
    order in which numpy adds a column up changes with its length, and the
    total changes with it in its last digits.  What follows writes the
    calculator out once more with every operation rounded; [rnd] is the
    rounding, [exact] for the idealised numbers used so far and [float64]
    for the numbers of the source. *)

(** *** Rounding to the nearest float64 *)

Definition pow2 (e : Z) : Q := 2 ^ e.

(** The binary exponent of a number other than 0: [pow2 (Qlog2 q) <= |q|
    < pow2 (Qlog2 q + 1)]. *)
Definition Qlog2 (q : Q) : Z :=
  let l := (Z.log2 (Z.abs (Qnum q)) - Z.log2 (Z.pos (Qden q)))%Z in
  if Qle_bool (pow2 l) (Qabs q) then l else (l - 1)%Z.

(** The nearest integer, the even one of the two in a tie. *)
Definition round_half_even (q : Q) : Z :=
  let f := Qfloor q in
  match (q - inject_Z f ?= 1 # 2)%Q with
  | Lt => f
  | Gt => (f + 1)%Z
  | Eq => if Z.even f then f else (f + 1)%Z
  end.

(** The exponent of the last place of the float64 nearest to [q]: 53
    significant bits, and never below the last place of the subnormal
    numbers. *)
Definition last_place (q : Q) : Z := Z.max (Qlog2 q - 52) (-1074).

(** IEEE 754 binary64, rounding to nearest, ties to even.  Overflow is
    left out: a number of [2 ^ 1024] or more is rounded as if the exponent
    had no upper bound, where float64 has an infinity. *)
Definition float64 (q : Q) : Q :=
  if Qeq_bool q 0 then 0
  else inject_Z (round_half_even (q / pow2 (last_place q))) * pow2 (last_place q).

Definition exact (q : Q) : Q := q.

(** The unit roundoff of float64. *)
Definition unit_roundoff : Q := pow2 (-53).

Module Rounded.

Section Arithmetic.

Variable rnd : Q -> Q.

Definition round (x : num) : num :=
  match x with NaN => NaN | Fin q => Fin (rnd q) end.

Definition add (a b : Q) : Q := rnd (a + b).
Definition mul (x y : num) : num := round (fmul x y).
Definition div (x y : num) : num := round (fdiv x y).

(** *** [ndarray.sum] of numpy on a float64 column

    numpy adds a contiguous column up with its pairwise summation
    ([pairwise_sum] in [loops_utils.h.src]): fewer than 8 values are added
    in order, starting from 0; up to 128 values are added into 8 running
    sums, value [i] into sum [i mod 8], the 8 sums are then added two by
    two and what is left of the column past the last full block of 8 is
    added in order; a longer column is cut in two, the first part a
    multiple of 8 long, and the sums of the parts are added. *)

(** [res = 0.; for (i = 0; i < n; i++) res += a[i]], from any [res]. *)
Definition sum_in_order (res : Q) (a : list Q) : Q := fold_left add a res.

(** [r[j] += a[i + j]] for the 8 running sums. *)
Fixpoint add_block (r a : list Q) : list Q :=
  match r, a with
  | x :: r', y :: a' => add x y :: add_block r' a'
  | _, _ => r
  end.

(** The loop over the full blocks of 8: the running sums and what is left
    of the column. *)
Fixpoint running_sums (blocks : nat) (r a : list Q) : list Q * list Q :=
  match blocks with
  | O => (r, a)
  | S blocks' =>
      if (8 <=? length a)%nat
      then running_sums blocks' (add_block r (firstn 8 a)) (skipn 8 a)
      else (r, a)
  end.

Definition sum_block (a : list Q) : Q :=
  let (r, rest) := running_sums (length a) (firstn 8 a) (skipn 8 a) in
  let r_ := fun j => nth j r 0 in
  let res := add (add (add (r_ 0%nat) (r_ 1%nat)) (add (r_ 2%nat) (r_ 3%nat)))
                 (add (add (r_ 4%nat) (r_ 5%nat)) (add (r_ 6%nat) (r_ 7%nat))) in
  sum_in_order res rest.

(** [depth] counts the levels of recursion left; every level shortens the
    column, so [length a] levels are more than a column [a] needs. *)
Fixpoint pairwise_sum (depth : nat) (a : list Q) : Q :=
  let n := length a in
  if (n <? 8)%nat then sum_in_order 0 a
  else if (n <=? 128)%nat then sum_block a
  else
    match depth with
    | O => sum_block a
    | S depth' =>
        let n2 := (n / 2)%nat in
        let n2 := (n2 - n2 mod 8)%nat in
        add (pairwise_sum depth' (firstn n2 a)) (pairwise_sum depth' (skipn n2 a))
    end.

(** [a.sum()]: the reduction starts from 0. *)
Definition ndarray_sum (a : list Q) : Q :=
  add 0 (pairwise_sum (length a) a).

(** *** Reductions of pandas *)

(** [nansum]: a missing value counts as 0. *)
Definition zero_filled (s : list num) : list Q :=
  map (fun x => match x with NaN => 0 | Fin q => q end) s.

Definition series_sum (s : list num) : num := Fin (ndarray_sum (zero_filled s)).

(** [nanmean]: the sum as above over the number of present values (as
    pandas computes it on its own, without the optional bottleneck
    library). *)
Definition series_mean (s : list num) : num :=
  div (series_sum s) (of_nat (length (dropna_values s))).

(** *** Reserve calculator *)

Definition with_tonnage (r : Row) : OreRow :=
  let tonnage := mul (Volume_approx r) (Fin (rnd density)) in
  mkOreRow r tonnage (div (mul tonnage (Moyenne_U r)) (Fin ppm)).

Definition calculate_ore_reserves (df : DataFrame) (cutoff_grade : Q)
  : Reserves * list OreRow :=
  let ore_data := map with_tonnage (filter (ore_mask cutoff_grade) df) in
  let reserves :=
    mkReserves
      (series_sum (map Tonnage ore_data))
      (series_mean (map (fun o => Moyenne_U (ore_row o)) ore_data))
      (series_sum (map Metal_content ore_data))
      (length ore_data) in
  (reserves, ore_data).

End Arithmetic.

End Rounded.

(** *** Vocabulary of the statements on rounded sums *)

(** [x] is a non-negative number that the rounding leaves as it is. *)
Definition rounded_value (rnd : Q -> Q) (x : Q) : Prop :=
  0 <= x /\ rnd x == x.

(** [x] is the sum [S] of non-negative numbers, but for the roundings of
    at most [d] additions in a row, each of relative error [u] at most. *)
Definition sum_up_to (rnd : Q -> Q) (u : Q) (d : nat) (S x : Q) : Prop :=
  rounded_value rnd x /\ 0 <= S /\
  S * (1 - u) ^ Z.of_nat d <= x /\ x <= S * (1 + u) ^ Z.of_nat d.

(** The same of a figure of the summary, with the unit roundoff of
    float64. *)
Definition reported_within (d : nat) (S : Q) (x : num) : Prop :=
  match x with
  | Fin t =>
      S * (1 - unit_roundoff) ^ Z.of_nat d <= t /\
      t <= S * (1 + unit_roundoff) ^ Z.of_nat d
  | NaN => False
  end.

(** The tonnage [with_tonnage] gives a row, 0 when it is missing. *)
Definition tonnage_of (rnd : Q -> Q) (r : Row) : Q :=
  match Tonnage (Rounded.with_tonnage rnd r) with Fin t => t | NaN => 0 end.

(** Seven ore rows and two rows of low grade whose volume proxy is
    [2 ^ -60]. *)
Definition rounding_table : DataFrame :=
  [sample_row 50 4; sample_row 50 9; sample_row 50 7; sample_row 50 7;
   sample_row 50 2; sample_row 50 5; sample_row 50 7;
   sample_row 20 (pow2 (-60)); sample_row 20 (pow2 (-60))].

(** * Around the processor

    What follows embeds the code around the processor: [load_data] and the
    reserves tab of [app.py], the figures of [scripts/visualization_3d.py]
    and the validator of [scripts/data_validator.py], each with the
    vocabulary of the properties proved of it further down. *)

(** ** Vocabulary of the further properties of the processor *)

(** *** Preprocessor *)

(** [LabelEncoder.fit_transform] returns one code per label. *)
Definition one_code_per_label (sklearn : Sklearn) : Prop :=
  forall y : list string, length (snd (LabelEncoder_fit_transform y)) = length y.

(** The cell reads as a number. *)
Definition readable {pandas : Pandas} (c : cell) : bool :=
  negb (isna (to_numeric c)).

(** The five critical cells of the raw row read as numbers. *)
Definition complete {pandas : Pandas} (r : RawRow) : bool :=
  readable (raw_Debut_EUTM r) && readable (raw_Debut_NUTM r) &&
  readable (raw_Fin_EUTM r) && readable (raw_Fin_NUTM r) &&
  readable (raw_Moyenne_U r).

(** The columns of the returned row that are the converted cells of the
    raw row. *)
Definition carried {pandas : Pandas} (r : RawRow) (out : Row) : Prop :=
  N_Anomalie out = raw_N_Anomalie r /\
  N_Tranche out = raw_N_Tranche r /\
  Debut_EUTM out = to_numeric (raw_Debut_EUTM r) /\
  Debut_NUTM out = to_numeric (raw_Debut_NUTM r) /\
  Fin_EUTM out = to_numeric (raw_Fin_EUTM r) /\
  Fin_NUTM out = to_numeric (raw_Fin_NUTM r) /\
  Direction out = to_numeric (raw_Direction r) /\
  de_m out = to_numeric (raw_de_m r) /\
  a_m out = to_numeric (raw_a_m r) /\
  Moyenne_U out = to_numeric (raw_Moyenne_U r) /\
  Max_U out = to_numeric (raw_Max_U r) /\
  Cluster out = None.

(** [m] is the mean of [a] and [b], all three present; it lies between
    them. *)
Definition midpoint_of (a b m : num) : Prop :=
  match a, b, m with
  | Fin a, Fin b, Fin m => m == (a + b) / 2 /\ Qmin a b <= m /\ m <= Qmax a b
  | _, _, _ => False
  end.

(** [y] is [x] after [fillna(fill)]: [x] itself when it is present, the
    fill value when it is missing. *)
Definition filled (fill x y : num) : Prop :=
  match x with Fin q => y = Fin q | NaN => y = fill end.

(** The number is present and lies in [[lo, hi]]. *)
Definition within_bounds (lo hi : Q) (x : num) : Prop :=
  match x with Fin q => lo <= q /\ q <= hi | NaN => False end.

(** The rows [dropna] keeps, converted. *)
Definition kept_rows {pandas : Pandas} (raw : RawFrame) : list NumRow :=
  filter critical_present (map to_numeric_row (raw_rows raw)).

(** The table of the running example, preprocessed. *)
Definition preprocessed_example : DataFrame :=
  match fst (load_and_preprocess_data (pandas := Reference.pandas)
               (sklearn := Reference.sklearn) None (Some raw_example) __init__) with
  | Ok df => df
  | Err _ => []
  end.

(** *** Sample data *)

(** Both cells hold a number and the second exceeds the first by a gap of
    [[lo, hi]]. *)
Definition cell_gap (lo hi : Q) (a b : cell) : Prop :=
  match a, b with
  | CNum x, CNum y => lo <= y - x /\ y - x <= hi
  | _, _ => False
  end.

(** What the ranges of the generator give for the columns of one row. *)
Record row_sampled (r : RawRow) : Prop := {
  sampled_easting : cell_between 500000 502000 (raw_Debut_EUTM r);
  sampled_northing : cell_between 4500000 4502000 (raw_Debut_NUTM r);
  sampled_end_easting : cell_gap (-50) 50 (raw_Debut_EUTM r) (raw_Fin_EUTM r);
  sampled_end_northing : cell_gap (-50) 50 (raw_Debut_NUTM r) (raw_Fin_NUTM r);
  sampled_direction : cell_between 0 360 (raw_Direction r);
  sampled_length : cell_between 10 200 (raw_Longueur r);
  sampled_thickness : cell_between (1 # 2) 15 (raw_Epaisseur r);
  sampled_depth : cell_between 0 100 (raw_de_m r);
  sampled_interval : cell_gap 5 50 (raw_de_m r) (raw_a_m r);
  sampled_grade : cell_nonneg (raw_Moyenne_U r);
  sampled_grade_gap : cell_gap 0 50 (raw_Moyenne_U r) (raw_Max_U r);
  sampled_lithology : raw_Lithologie r <> None
}.

(** [load_data] of [app.py]: the sample table or the uploaded file,
    preprocessed; [None] when there is no file.  The cache Streamlit puts in
    front of the function is left out. *)
Definition sample_source : string := "Données d'exemple".

Definition load_data {pandas : Pandas} {numpy : Numpy} {sklearn : Sklearn}
    (source_type : string) (n_samples : nat) (uploaded_file : option string)
  : method (option DataFrame) :=
  fun self =>
    let preprocessed := fun raw =>
      match load_and_preprocess_data None (Some raw) self with
      | (Ok df, self') => (Ok (Some df), self')
      | (Err e, self') => (Err e, self')
      end in
    if String.eqb source_type sample_source then
      preprocessed (create_sample_data n_samples)
    else
      match uploaded_file with
      | Some file =>
          match read_csv (Some file) with
          | Ok raw => preprocessed raw
          | Err e => (Err e, self)
          end
      | None => (Ok None, self)
      end.

(** A row of the preprocessed sample table. *)
Record row_of_sample (out : Row) : Prop := {
  sample_X_mean : within_bounds 499975 502025 (X_mean out);
  sample_Y_mean : within_bounds 4499975 4502025 (Y_mean out);
  sample_Z_mean : within_bounds (5 # 2) 125 (Z_mean out);
  sample_Volume : within_bounds 5 3000 (Volume_approx out);
  sample_Gradient : within_bounds 0 50 (Gradient_U out);
  sample_grade : nonneg (Moyenne_U out)
}.

(** *** The processor over its life *)

(** The states a processor goes through: created by [__init__], then left
    by whatever calls of its three writing methods, failed ones included. *)
Inductive reachable {pandas : Pandas} {sklearn : Sklearn}
  : MiningDataProcessor -> Prop :=
| reach_init : reachable __init__
| reach_load (data_path : option string) (sample_data : option RawFrame)
    (self : MiningDataProcessor) :
    reachable self ->
    reachable (snd (load_and_preprocess_data data_path sample_data self))
| reach_cluster (df : DataFrame) (eps : option Q) (min_samples : option nat)
    (self : MiningDataProcessor) :
    reachable self ->
    reachable (snd (spatial_clustering df eps min_samples self))
| reach_train (df : DataFrame) (self : MiningDataProcessor) :
    reachable self ->
    reachable (snd (train_uranium_model df self)).

(** *** Reserve calculator *)

(** The ore subset at a cutoff, as rows of the table. *)
Definition ore_rows (df : DataFrame) (cutoff_grade : Q) : list Row :=
  map ore_row (snd (calculate_ore_reserves df cutoff_grade)).

(** The table of six samples once clustered by the stand-in. *)
Definition clustered_example : DataFrame :=
  match fst (spatial_clustering (sklearn := Reference.sklearn)
               cluster_table (Some 600) None __init__) with
  | Ok df => df
  | Err _ => []
  end.

(** *** The reserves tab of [app.py] *)

(** [np.arange(start, stop, step)] on integers, for a positive step. *)
Definition arange (start stop step : Z) : list Z :=
  map (fun i => (start + Z.of_nat i * step)%Z)
    (seq 0 (Z.to_nat ((stop - start + step - 1) / step))).

Definition cutoff_grades : list Z := arange 10 101 10.

(** A line of [reserve_df]. *)
Record ReserveLine : Type := mkReserveLine {
  Teneur_de_coupure : Z;
  Tonnage_t : num;
  Teneur_moyenne_ppm : num;
  Contenu_metal_t : num
}.

Definition reserve_line (df : DataFrame) (cutoff : Z) : ReserveLine :=
  let res := fst (calculate_ore_reserves df (inject_Z cutoff)) in
  mkReserveLine cutoff (total_tonnage res) (average_grade res) (metal_content res).

Definition reserve_data (df : DataFrame) : list ReserveLine :=
  map (reserve_line df) cutoff_grades.

(** What the user enters: three amounts and the recovery slider, 0 to 100. *)
Record Economics : Type := mkEconomics {
  uranium_price : Q;
  mining_cost : Q;
  processing_cost : Q;
  recovery_percent : Z
}.

Definition recovery (e : Economics) : num :=
  fdiv (Fin (inject_Z (recovery_percent e))) (Fin 100).

Definition Valeur_brute (e : Economics) (line : ReserveLine) : num :=
  fmul (fmul (fmul (Contenu_metal_t line) (Fin 1000)) (Fin (uranium_price e)))
    (recovery e).

Definition Cout_total (e : Economics) (line : ReserveLine) : num :=
  fmul (Tonnage_t line) (Fin (mining_cost e + processing_cost e)).

Definition Profit (e : Economics) (line : ReserveLine) : num :=
  fsub (Valeur_brute e line) (Cout_total e line).

(** [Series.idxmax()] on a default index: the position of the first
    occurrence of the greatest present value; [None] when no value is
    present, where pandas has no label to give. *)
Fixpoint argmax_from (s : list num) (i : nat) (best : option (nat * Q))
  : option (nat * Q) :=
  match s with
  | [] => best
  | NaN :: s' => argmax_from s' (S i) best
  | Fin v :: s' =>
      argmax_from s' (S i)
        (match best with
         | Some (_, b) => if Qle_bool v b then best else Some (i, v)
         | None => Some (i, v)
         end)
  end.

Definition idxmax (s : list num) : option nat :=
  option_map fst (argmax_from s 0 None).

(** [reserve_df.loc[reserve_df['Profit ($)'].idxmax(), 'Teneur de coupure']] *)
Definition optimal_cutoff (df : DataFrame) (e : Economics) : option Z :=
  let reserve_df := reserve_data df in
  match idxmax (map (Profit e) reserve_df) with
  | Some k => option_map Teneur_de_coupure (nth_error reserve_df k)
  | None => None
  end.

(** ** Visualizer ([visualization_3d.py])

    plotly, and what Python does with a string or to print a number, are
    not part of the repository.  A figure is the list of the traces the code adds to it, each
    with the arguments the code gives it and the subplot it is put in, and
    the title of the layout; the axis titles, constant texts, are left out,
    and so is [mode='markers'], given to every 3-D scatter. *)

Class Python : Type := {
  (** [str(x)] and [f"{x}"] on a number *)
  str_number : Q -> string;
  (** [f"{x:.nf}"] *)
  format_f : nat -> num -> string;
  (** [s.strip()] *)
  strip : string -> string;
  (** whether [float(s)] returns, on a string *)
  float_accepts : string -> bool
}.

Class Plotly : Type := {
  (** [px.colors.qualitative.Set3] *)
  Set3 : list string
}.

Class PandasSeries : Type := {
  (** [Series.value_counts()]: the values and how often each occurs *)
  value_counts : list cell -> list (cell * nat)
}.

Inductive sizes : Type :=
| SizeEach (l : list num)
| SizeAll (q : Q).

Inductive colors : Type :=
| ColorEach (l : list num)
| ColorNamed (c : string).

Record Marker : Type := mkMarker {
  marker_size : sizes;
  marker_color : colors;
  marker_colorscale : option string;
  marker_colorbar : option string;
  marker_opacity : option Q
}.

Inductive Trace : Type :=
| Scatter3d (x y z : list num) (marker : Marker) (name : string)
    (text : option (list string))
| Surface (x y z surfacecolor : matrix) (colorscale : string) (opacity : Q)
    (name : string) (showscale : bool)
| Pie (labels : list cell) (counts : list nat) (name : string)
| Box (y : list num) (name : string) (showlegend : bool)
| Scatter (x y : list num) (name : string) (line_color : string).

(** Where [add_trace] puts a trace. *)
Inductive placement : Type :=
| Plain
| Cell (row col : nat)
| Axis (secondary_y : bool).

Record Figure : Type := mkFigure {
  data : list (Trace * placement);
  title : string
}.

(** The markers a trace draws. *)
Definition trace_points (t : Trace) : nat :=
  match t with
  | Scatter3d x _ _ _ _ _ => length x
  | Scatter x _ _ _ => length x
  | Box y _ _ => length y
  | Surface _ _ _ _ _ _ _ _ => 0
  | Pie _ _ _ => 0
  end.

Definition enumerate {A} (l : list A) : list (nat * A) :=
  combine (seq 0 (length l)) l.

Section Visualizer.

Context {python : Python} {plotly : Plotly} {series : PandasSeries}.

(** [create_ore_body_visualization(df, cutoff_grade=30)] *)
Definition create_ore_body_visualization (df : DataFrame) (cutoff_grade : option Q)
  : Figure :=
  let cutoff_grade := keyword cutoff_grade 30 in
  let ore_data := filter (fun r => fge (Moyenne_U r) (Fin cutoff_grade)) df in
  let waste_data := filter (fun r => flt (Moyenne_U r) (Fin cutoff_grade)) df in
  let fig := [] in
  let fig :=
    if (0 <? length ore_data)%nat then
      fig ++ [(Scatter3d (map X_mean ore_data) (map Y_mean ore_data) (map Z_mean ore_data)
                 (mkMarker (SizeEach (map (fun r => fmul (Epaisseur r) (Fin 3)) ore_data))
                    (ColorEach (map Moyenne_U ore_data))
                    (Some "Hot"%string) (Some "Teneur U (ppm)"%string) (Some (9 # 10)))
                 ("Minerai (≥" ++ str_number cutoff_grade ++ " ppm)")%string
                 (Some (map (fun u => "Teneur: " ++ format_f 1 u ++ " ppm")%string
                          (map Moyenne_U ore_data))),
               Plain)]
    else fig in
  let fig :=
    if (0 <? length waste_data)%nat then
      fig ++ [(Scatter3d (map X_mean waste_data) (map Y_mean waste_data)
                 (map Z_mean waste_data)
                 (mkMarker (SizeAll 3) (ColorNamed "lightgray"%string) None None (Some (3 # 10)))
                 ("Stérile (<" ++ str_number cutoff_grade ++ " ppm)")%string
                 None,
               Plain)]
    else fig in
  mkFigure fig ("Corps Minéralisés (Seuil: " ++ str_number cutoff_grade ++ " ppm U)")%string.

(** [l[::2]] *)
Fixpoint every_other {A} (l : list A) : list A :=
  match l with
  | [] => []
  | a :: l' =>
      a :: match l' with
           | [] => []
           | _ :: l'' => every_other l''
           end
  end.

(** [values[values < threshold] = np.nan] *)
Definition mask_below (threshold : Q) (values : matrix) : matrix :=
  map (map (fun v => if flt v (Fin threshold) then NaN else v)) values.

(** [np.all(np.isnan(values))] *)
Definition all_isnan (values : matrix) : bool :=
  forallb (forallb isna) values.

(** [create_interpolated_surfaces(interpolated_grids, threshold=20)] *)
Definition create_interpolated_surfaces (interpolated_grids : list Slice)
    (threshold : option Q) : Figure :=
  let threshold := keyword threshold 20 in
  let fig :=
    flat_map
      (fun ig : nat * Slice =>
         let (i, grid) := ig in
         let values := mask_below threshold (values grid) in
         if negb (all_isnan values) then
           [(Surface (grid_x grid) (grid_y grid) (grid_z grid) values
               "Viridis"%string (6 # 10)
               ("Niveau " ++ format_f 0 (z_level grid) ++ "m")%string
               (i =? 0)%nat,
             Plain)]
         else [])
      (enumerate (every_other interpolated_grids)) in
  mkFigure fig "Surfaces Interpolées des Teneurs"%string.

(** [Series.unique()]: the values in the order of their first occurrence. *)
Definition unique (s : list string) : list string :=
  fold_left (fun seen v => if existsb (String.eqb v) seen then seen else seen ++ [v])
    s [].

Definition list_index_out_of_range : exn :=
  Raise "IndexError"%string "list index out of range"%string.

(** [df[df['Lithologie'] == litho]] *)
Definition litho_data (df : DataFrame) (litho : string) : list Row :=
  filter (fun r => String.eqb (Lithologie r) litho) df.

(** The 3-D trace of one lithology, with [colors[i]]. *)
Definition lithology_scatter (df : DataFrame) (colors : list string)
    (il : nat * string) : result (Trace * placement) :=
  let (i, litho) := il in
  match nth_error colors i with
  | None => Err list_index_out_of_range
  | Some c =>
      Ok (Scatter3d (map X_mean (litho_data df litho)) (map Y_mean (litho_data df litho))
            (map Z_mean (litho_data df litho))
            (mkMarker (SizeAll 4) (ColorNamed c) None None None)
            litho None,
          Cell 1 1)
  end.

(** The two box traces of one lithology. *)
Definition lithology_boxes (df : DataFrame) (litho : string)
  : list (Trace * placement) :=
  [(Box (map Moyenne_U (litho_data df litho)) litho false, Cell 2 1);
   (Box (map Epaisseur (litho_data df litho)) litho false, Cell 2 2)].

(** [create_lithology_distribution(df)] *)
Definition create_lithology_distribution (df : DataFrame) : result Figure :=
  let lithologies := unique (map Lithologie df) in
  let colors := firstn (length lithologies) Set3 in
  match for_each (lithology_scatter df colors) (enumerate lithologies) with
  | Err e => Err e
  | Ok scatters =>
      let litho_counts := value_counts (map (fun r => CStr (Lithologie r)) df) in
      let pie := (Pie (map fst litho_counts) (map snd litho_counts) "Distribution"%string,
                  Cell 1 2) in
      let boxes := flat_map (lithology_boxes df) lithologies in
      Ok (mkFigure (scatters ++ [pie] ++ boxes) "Analyse des Lithologies"%string)
  end.

(** One point of the grade-tonnage curve: the tonnage and the average grade
    at a cutoff. *)
Definition curve_point (df : DataFrame) (grade : num) : num * num :=
  let ore_data := filter (fun r => fge (Moyenne_U r) grade) df in
  if (0 <? length ore_data)%nat then
    (series_sum (map (fun r => fmul (Volume_approx r) (Fin (27 # 10))) ore_data),
     series_mean (map Moyenne_U ore_data))
  else (Fin 0, Fin 0).

Definition curve_grades (df : DataFrame) : list num :=
  linspace (series_min (map Moyenne_U df)) (series_max (map Moyenne_U df)) 100.

(** [create_grade_tonnage_curve(df)] *)
Definition create_grade_tonnage_curve (df : DataFrame) : Figure :=
  let grades := curve_grades df in
  let points := map (curve_point df) grades in
  let tonnages := map fst points in
  let avg_grades := map snd points in
  mkFigure
    [(Scatter grades tonnages "Tonnage"%string "blue"%string, Axis false);
     (Scatter grades avg_grades "Teneur moyenne"%string "red"%string, Axis true)]
    "Courbe Teneur-Tonnage"%string.

End Visualizer.

(** *** Vocabulary of the figures *)

Definition placement_eqb (a b : placement) : bool :=
  match a, b with
  | Plain, Plain => true
  | Cell r c, Cell r' c' => (r =? r')%nat && (c =? c')%nat
  | Axis s, Axis s' => Bool.eqb s s'
  | _, _ => false
  end.

(** The markers drawn in the traces of one subplot. *)
Definition points_in (where_ : placement) (fig : Figure) : nat :=
  list_sum (map (fun tp => trace_points (fst tp))
              (filter (fun tp => placement_eqb (snd tp) where_) (data fig))).

(** The rows whose grade is below the cutoff. *)
Definition waste_rows (df : DataFrame) (cutoff_grade : Q) : list Row :=
  filter (fun r => flt (Moyenne_U r) (Fin cutoff_grade)) df.

(** The waste trace of the given rows: their midpoints, as gray markers of
    one size, without hover text. *)
Definition is_waste_trace (waste : list Row) (t : Trace) : Prop :=
  match t with
  | Scatter3d x y z m _ None =>
      x = map X_mean waste /\ y = map Y_mean waste /\ z = map Z_mean waste /\
      marker_color m = ColorNamed "lightgray" /\ marker_size m = SizeAll 3
  | _ => False
  end.

(** The ore trace of the given rows: their midpoints, their grades as
    colours, three times their thickness as sizes, one hover text each. *)
Definition is_ore_trace (ore : list Row) (t : Trace) : Prop :=
  match t with
  | Scatter3d x y z m _ (Some text) =>
      x = map X_mean ore /\ y = map Y_mean ore /\ z = map Z_mean ore /\
      marker_color m = ColorEach (map Moyenne_U ore) /\
      marker_size m = SizeEach (map (fun r => fmul (Epaisseur r) (Fin 3)) ore) /\
      length text = length ore
  | _ => False
  end.

(** Some value of the matrix is at least the threshold. *)
Definition reaches (threshold : Q) (m : matrix) : bool :=
  existsb (existsb (fun v => fge v (Fin threshold))) m.

Definition has_colorbar (tp : Trace * placement) : bool :=
  match fst tp with
  | Surface _ _ _ _ _ _ _ showscale => showscale
  | _ => false
  end.

(** A value a surface shows: missing, or at least the threshold. *)
Definition shown (threshold : Q) (v : num) : Prop :=
  match v with NaN => True | Fin q => threshold <= q end.

(** The 3-D trace of a lithology: the midpoints of its rows, as markers of
    size 4 in the given colour, in the first subplot. *)
Definition lithology_trace (df : DataFrame) (litho color : string)
  : Trace * placement :=
  (Scatter3d (map X_mean (litho_data df litho)) (map Y_mean (litho_data df litho))
     (map Z_mean (litho_data df litho))
     (mkMarker (SizeAll 4) (ColorNamed color) None None None) litho None,
   Cell 1 1).

(** The box of a column over the rows of a lithology. *)
Definition lithology_box (df : DataFrame) (column : Row -> num) (litho : string)
    (col : nat) : Trace * placement :=
  (Box (map column (litho_data df litho)) litho false, Cell 2 col).

(** ** Validator ([data_validator.py])

    The validator sees the table as the file gives it, with whatever columns
    it has: a list of named columns, each numeric (dtype int64 or float64)
    or kept as read (dtype object).  A table read from a file has a column
    at least; its number of rows is the length of its first column. *)

Inductive Column : Type :=
| NumericCol (v : list num)
| ObjectCol (cells : list cell).

Definition Table : Type := list (string * Column).

Definition col_length (c : Column) : nat :=
  match c with
  | NumericCol v => length v
  | ObjectCol cells => length cells
  end.

(** [len(df)] *)
Definition n_rows (df : Table) : nat :=
  match df with
  | [] => 0%nat
  | (_, c) :: _ => col_length c
  end.

(** [col in df.columns] *)
Definition has_column (df : Table) (col : string) : bool :=
  existsb (fun nc => String.eqb (fst nc) col) df.

(** [df[col]] *)
Fixpoint lookup (df : Table) (col : string) : option Column :=
  match df with
  | [] => None
  | (name, c) :: df' => if String.eqb name col then Some c else lookup df' col
  end.

(** [df[col] = c] on a column the table has. *)
Fixpoint assign (df : Table) (col : string) (c : Column) : Table :=
  match df with
  | [] => []
  | (name, c0) :: df' =>
      if String.eqb name col then (name, c) :: df' else (name, c0) :: assign df' col c
  end.

(** The cells of [l] where the mask is true. *)
Definition select {A} (mask : list bool) (l : list A) : list A :=
  map snd (filter fst (combine mask l)).

Definition select_col (mask : list bool) (c : Column) : Column :=
  match c with
  | NumericCol v => NumericCol (select mask v)
  | ObjectCol cells => ObjectCol (select mask cells)
  end.

(** [df[mask]] *)
Definition keep (df : Table) (mask : list bool) : Table :=
  map (fun nc => (fst nc, select_col mask (snd nc))) df.

Definition required_columns : list string :=
  ["N° Anomalie"; "Début_EUTM"; "Début_NUTM"; "Fin_EUTM"; "Fin_NUTM";
   "Longueur (m)"; "de (m)"; "à (m)"; "Épaisseur (m)";
   "Moyenne U (ppm)"; "Max U (ppm)"; "Lithologie"]%string.

Definition numeric_columns : list string :=
  ["Début_EUTM"; "Début_NUTM"; "Fin_EUTM"; "Fin_NUTM";
   "Direction"; "Longueur (m)"; "de (m)"; "à (m)";
   "Épaisseur (m)"; "Moyenne U (ppm)"; "Max U (ppm)"]%string.

Definition coord_cols : list string :=
  ["Début_EUTM"; "Début_NUTM"; "Fin_EUTM"; "Fin_NUTM"]%string.

Definition depth_cols : list string := ["de (m)"; "à (m)"]%string.

Definition grade_cols : list string := ["Moyenne U (ppm)"; "Max U (ppm)"]%string.

(** [x > y] of numpy: false as soon as one side is NaN. *)
Definition fgt (x y : num) : bool := flt y x.

(** [', '.join(l)] *)
Fixpoint join (sep : string) (l : list string) : string :=
  match l with
  | [] => EmptyString
  | [s] => s
  | s :: l' => s ++ sep ++ join sep l'
  end.

Section Validator.

Context {pandas : Pandas} {python : Python}.

(** [_is_numeric(value)] *)
Definition _is_numeric (value : cell) : bool :=
  match value with
  | CNaN => true
  | CNum _ => true
  | CStr s => float_accepts s
  end.

(** [df[col].apply(lambda x: not self._is_numeric(x)).sum()] *)
Definition non_numeric (c : Column) : nat :=
  match c with
  | NumericCol _ => 0%nat
  | ObjectCol cells => length (filter (fun x => negb (_is_numeric x)) cells)
  end.

Definition no_data : string := "Le fichier ne contient aucune donnée".

(** [validate_file_structure(df)]: the errors and the warnings. *)
Definition validate_file_structure (df : Table) : list string * list string :=
  let errors := [] in
  let missing_cols := filter (fun col => negb (has_column df col)) required_columns in
  let errors :=
    match missing_cols with
    | [] => errors
    | _ => errors ++ ["Colonnes manquantes: " ++ join ", " missing_cols]%string
    end in
  let errors := if (n_rows df =? 0)%nat then errors ++ [no_data] else errors in
  let warnings :=
    flat_map
      (fun col =>
         match lookup df col with
         | None => []
         | Some c =>
             if (0 <? non_numeric c)%nat then
               ["Colonne '" ++ col ++ "': "
                ++ str_number (inject_Z (Z.of_nat (non_numeric c)))
                ++ " valeurs non numériques détectées"]%string
             else []
         end)
      numeric_columns in
  (errors, warnings).

(** [pd.to_numeric(column, errors='coerce')] *)
Definition to_numeric_col (c : Column) : Column :=
  match c with
  | NumericCol v => NumericCol v
  | ObjectCol cells => NumericCol (map to_numeric cells)
  end.

(** The numbers of a column in a comparison.  The columns compared were
    converted before, so the second case is not reached. *)
Definition numbers (c : Column) : list num :=
  match c with
  | NumericCol v => v
  | ObjectCol cells => map to_numeric cells
  end.

Definition column_numbers (df : Table) (col : string) : list num :=
  match lookup df col with
  | Some c => numbers c
  | None => []
  end.

(** [if col in df.columns: df[col] = pd.to_numeric(df[col], errors='coerce')] *)
Definition convert (df : Table) (col : string) : Table :=
  match lookup df col with
  | Some c => assign df col (to_numeric_col c)
  | None => df
  end.

(** [if col in df.columns: df = df[p(df[col])]] *)
Definition keep_where (p : num -> bool) (df : Table) (col : string) : Table :=
  if has_column df col then keep df (map p (column_numbers df col)) else df.

(** [if all(col in df.columns for col in [a, b]): df = df[p(df[a], df[b])]] *)
Definition keep_where2 (p : num -> num -> bool) (a b : string) (df : Table) : Table :=
  if forallb (has_column df) [a; b] then
    keep df (map (fun xy => p (fst xy) (snd xy))
               (combine (column_numbers df a) (column_numbers df b)))
  else df.

(** [fillna('Inconnu')], then [astype(str).str.strip()] *)
Definition clean_label (c : Column) : Column :=
  match c with
  | NumericCol v =>
      ObjectCol (map (fun x => match x with
                               | NaN => CStr (strip Inconnu)
                               | Fin q => CStr (strip (str_number q))
                               end) v)
  | ObjectCol cells =>
      ObjectCol (map (fun x => match x with
                               | CNaN => CStr (strip Inconnu)
                               | CNum q => CStr (strip (str_number q))
                               | CStr s => CStr (strip s)
                               end) cells)
  end.

(** [if 'Lithologie' in df.columns: df['Lithologie'] = ...] *)
Definition clean_labels (df : Table) : Table :=
  match lookup df "Lithologie" with
  | Some c => assign df "Lithologie" (clean_label c)
  | None => df
  end.

(** [clean_data(df)]; the table given is copied, not changed. *)
Definition clean_data (df : Table) : Table :=
  let df_clean := df in
  let df_clean := fold_left convert numeric_columns df_clean in
  let df_clean :=
    fold_left (keep_where (fun x => fgt x (Fin 100000) && flt x (Fin 10000000)))
      coord_cols df_clean in
  let df_clean := fold_left (keep_where (fun x => fge x (Fin 0))) depth_cols df_clean in
  let df_clean := keep_where2 (fun de a => fgt a de) "de (m)" "à (m)" df_clean in
  let df_clean := fold_left (keep_where (fun x => fge x (Fin 0))) grade_cols df_clean in
  let df_clean :=
    keep_where2 (fun moyenne max => fge max moyenne) "Moyenne U (ppm)" "Max U (ppm)"
      df_clean in
  clean_labels df_clean.

(** [get_data_summary(df)] *)
Record Summary : Type := mkSummary {
  total_rows : nat;
  total_columns : nat;
  missing_values : nat;
  summary_numeric_columns : nat;
  coordinate_range : list (string * (num * num));
  grade_range : list (string * (num * num * num));
  lithology_types : list (cell * nat)
}.

(** [column.isnull().sum()] *)
Definition isnull_count (c : Column) : nat :=
  match c with
  | NumericCol v => length (filter isna v)
  | ObjectCol cells =>
      length (filter (fun x => match x with CNaN => true | _ => false end) cells)
  end.

(** [column.dtype in ['int64', 'float64']] *)
Definition is_numeric_dtype (c : Column) : bool :=
  match c with NumericCol _ => true | ObjectCol _ => false end.

Definition cells_of (c : Column) : list cell :=
  match c with
  | NumericCol v => map (fun x => match x with NaN => CNaN | Fin q => CNum q end) v
  | ObjectCol cells => cells
  end.

Definition get_data_summary {series : PandasSeries} (df : Table) : Summary :=
  mkSummary
    (n_rows df)
    (length df)
    (list_sum (map (fun nc => isnull_count (snd nc)) df))
    (length (filter (fun nc => is_numeric_dtype (snd nc)) df))
    (flat_map
       (fun col =>
          match lookup df col with
          | Some (NumericCol v) => [(col, (series_min v, series_max v))]
          | _ => []
          end)
       coord_cols)
    (flat_map
       (fun col =>
          match lookup df col with
          | Some (NumericCol v) => [(col, (series_min v, series_max v, series_mean v))]
          | _ => []
          end)
       grade_cols)
    (match lookup df "Lithologie" with
     | Some c => value_counts (cells_of c)
     | None => []
     end).

End Validator.

(** *** Vocabulary of the validator's properties *)

(** A property of tables that no filter breaks. *)
Definition stable (J : Table -> Prop) : Prop :=
  forall df mask, J df -> J (keep df mask).

(** Every column has as many cells as the table has rows. *)
Definition well_formed (df : Table) : Prop :=
  Forall (fun nc => col_length (snd nc) = n_rows df) df.

(** The column, if the table has it, is numeric and all its values satisfy
    [P]. *)
Definition col_all (df : Table) (col : string) (P : num -> Prop) : Prop :=
  match lookup df col with
  | Some (NumericCol v) => Forall P v
  | Some (ObjectCol _) => False
  | None => True
  end.

(** The two columns, if the table has both, are numeric and related by [R]
    row by row. *)
Definition cols_rel (df : Table) (a b : string) (R : num -> num -> Prop) : Prop :=
  match lookup df a, lookup df b with
  | Some (NumericCol va), Some (NumericCol vb) => Forall2 R va vb
  | Some (ObjectCol _), Some _ => False
  | Some _, Some (ObjectCol _) => False
  | _, _ => True
  end.

Definition strictly_between (lo hi : Q) (x : num) : Prop :=
  match x with Fin q => lo < q /\ q < hi | NaN => False end.

Definition strictly_below (x y : num) : Prop :=
  match x, y with Fin a, Fin b => a < b | _, _ => False end.

(** The column of labels, if the table has it, holds stripped strings. *)
Definition labels_stripped {python : Python} (df : Table) : Prop :=
  match lookup df "Lithologie" with
  | Some (ObjectCol cells) => Forall (fun c => exists s, c = CStr (strip s)) cells
  | Some (NumericCol _) => False
  | None => True
  end.

(** What [clean_data] leaves. *)
Record cleaned {python : Python} (df : Table) : Prop := {
  cleaned_numeric : forall col, In col numeric_columns -> col_all df col (fun _ => True);
  cleaned_coords :
    forall col, In col coord_cols -> col_all df col (strictly_between 100000 10000000);
  cleaned_depths : forall col, In col depth_cols -> col_all df col nonneg;
  cleaned_interval : cols_rel df "de (m)" "à (m)" strictly_below;
  cleaned_grades : forall col, In col grade_cols -> col_all df col nonneg;
  cleaned_maximum : cols_rel df "Moyenne U (ppm)" "Max U (ppm)" fle;
  cleaned_labels : labels_stripped df
}.

(** What every step of [clean_data] keeps: the column names, in their
    order, and the well-formedness; no step adds a row. *)
Definition step_ok (df df' : Table) : Prop :=
  map fst df' = map fst df /\ (n_rows df' <= n_rows df)%nat /\
  (well_formed df -> well_formed df').

(** Python's [strip] gives back what it returns. *)
Definition strip_idempotent (python : Python) : Prop :=
  forall s, strip (strip s) = strip s.

(** *** An executable stand-in for Python's part *)

Module PythonReference.

Definition is_space (c : Ascii.ascii) : bool :=
  let n := Ascii.nat_of_ascii c in
  ((n =? 32) || ((9 <=? n) && (n <=? 13)))%nat.

Fixpoint lstrip (s : string) : string :=
  match s with
  | EmptyString => EmptyString
  | String c s' => if is_space c then lstrip s' else s
  end.

Fixpoint rstrip (s : string) : string :=
  match s with
  | EmptyString => EmptyString
  | String c s' =>
      match rstrip s' with
      | EmptyString => if is_space c then EmptyString else String c EmptyString
      | r => String c r
      end
  end.

Definition strip_ascii (s : string) : string := rstrip (lstrip s).

Definition digit_char (d : Z) : Ascii.ascii :=
  Ascii.ascii_of_nat (48 + Z.to_nat d).

(** The decimal digits of a natural number, most significant first. *)
Fixpoint decimal (fuel : nat) (n : Z) (acc : string) : string :=
  match fuel with
  | O => acc
  | S fuel' =>
      let acc' := String (digit_char (n mod 10)) acc in
      if (n <? 10)%Z then acc' else decimal fuel' (n / 10) acc'
  end.

Definition print_Z (z : Z) : string :=
  let digits := decimal (S (Z.to_nat (Z.log2 (Z.abs z)))) (Z.abs z) EmptyString in
  if (z <? 0)%Z then String (Ascii.ascii_of_nat 45) digits else digits.

(** Integers print as they are, other fractions as a quotient. *)
Definition print_number (q : Q) : string :=
  let r := Qred q in
  if (Zpos (Qden r) =? 1)%Z then print_Z (Qnum r)
  else (print_Z (Qnum r) ++ "/" ++ print_Z (Zpos (Qden r)))%string.

(** Rounds half up to [n] decimals. *)
Definition print_fixed (n : nat) (x : num) : string :=
  match x with
  | NaN => "nan"%string
  | Fin q =>
      let scale := (10 ^ Z.of_nat n)%Z in
      let scaled := Qfloor (q * inject_Z scale + (1 # 2)) in
      let whole := print_Z (scaled / scale) in
      match n with
      | O => whole
      | _ => (whole ++ "."
              ++ decimal n (scaled mod scale + scale) EmptyString)%string
      end
  end.

Definition accepts (s : string) : bool :=
  match Reference.read_decimal (strip_ascii s) with
  | Some _ => true
  | None => false
  end.

Definition python : Python := Build_Python print_number print_fixed strip_ascii accepts.

End PythonReference.

(** *** An executable stand-in for [value_counts] *)

Module SeriesReference.

Definition cell_eqb (a b : cell) : bool :=
  match a, b with
  | CNum x, CNum y => Qeq_bool x y
  | CStr s, CStr t => String.eqb s t
  | _, _ => false
  end.

(** Counts the present values, in the order of their first occurrence. *)
Fixpoint tally (cells : list cell) (seen : list (cell * nat)) : list (cell * nat) :=
  match cells with
  | [] => seen
  | CNaN :: cells' => tally cells' seen
  | c :: cells' =>
      tally cells'
        (if existsb (fun vn => cell_eqb (fst vn) c) seen
         then map (fun vn => if cell_eqb (fst vn) c then (fst vn, S (snd vn)) else vn) seen
         else seen ++ [(c, 1%nat)])
  end.

(** Puts an entry before the first entry that occurs less often. *)
Fixpoint insert_by_count (vn : cell * nat) (sorted : list (cell * nat))
  : list (cell * nat) :=
  match sorted with
  | [] => [vn]
  | wm :: sorted' =>
      if (snd wm <? snd vn)%nat then vn :: sorted
      else wm :: insert_by_count vn sorted'
  end.

Definition count_values (cells : list cell) : list (cell * nat) :=
  fold_left (fun sorted vn => insert_by_count vn sorted) (tally cells []) [].

Definition series : PandasSeries := Build_PandasSeries count_values.

End SeriesReference.

(** Three rows as a file gives them: an easting out of range in the second,
    a depth interval upside down in the third. *)
Definition file_example : Table :=
  [("Début_EUTM", ObjectCol [CStr "500000"; CNum 5; CNum 500200]);
   ("de (m)", NumericCol [Fin 0; Fin 10; Fin 60]);
   ("à (m)", NumericCol [Fin 50; Fin 60; Fin 55]);
   ("Lithologie", ObjectCol [CStr " Granite "; CNaN; CStr "Schiste"])]%string.

(** * Properties *)

(** ** The processor on small tables *)

Example preprocess_example :
  exists df,
    fst (load_and_preprocess_data (pandas := Reference.pandas)
           (sklearn := Reference.sklearn) None (Some raw_example) __init__) = Ok df /\
    map Debut_EUTM df = [Fin 500000; Fin 500020; Fin 500040] /\
    map Longueur df = [Fin 100; Fin (400 / 2); Fin 300] /\
    map Lithologie df = ["Schiste"; "Granite"; "Inconnu"]%string /\
    map Lithologie_encoded df = [2; 0; 1]%nat /\
    map Volume_approx df = [Fin (100 * 2 * 1); Fin (400 / 2 * 2 * 1); Fin (300 * 2 * 1)] /\
    map Gradient_U df = [Fin (55 - 40); Fin (55 - 40); Fin (55 - 40)].
Proof. eexists. split; [reflexivity|]. repeat split. Qed.

Example preprocess_nothing_left :
  fst (load_and_preprocess_data (pandas := Reference.pandas)
         (sklearn := Reference.sklearn) None
         (Some (mkRawFrame true [raw_row CNaN (CNum 1) None])) __init__)
  = Err (ValueError no_valid_data).
Proof. reflexivity. Qed.

(** ** Preprocessor *)

Section Preprocessor.

Context {pandas : Pandas} {sklearn : Sklearn}.

(** What the method returns on a given table does not depend on the state
    of the processor: the encoder is fitted again at each call. *)
Lemma load_and_preprocess_data_result (data_path : option string) (raw : RawFrame)
    (self self' : MiningDataProcessor) :
  fst (load_and_preprocess_data data_path (Some raw) self)
  = fst (load_and_preprocess_data data_path (Some raw) self').
Proof.
  unfold load_and_preprocess_data, preprocess.
  destruct (length _ =? 0)%nat; [reflexivity|].
  destruct (has_Lithologie raw); [|reflexivity].
  destruct (LabelEncoder_fit_transform _); reflexivity.
Qed.

(** A second call leaves the processor as the first one left it. *)
Lemma load_and_preprocess_data_state (data_path : option string) (raw : RawFrame)
    (self : MiningDataProcessor) :
  snd (load_and_preprocess_data data_path (Some raw)
         (snd (load_and_preprocess_data data_path (Some raw) self)))
  = snd (load_and_preprocess_data data_path (Some raw) self).
Proof.
  unfold load_and_preprocess_data, preprocess.
  destruct (length _ =? 0)%nat; [reflexivity|].
  destruct (has_Lithologie raw); [|reflexivity].
  destruct (LabelEncoder_fit_transform _); reflexivity.
Qed.

(** C9.  Two calls of [load_and_preprocess_data] on the same raw table, the
    second on the processor as the first left it, return the same thing:
    the same error, or the same table, with the same lithology codes and the
    same filled lengths and thicknesses.  A call on any other processor
    returns it too. *)
Theorem load_and_preprocess_data_twice (data_path : option string) (raw : RawFrame)
    (self : MiningDataProcessor) :
  let (first, self1) := load_and_preprocess_data data_path (Some raw) self in
  let (second, _) := load_and_preprocess_data data_path (Some raw) self1 in
  first = second /\
  (forall other, fst (load_and_preprocess_data data_path (Some raw) other) = first) /\
  forall df1 df2, first = Ok df1 -> second = Ok df2 ->
    df1 = df2 /\
    map Lithologie_encoded df1 = map Lithologie_encoded df2 /\
    map Longueur df1 = map Longueur df2 /\
    map Epaisseur df1 = map Epaisseur df2.
Proof.
  pose proof (load_and_preprocess_data_result data_path raw) as R.
  destruct (load_and_preprocess_data data_path (Some raw) self)
    as [first self1] eqn:E1.
  destruct (load_and_preprocess_data data_path (Some raw) self1)
    as [second self2] eqn:E2.
  assert (Hs : second = first).
  { pose proof (R self1 self) as H. now rewrite E1, E2 in H. }
  subst second. split; [reflexivity|]. split.
  - intros other. pose proof (R other self) as H. now rewrite E1 in H.
  - intros df1 df2 -> E. injection E as <-. auto.
Qed.

End Preprocessor.

(** ** Sample data *)

Section SampleData.

Context {numpy : Numpy}.
Hypothesis uniform_range : uniform_in_range numpy.

Lemma at_in_range (low high : Q) (n : nat) (g : RandomState) (i : nat) :
  low < high -> (i < n)%nat ->
  low <= at_ (fst (uniform low high n g)) 0 i /\
  at_ (fst (uniform low high n g)) 0 i < high.
Proof.
  intros Hlt Hi. destruct (uniform_range n g Hlt) as [Hlen Hall].
  rewrite Forall_forall in Hall. apply Hall. unfold at_.
  apply nth_In. now rewrite Hlen.
Qed.

Lemma create_sample_data_rows (n : nat) :
  length (raw_rows (create_sample_data n)) = n /\
  Forall row_drawn (raw_rows (create_sample_data n)).
Proof.
  unfold create_sample_data, draw_bind, draw_ret.
  pose proof (fun lo hi g => @at_in_range lo hi n g) as R.
  destruct (uniform 500000 502000 n (seed 42)) as [x_coords g1] eqn:E1.
  destruct (uniform 4500000 4502000 n g1) as [y_coords g2] eqn:E2.
  destruct (uniform 0 100 n g2) as [depths_start g3] eqn:E3.
  destruct (uniform 5 50 n g3) as [depths_delta g4] eqn:E4.
  destruct (choice sample_lithologies n g4) as [lithologies g5].
  destruct (uniform 0 360 n g5) as [directions g6].
  destruct (uniform 10 200 n g6) as [lengths g7].
  destruct (uniform (1 # 2) 15 n g7) as [thicknesses g8].
  destruct (normal 0 10 n g8) as [uranium_noise g9].
  destruct (uniform 0 50 n g9) as [uranium_delta g10] eqn:E10.
  destruct (randint 1 20 n g10) as [tranches g11].
  destruct (uniform (-50) 50 n g11) as [fin_e_delta g12] eqn:E12.
  destruct (uniform (-50) 50 n g12) as [fin_n_delta g13] eqn:E13.
  simpl raw_rows. rewrite length_map, length_seq. split; [reflexivity|].
  apply Forall_forall. intros r Hr.
  apply in_map_iff in Hr as (i & <- & Hi). apply in_seq in Hi.
  assert (Hn : (i < n)%nat) by lia.
  pose proof (R 500000 502000 (seed 42) i eq_refl Hn) as Hx. rewrite E1 in Hx.
  pose proof (R 4500000 4502000 g1 i eq_refl Hn) as Hy. rewrite E2 in Hy.
  pose proof (R 5 50 g3 i eq_refl Hn) as Hd. rewrite E4 in Hd.
  pose proof (R 0 50 g9 i eq_refl Hn) as Hu. rewrite E10 in Hu.
  pose proof (R (-50) 50 g11 i eq_refl Hn) as He. rewrite E12 in He.
  pose proof (R (-50) 50 g12 i eq_refl Hn) as Hn'. rewrite E13 in Hn'.
  simpl in Hx, Hy, Hd, Hu, He, Hn'.
  constructor; simpl.
  - split; [tauto | apply Qlt_le_weak; tauto].
  - split; [tauto | apply Qlt_le_weak; tauto].
  - split; lra.
  - split; lra.
  - apply Q.le_max_l.
  - destruct Hd as [Hd _]. lra.
  - destruct Hu as [Hu _]. lra.
Qed.

(** C8, as the code has it.  [create_sample_data(200)] seeds the generator
    with 42 and returns 200 rows; in each of them the start easting lies in
    [500000, 502000] and the start northing in [4500000, 4502000], the end
    easting and the end northing, which are the start moved by a draw of
    [-50, 50), lie in [499950, 502050] and in [4499950, 4502050], and the
    mean uranium grade is at least 0.  This holds with any generator whose
    [uniform] keeps to its range. *)
Theorem create_sample_data_200_ranges :
  let df := create_sample_data 200 in
  length (raw_rows df) = 200%nat /\
  Forall (fun r =>
            cell_between 500000 502000 (raw_Debut_EUTM r) /\
            cell_between 4500000 4502000 (raw_Debut_NUTM r) /\
            cell_between 499950 502050 (raw_Fin_EUTM r) /\
            cell_between 4499950 4502050 (raw_Fin_NUTM r) /\
            cell_nonneg (raw_Moyenne_U r))
         (raw_rows df).
Proof.
  destruct (create_sample_data_rows 200) as [Hlen Hall].
  split; [exact Hlen|].
  eapply Forall_impl; [|exact Hall].
  intros r [? ? ? ? ? _ _]. auto.
Qed.

(** C10.  Whatever the number of samples, and with any generator whose
    [uniform] keeps to its range, every generated row has its depth end
    strictly greater than its depth start, [de (m) < à (m)], and its maximal
    grade greater than or equal to its mean grade. *)
Theorem create_sample_data_record_invariants (n : nat) :
  Forall (fun r =>
            cell_lt (raw_de_m r) (raw_a_m r) /\
            cell_le (raw_Moyenne_U r) (raw_Max_U r))
         (raw_rows (create_sample_data n)).
Proof.
  destruct (create_sample_data_rows n) as [_ Hall].
  eapply Forall_impl; [|exact Hall].
  intros r [_ _ _ _ _ ? ?]. auto.
Qed.

End SampleData.

(** The stand-in generator keeps to the range. *)
Lemma reference_fraction (s : Z) :
  0 <= Reference.fraction s /\ Reference.fraction s < 1.
Proof.
  unfold Reference.fraction, Reference.modulus.
  pose proof (Z.mod_pos_bound s 2147483648 eq_refl) as [H0 H1].
  split.
  - apply Qle_shift_div_l; [reflexivity|]. rewrite Qmult_0_l.
    unfold Qle; simpl. lia.
  - apply Qlt_shift_div_r; [reflexivity|]. rewrite Qmult_1_l.
    unfold Qlt; simpl. lia.
Qed.

Lemma reference_draws {A} (f : Z -> A) (P : A -> Prop) (n : nat) (s : Z) :
  (forall s, P (f s)) ->
  length (fst (Reference.draws f n s)) = n /\ Forall P (fst (Reference.draws f n s)).
Proof.
  intros Hf. revert s. induction n as [|n IH]; intros s; simpl.
  - split; [reflexivity | constructor].
  - specialize (IH (Reference.lcg s)).
    destruct (Reference.draws f n (Reference.lcg s)) as [xs s2]. simpl in *.
    destruct IH as [-> Hall]. split; [reflexivity|]. constructor; auto.
Qed.

Lemma reference_uniform_in_range : uniform_in_range Reference.numpy.
Proof.
  intros low high n g Hlt. simpl. unfold Reference.rng_uniform.
  apply reference_draws. intros s.
  destruct (reference_fraction s) as [H0 H1]. nra.
Qed.

Lemma create_sample_data_200_ranges_witness :
  let df := create_sample_data (numpy := Reference.numpy) 200 in
  length (raw_rows df) = 200%nat /\
  Forall (fun r =>
            cell_between 500000 502000 (raw_Debut_EUTM r) /\
            cell_between 4500000 4502000 (raw_Debut_NUTM r) /\
            cell_between 499950 502050 (raw_Fin_EUTM r) /\
            cell_between 4499950 4502050 (raw_Fin_NUTM r) /\
            cell_nonneg (raw_Moyenne_U r))
         (raw_rows df).
Proof.
  apply create_sample_data_200_ranges. exact reference_uniform_in_range.
Defined.

(** Against the ranges as the claim has them, for every easting and
    northing of a row: with a generator that keeps to the ranges of numpy,
    row 113 of the 200 starts at an easting of 500017.2 and ends, 25.9 m to
    the west, at 499991.4, below 500000. *)
Lemma create_sample_data_200_end_easting :
  uniform_in_range Reference.numpy /\
  exists r,
    nth_error (raw_rows (create_sample_data (numpy := Reference.numpy) 200)) 113
    = Some r /\
    cell_between 500000 502000 (raw_Debut_EUTM r) /\
    cell_lt (raw_Fin_EUTM r) (CNum 500000) /\
    ~ cell_between 500000 502000 (raw_Fin_EUTM r).
Proof.
  split; [exact reference_uniform_in_range|].
  destruct (nth_error (raw_rows (create_sample_data (numpy := Reference.numpy) 200)) 113)
    as [r|] eqn:E; [|vm_compute in E; discriminate E].
  exists r. split; [reflexivity|].
  vm_compute in E. injection E as <-.
  split; [|split].
  - vm_compute. split; discriminate.
  - vm_compute. reflexivity.
  - vm_compute. intros [H _]. apply H. reflexivity.
Qed.

Lemma create_sample_data_record_invariants_witness :
  Forall (fun r =>
            cell_lt (raw_de_m r) (raw_a_m r) /\
            cell_le (raw_Moyenne_U r) (raw_Max_U r))
         (raw_rows (create_sample_data (numpy := Reference.numpy) 5)).
Proof.
  apply create_sample_data_record_invariants. exact reference_uniform_in_range.
Defined.

(** ** Spatial clusterer *)

Lemma dist2_self (p : list Q) : dist2 p p == 0.
Proof.
  unfold dist2. induction p as [|a p IH]; simpl; [reflexivity|].
  unfold Qsum in IH. rewrite IH. ring.
Qed.

Lemma within_self (eps : Q) (p : list Q) : 0 <= eps -> within eps p p = true.
Proof.
  intros H. unfold within. apply andb_true_intro. split.
  - now apply Qle_bool_iff.
  - apply Qle_bool_iff. rewrite dist2_self. now apply Qmult_le_0_compat.
Qed.

(** A point is noise exactly when no core point lies within [eps] of it. *)
Lemma noise_decide (eps : Q) (m : nat) (pts : list (list Q)) (i : nat) :
  0 <= eps -> (i < length pts)%nat ->
  (noise eps m pts i <-> noiseb eps m pts i = true).
Proof.
  intros Heps Hi. unfold noise, noiseb.
  destruct (nth_error pts i) as [q|] eqn:Eq;
    [|apply nth_error_None in Eq; lia].
  rewrite negb_true_iff. split.
  - intros Hnoise. apply not_true_iff_false. intros Hex.
    apply existsb_exists in Hex as (p & Hp & Hcw).
    apply andb_prop in Hcw as [Hcore Hwithin].
    apply In_nth_error in Hp as [k Hk].
    apply (Hnoise k).
    apply reach_step with k p q; auto. now apply reach_core with p.
  - intros Hnone j Hreach.
    apply not_true_iff_false in Hnone. apply Hnone. apply existsb_exists.
    inversion Hreach as [j' p Hp Hcore | j' k i' p q' _ Hp Hcore Hq Hwithin]; subst.
    + rewrite Hp in Eq. injection Eq as ->.
      exists q. split; [now apply nth_error_In with i|].
      now rewrite Hcore, within_self.
    + rewrite Hq in Eq. injection Eq as ->.
      exists p. split; [now apply nth_error_In with k|].
      now rewrite Hcore, Hwithin.
Qed.

Lemma finite_list_Fin (row : list num) (p : list Q) :
  finite_list row = Some p -> row = map Fin p.
Proof.
  revert p. induction row as [|x row IH]; intros p; simpl.
  - intros E. now injection E as <-.
  - destruct x as [|q]; [discriminate|].
    destruct (finite_list row) as [qs|]; [|discriminate].
    intros E. injection E as <-. simpl. f_equal. now apply IH.
Qed.

Lemma finite_matrix_Fin (X : matrix) (pts : list (list Q)) :
  finite_matrix X = Some pts -> X = map (map Fin) pts.
Proof.
  revert pts. induction X as [|row X IH]; intros pts; simpl.
  - intros E. now injection E as <-.
  - destruct (finite_list row) as [p|] eqn:Ep; [|discriminate].
    destruct (finite_matrix X) as [ps|]; [|discriminate].
    intros E. injection E as <-. simpl. f_equal; [now apply finite_list_Fin | now apply IH].
Qed.

Lemma midpoints_finite (df : DataFrame) (coords : list (list Q)) :
  finite_matrix (midpoints df) = Some coords ->
  length coords = length df /\ Forall (fun p => length p = 3%nat) coords.
Proof.
  revert coords. induction df as [|r df IH]; intros coords; simpl.
  - intros E. injection E as <-. split; [reflexivity | constructor].
  - destruct (X_mean r); [discriminate|].
    destruct (Y_mean r); [discriminate|].
    destruct (Z_mean r); [discriminate|].
    destruct (finite_matrix (midpoints df)) as [ps|]; [|discriminate].
    intros E. injection E as <-. destruct (IH ps eq_refl) as [L F].
    split; [simpl; now f_equal | constructor; [reflexivity | exact F]].
Qed.

Section Clusterer.

Context {sklearn : Sklearn}.

Hypothesis scaler_contract : scaler_rescales sklearn.
Hypothesis dbscan_contract : dbscan_marks_noise sklearn.

Lemma set_Cluster_rows (df : DataFrame) (labels : list Z) (i : nat) (r' : Row) :
  nth_error (map set_Cluster (combine df labels)) i = Some r' ->
  exists r label,
    nth_error df i = Some r /\ nth_error labels i = Some label /\
    r' = set_Cluster (r, label).
Proof.
  revert labels i. induction df as [|r df IH]; intros labels i; simpl.
  - destruct i; discriminate.
  - destruct labels as [|l labels]; [destruct i; discriminate|].
    destruct i as [|i]; simpl.
    + intros E. injection E as <-. now exists r, l.
    + apply IH.
Qed.


End Clusterer.


(** *** The stand-in DBSCAN keeps to the contract *)

Lemma filter_nil_iff {A} (f : A -> bool) (l : list A) :
  filter f l = [] <-> forall a, In a l -> f a = false.
Proof.
  induction l as [|x l IH]; simpl.
  - split; [intros _ a [] | reflexivity].
  - destruct (f x) eqn:E.
    + split; [discriminate|]. intros H. specialize (H x (or_introl eq_refl)). congruence.
    + rewrite IH. split.
      * intros H a [<-|Ha]; auto.
      * intros H a Ha. apply H. now right.
Qed.

Lemma core_neighbours_nil (eps : Q) (m : nat) (pts : list (list Q)) (i : nat) :
  (i < length pts)%nat ->
  (Reference.core_neighbours eps m pts i = [] <-> noiseb eps m pts i = true).
Proof.
  intros Hi. unfold Reference.core_neighbours, noiseb, Reference.positions.
  rewrite filter_nil_iff.
  destruct (nth_error pts i) as [q|] eqn:Eq; [|apply nth_error_None in Eq; lia].
  assert (Eq' : Reference.point pts i = q) by (now apply nth_error_nth).
  rewrite Eq', negb_true_iff. split.
  - intros H. apply not_true_iff_false. intros Hex.
    apply existsb_exists in Hex as (p & Hp & Hpq).
    destruct (In_nth _ _ [] Hp) as (j & Hj & Ej).
    specialize (H j). rewrite in_seq in H.
    unfold Reference.core_at, Reference.point in H. rewrite Ej in H.
    rewrite H in Hpq by lia. discriminate.
  - intros H j Hj. apply in_seq in Hj.
    apply not_true_iff_false. intros Hpq. apply not_true_iff_false in H. apply H.
    apply existsb_exists. exists (Reference.point pts j).
    split; [apply nth_In; lia | exact Hpq].
Qed.

Lemma reference_dbscan_marks_noise (eps : Q) (m : nat) (X : matrix)
    (pts : list (list Q)) (labels : list Z) :
  finite_matrix X = Some pts ->
  Reference.dbscan_fit_predict eps m X = Ok labels ->
  marks_noise eps m pts labels.
Proof.
  intros HX. unfold Reference.dbscan_fit_predict. rewrite HX.
  destruct (Qle_bool eps 0) eqn:E; [discriminate|].
  assert (Heps : 0 <= eps).
  { apply Qlt_le_weak, Qnot_le_lt. intros H. apply Qle_bool_iff in H. congruence. }
  intros H. injection H as <-.
  unfold marks_noise, Reference.dbscan_labels, Reference.positions.
  split; [now rewrite length_map, length_seq|].
  intros i Hi.
  rewrite (noise_decide m pts Heps Hi), <- (core_neighbours_nil eps m pts Hi).
  set (f := fun i : nat => match Reference.core_neighbours eps m pts i with
                           | [] => (-1)%Z
                           | j :: js => _
                           end).
  assert (En : nth i (map f (seq 0 (length pts))) 0%Z = f i).
  { apply nth_error_nth. rewrite nth_error_map, nth_error_seq.
    replace (i <? length pts)%nat with true by (symmetry; now apply Nat.ltb_lt).
    reflexivity. }
  rewrite En. unfold f.
  destruct (Reference.core_neighbours eps m pts i) as [|j js].
  - tauto.
  - split; [lia | discriminate].
Qed.

Lemma finite_list_map_Fin (p : list Q) : finite_list (map Fin p) = Some p.
Proof.
  induction p as [|a p IH]; simpl; [reflexivity|]. now rewrite IH.
Qed.

Lemma finite_matrix_map_Fin (X : list (list Q)) :
  finite_matrix (map (map Fin) X) = Some X.
Proof.
  induction X as [|p X IH]; simpl; [reflexivity|].
  now rewrite finite_list_map_Fin, IH.
Qed.

Lemma reference_dbscan_contract : dbscan_marks_noise Reference.sklearn.
Proof.
  intros eps m X labels H.
  exact (@reference_dbscan_marks_noise eps m _ _ _ (finite_matrix_map_Fin X) H).
Qed.

(** *** The stand-in scaler keeps to the contract *)

Lemma Qsqrt_nonneg (q : Q) : 0 <= Reference.Qsqrt q.
Proof.
  unfold Reference.Qsqrt, Qle. simpl. rewrite Z.mul_1_r. apply Z.sqrt_nonneg.
Qed.

Lemma Qsqrt_zero (q : Q) : q == 0 -> Reference.Qsqrt q == 0.
Proof.
  intros H. unfold Reference.Qsqrt.
  rewrite (Qred_complete q 0 H). reflexivity.
Qed.

Lemma Qred_coprime (a : Z) (b : positive) :
  Z.gcd a (Z.pos b) = 1%Z -> Qred (a # b) = (a # b).
Proof.
  intros G. unfold Qred.
  pose proof (Z.ggcd_gcd a (Z.pos b)) as Hg.
  pose proof (Z.ggcd_correct_divisors a (Z.pos b)) as Hd.
  destruct (Z.ggcd a (Z.pos b)) as [g [aa bb]]. simpl in *.
  rewrite G in Hg. subst g. destruct Hd as [Ea Eb].
  rewrite Z.mul_1_l in Ea, Eb. subst aa bb. reflexivity.
Qed.

Lemma Qsqrt_square (q t : Q) : 0 < t -> t * t == q -> Reference.Qsqrt q == t.
Proof.
  intros Ht H. unfold Reference.Qsqrt.
  assert (Et : Qred t == t) by apply Qred_correct.
  pose proof (gcd_Qred t) as G.
  destruct (Qred t) as [a b]. simpl in G.
  assert (Ha : (0 < a)%Z).
  { rewrite <- Et in Ht. unfold Qlt in Ht. simpl in Ht. lia. }
  assert (Eq : Qred q = (a * a # b * b)).
  { rewrite <- (Qred_complete ((a # b) * (a # b)) q)
      by (rewrite Et; exact H).
    apply Qred_coprime.
    rewrite Pos2Z.inj_mul.
    apply Z.coprime_mul_l; apply Z.coprime_mul_r; exact G. }
  rewrite Eq. simpl.
  rewrite Z.sqrt_square by lia.
  assert (Eb : Pos.sqrt (b * b) = b).
  { apply Pos2Z.inj. change (Z.pos (Pos.sqrt (b * b))) with (Z.sqrt (Z.pos (b * b))).
    rewrite Pos2Z.inj_mul. apply Z.sqrt_square. lia. }
  rewrite Eb. exact Et.
Qed.

Lemma column_axis (k : nat) (X : list (list Q)) :
  Forall (fun p => length p = 3%nat) X -> (k < 3)%nat ->
  dropna_values (Reference.column k (map (map Fin) X)) = axis k X.
Proof.
  intros F Hk. induction F as [|p X Hp _ IH]; simpl; [reflexivity|].
  replace (nth k (map Fin p) NaN) with (Fin (nth k p 0)).
  - simpl. now f_equal.
  - change NaN with ((fun _ : nat => NaN) 0%nat).
    destruct p as [|a [|b [|c [|d p]]]]; try discriminate Hp.
    destruct k as [|[|[|k]]]; try reflexivity. lia.
Qed.

Lemma nth_map_in {A B} (f : A -> B) (l : list A) (i : nat) (d : B) (d' : A) :
  (i < length l)%nat -> nth i (map f l) d = f (nth i l d').
Proof.
  revert i. induction l as [|a l IH]; simpl; intros i H; [lia|].
  destruct i; [reflexivity | apply IH; lia].
Qed.

Lemma scaler_fit_transform_three (X : list (list Q)) :
  X <> [] -> Forall (fun p => length p = 3%nat) X ->
  let m := fun k => Reference.mean_of (Reference.column k (map (map Fin) X)) in
  let s := fun k => Reference.scale_of (Reference.column k (map (map Fin) X)) in
  Reference.scaler_fit_transform (map (map Fin) X)
  = Ok ((map m [0; 1; 2]%nat, map s [0; 1; 2]%nat),
        map (Reference.rescale_row (map m [0; 1; 2]%nat) (map s [0; 1; 2]%nat))
          (map (map Fin) X)).
Proof.
  intros Ne F3. destruct X as [|p X]; [congruence|].
  inversion F3 as [|p' X' Hp _]; subst.
  unfold Reference.scaler_fit_transform. cbn [map].
  rewrite length_map, Hp. reflexivity.
Qed.

Lemma reference_scaler_contract : scaler_rescales Reference.sklearn.
Proof.
  intros X fitted scaled F3. simpl StandardScaler_fit_transform.
  destruct X as [|p0 X0] eqn:EX; [discriminate|]. rewrite <- EX in *.
  assert (Ne : X <> []) by (rewrite EX; discriminate).
  rewrite (scaler_fit_transform_three Ne F3). cbv zeta.
  set (m := fun k => Reference.mean_of (Reference.column k (map (map Fin) X))).
  set (s := fun k => Reference.scale_of (Reference.column k (map (map Fin) X))).
  intros E. injection E as _ <-.
  exists (map (fun p => [(nth 0 p 0 - m 0%nat) / s 0%nat;
                         (nth 1 p 0 - m 1%nat) / s 1%nat;
                         (nth 2 p 0 - m 2%nat) / s 2%nat]) X).
  split.
  - rewrite !map_map. apply map_ext_in. intros p Hp.
    rewrite Forall_forall in F3. specialize (F3 p Hp).
    destruct p as [|a [|b [|c [|d p]]]]; try discriminate F3. reflexivity.
  - intros k Hk. unfold rescaled_axis, axis. rewrite !length_map.
    split; [reflexivity|].
    assert (Em : m k = Qmean (axis k X)).
    { unfold m, Reference.mean_of. rewrite (column_axis F3 Hk).
      destruct (axis k X) eqn:Ea; [|reflexivity].
      destruct X; [congruence | discriminate Ea]. }
    assert (Es : s k = let sd := Reference.Qsqrt (Qvar (axis k X)) in
                       if Qeq_bool sd 0 then 1 else sd).
    { unfold s, Reference.scale_of. rewrite (column_axis F3 Hk).
      destruct (axis k X) eqn:Ea; [|reflexivity].
      destruct X; [congruence | discriminate Ea]. }
    cbv zeta in Es. unfold axis in Em, Es.
    exists (s k). split; [|split; [|split]].
    + rewrite Es. destruct (Qeq_bool _ 0) eqn:E0; [reflexivity|].
      apply Qeq_bool_neq in E0.
      pose proof (Qsqrt_nonneg (Qvar (map (fun row => nth k row 0) X))) as H0.
      apply Qle_lteq in H0 as [H0|H0]; [exact H0 | now symmetry in H0].
    + intros i Hi. rewrite map_map.
      rewrite !(@nth_map_in _ _ _ X i 0 [] Hi).
      rewrite <- Em.
      destruct k as [|[|[|k]]]; [reflexivity | reflexivity | reflexivity | lia].
    + intros Hv. rewrite Es. rewrite (Qeq_eq_bool _ _ (Qsqrt_zero Hv)). reflexivity.
    + intros t Ht Hv. rewrite Es.
      pose proof (Qsqrt_square Ht Hv) as Hq.
      destruct (Qeq_bool _ 0) eqn:E0; [|exact Hq].
      apply Qeq_bool_eq in E0. rewrite Hq in E0. rewrite E0 in Ht.
      discriminate Ht.
Qed.



(** ** Grade predictor *)

Lemma reference_split_sizes (n : nat) :
  (Z.to_nat (Qceiling ((2 # 10) * inject_Z (Z.of_nat n))) < n)%nat <-> (2 <= n)%nat.
Proof.
  destruct n as [|[|n]]; [vm_compute; lia | vm_compute; lia |].
  split; [lia|]. intros _.
  assert (H : (Qceiling ((2 # 10) * inject_Z (Z.of_nat (S (S n)))) <= Z.of_nat (S n))%Z).
  { rewrite <- (Qceiling_Z (Z.of_nat (S n))). apply Qceiling_resp_le.
    rewrite !Nat2Z.inj_succ. unfold Z.succ. rewrite !inject_Z_plus.
    assert (0 <= inject_Z (Z.of_nat n)).
    { change 0 with (inject_Z 0). rewrite <- Zle_Qle. lia. }
    change (inject_Z 1) with 1. lra. }
  lia.
Qed.

Ltac same_exception H := simpl in H; injection H as ->; reflexivity.

(** Against the guard: of three rows the split leaves two to train on, the
    model is fitted on them and a report comes back. *)
Lemma train_uranium_model_three_rows :
  rows_after_split (sklearn := Reference.sklearn) three_rows = 2%nat /\
  is_ok (fst (train_uranium_model (sklearn := Reference.sklearn)
                three_rows __init__)) = true /\
  ~ insufficient_data_guard Reference.sklearn.
Proof.
  split; [reflexivity|]. split; [vm_compute; reflexivity|].
  intros guard.
  destruct (guard three_rows __init__) as [msg H].
  - vm_compute. lia.
  - vm_compute in H. discriminate H.
Qed.

(** C4, as the code has it.  [train_uranium_model] checks no row count and
    raises nothing of its own; its outcome is decided by its calls to
    scikit-learn, in the order of the source.  An exception of
    [train_test_split] leaves the processor untouched.  Once the split has
    succeeded the new estimator is in [self.uranium_model], as [fit] leaves
    it, and the exception of the first call that raises, [fit], [predict],
    [mean_squared_error], [r2_score] or [feature_importances_], is passed
    on as it is; when none raises, the forest has been fitted on the
    training rows, however few, and the report is returned.  So every
    exception of the method is one raised by scikit-learn.  With
    scikit-learn's split sizes the split raises a [ValueError] on a table
    of fewer than two rows and succeeds on any larger one. *)
Theorem train_uranium_model_no_row_guard :
  (forall (sklearn : Sklearn) (df : DataFrame) (self : MiningDataProcessor),
      let X := map feature_row df in
      let y := map Moyenne_U df in
      match train_test_split (length df) (2 # 10) 42 with
      | Err e => train_uranium_model df self = (Err e, self)
      | Ok (train, test) =>
          let fitted := fit (RandomForestRegressor 100 42) (take X train) (take y train) in
          let model := snd fitted in
          snd (train_uranium_model df self) = with_uranium_model self model /\
          match fst fitted with
          | Err e => fst (train_uranium_model df self) = Err e
          | Ok _ =>
              match predict model (take X test) with
              | Err e => fst (train_uranium_model df self) = Err e
              | Ok y_pred =>
                  match mean_squared_error (take y test) y_pred,
                        r2_score (take y test) y_pred,
                        feature_importances_ model with
                  | Ok mse, Ok r2, Ok importances =>
                      fst (train_uranium_model df self)
                      = Ok (mkReport mse r2 (combine features importances))
                  | Err e, _, _ => fst (train_uranium_model df self) = Err e
                  | Ok _, Err e, _ => fst (train_uranium_model df self) = Err e
                  | Ok _, Ok _, Err e => fst (train_uranium_model df self) = Err e
                  end
              end
          end
      end) /\
  (forall (sklearn : Sklearn) (df : DataFrame) (self : MiningDataProcessor) (e : exn),
      fst (train_uranium_model df self) = Err e -> raised_by_sklearn df e) /\
  (forall (df : DataFrame) (self : MiningDataProcessor (sklearn := Reference.sklearn)),
      if (length df <? 2)%nat
      then exists msg, train_uranium_model df self = (Err (ValueError msg), self)
      else is_ok (train_test_split (Sklearn := Reference.sklearn)
                    (length df) (2 # 10) 42) = true).
Proof.
  split; [|split].
  - intros sklearn df self. cbv zeta. unfold train_uranium_model.
    destruct (train_test_split (length df) (2 # 10) 42) as [[train test]|e];
      [|reflexivity].
    destruct (fit _ _ _) as [fitted model]. simpl snd. simpl fst.
    destruct fitted as [u|e]; [|split; reflexivity].
    destruct (predict model _) as [y_pred|e]; [|split; reflexivity].
    destruct (mean_squared_error _ y_pred) as [m|e]; [|split; reflexivity].
    destruct (r2_score _ y_pred) as [r|e]; [|split; reflexivity].
    destruct (feature_importances_ model) as [imp|e]; split; reflexivity.
  - intros sklearn df self e. unfold train_uranium_model, raised_by_sklearn.
    cbv zeta.
    destruct (train_test_split (length df) (2 # 10) 42) as [[train test]|e0].
    + intros H. right. exists train, test. split; [reflexivity|].
      destruct (fit _ _ _) as [fitted model]. simpl snd. simpl fst.
      destruct fitted as [u|e1]; [|left; same_exception H].
      right.
      destruct (predict model _) as [y_pred|e1]; [|left; same_exception H].
      right.
      destruct (mean_squared_error _ y_pred) as [m|e1] eqn:Em.
      * destruct (r2_score _ y_pred) as [r|e1] eqn:Er.
        -- destruct (feature_importances_ model) as [imp|e1];
             [discriminate H | left; same_exception H].
        -- right. exists y_pred. split; [reflexivity|]. right.
           rewrite Er. same_exception H.
      * right. exists y_pred. split; [reflexivity|]. left. rewrite Em.
        same_exception H.
    + intros H. left. same_exception H.
  - intros df self. unfold train_uranium_model. simpl train_test_split.
    unfold Reference.split.
    pose proof (reference_split_sizes (length df)) as H.
    destruct (length df <? 2)%nat eqn:E.
    + apply Nat.ltb_lt in E.
      destruct (_ - _ =? 0)%nat eqn:E0.
      * eexists. reflexivity.
      * apply Nat.eqb_neq in E0. lia.
    + apply Nat.ltb_ge in E. apply H in E.
      destruct (_ - _ =? 0)%nat eqn:E0.
      * apply Nat.eqb_eq in E0. lia.
      * reflexivity.
Qed.

(** On a table of one row the exception is the split's. *)
Lemma train_uranium_model_no_row_guard_witness :
  raised_by_sklearn (sklearn := Reference.sklearn) one_row
    (ValueError "the resulting train set will be empty").
Proof.
  apply (proj1 (proj2 train_uranium_model_no_row_guard)
           Reference.sklearn one_row __init__).
  vm_compute. reflexivity.
Defined.

(** ** Grid interpolator *)

Lemma for_each_all_ok {A B} (f : A -> result B) (l : list A) :
  (forall a, In a l -> exists b, f a = Ok b) ->
  exists bs, for_each f l = Ok bs.
Proof.
  induction l as [|a l IH]; intros H; simpl.
  - now exists [].
  - destruct (H a (or_introl eq_refl)) as [b ->].
    destruct IH as [bs ->]; [intros; apply H; now right|].
    now exists (b :: bs).
Qed.

Lemma for_each_inv {A B} (f : A -> result B) (l : list A) (bs : list B) :
  for_each f l = Ok bs -> Forall2 (fun a b => f a = Ok b) l bs.
Proof.
  revert bs. induction l as [|a l IH]; intros bs; simpl.
  - intros E. injection E as <-. constructor.
  - destruct (f a) as [b|e] eqn:Ea; [|discriminate].
    destruct (for_each f l) as [bs'|e]; [|discriminate].
    intros E. injection E as <-. constructor; auto.
Qed.

Lemma for_each_first_error {A B} (f : A -> result B) (a : A) (l : list A) (e : exn) :
  f a = Err e -> for_each f (a :: l) = Err e.
Proof. intros H. simpl. now rewrite H. Qed.

Lemma linspace_length (start stop : num) (n : nat) :
  length (linspace start stop n) = n.
Proof.
  destruct n as [|[|n]]; simpl; try reflexivity.
  rewrite length_app, length_map, length_seq. simpl. lia.
Qed.

Lemma linspace_head (start stop : num) (n : nat) :
  (2 <= n)%nat -> hd_error (linspace start stop n) <> None.
Proof.
  intros H. pose proof (linspace_length start stop n) as L.
  destruct (linspace start stop n); simpl in *; [lia | discriminate].
Qed.

Section Interpolator.

Context {scipy : Scipy}.

Lemma interpolate_3d_grid_loop (df : DataFrame) (grid_resolution : nat) :
  interpolate_3d_grid df grid_resolution
  = for_each (slice_at df grid_resolution) (z_grid df grid_resolution).
Proof. reflexivity. Qed.

Lemma z_grid_length (df : DataFrame) (grid_resolution : nat) :
  length (z_grid df grid_resolution) = (grid_resolution / 2)%nat.
Proof. apply linspace_length. Qed.

Lemma slice_at_error (df : DataFrame) (grid_resolution : nat) (z : num) (e : exn) :
  griddata (midpoints df) (map Moyenne_U df)
    (lattice df grid_resolution z) "linear" (Fin 0) = Err e ->
  slice_at df grid_resolution z = Err e.
Proof.
  unfold slice_at. destruct (meshgrid _ _). now intros ->.
Qed.

Lemma slice_at_inv (df : DataFrame) (grid_resolution : nat) (z : num) (s : Slice) :
  slice_at df grid_resolution z = Ok s ->
  exists interpolated,
    griddata (midpoints df) (map Moyenne_U df)
      (lattice df grid_resolution z) "linear" (Fin 0) = Ok interpolated /\
    s = let (xi, yi) := meshgrid (x_grid df grid_resolution) (y_grid df grid_resolution) in
        mkSlice xi yi (full_like xi z) (reshape_like xi interpolated) z.
Proof.
  unfold slice_at. destruct (meshgrid _ _) as [xi yi].
  destruct (griddata _ _ _ _ _) as [out|e]; [|discriminate].
  intros E. injection E as <-. now exists out.
Qed.

(** When the interpolation of the library fails whatever the lattice, the
    call fails with it as soon as there is a level to compute. *)
Lemma interpolate_3d_grid_error (df : DataFrame) (grid_resolution : nat) (e : exn) :
  (forall xi, griddata (midpoints df) (map Moyenne_U df) xi "linear" (Fin 0) = Err e) ->
  (2 <= grid_resolution)%nat ->
  interpolate_3d_grid df grid_resolution = Err e.
Proof.
  intros Hfail Hres. rewrite interpolate_3d_grid_loop.
  pose proof (z_grid_length df grid_resolution) as L.
  assert (1 <= grid_resolution / 2)%nat by (apply Nat.div_le_lower_bound; lia).
  destruct (z_grid df grid_resolution) as [|z zs]; [cbn [length] in L; lia|].
  apply for_each_first_error, slice_at_error, Hfail.
Qed.

Lemma interpolate_3d_grid_no_level (df : DataFrame) (grid_resolution : nat) :
  (grid_resolution < 2)%nat -> interpolate_3d_grid df grid_resolution = Ok [].
Proof.
  intros H. unfold interpolate_3d_grid.
  replace (grid_resolution / 2)%nat with 0%nat; [reflexivity|].
  symmetry. now apply Nat.div_small.
Qed.

End Interpolator.

(** *** Samples in one plane *)

Lemma finite_midpoints (df : DataFrame) (pts : list (list Q)) :
  finite_matrix (midpoints df) = Some pts ->
  Forall (fun p => length p = 3%nat) pts.
Proof.
  revert pts. induction df as [|r df IH]; intros pts; simpl.
  - intros E. injection E as <-. constructor.
  - destruct (X_mean r); [discriminate|].
    destruct (Y_mean r); [discriminate|].
    destruct (Z_mean r); [discriminate|].
    destruct (finite_matrix (midpoints df)) as [ps|]; [|discriminate].
    intros E. injection E as <-. constructor; [reflexivity | now apply IH].
Qed.

Lemma det3_dependent (a b c : Q) (u v w : list Q) :
  ~ (a == 0 /\ b == 0 /\ c == 0) ->
  a * nth 0 u 0 + b * nth 1 u 0 + c * nth 2 u 0 == 0 ->
  a * nth 0 v 0 + b * nth 1 v 0 + c * nth 2 v 0 == 0 ->
  a * nth 0 w 0 + b * nth 1 w 0 + c * nth 2 w 0 == 0 ->
  Reference.det3 u v w == 0.
Proof.
  intros Hn Hu Hv Hw. unfold Reference.det3.
  set (u0 := nth 0 u 0) in *. set (u1 := nth 1 u 0) in *. set (u2 := nth 2 u 0) in *.
  set (v0 := nth 0 v 0) in *. set (v1 := nth 1 v 0) in *. set (v2 := nth 2 v 0) in *.
  set (w0 := nth 0 w 0) in *. set (w1 := nth 1 w 0) in *. set (w2 := nth 2 w 0) in *.
  set (d := u0 * (v1 * w2 - v2 * w1) - u1 * (v0 * w2 - v2 * w0)
            + u2 * (v0 * w1 - v1 * w0)).
  assert (Ha : a * d == 0).
  { setoid_replace (a * d) with
      ((a * u0 + b * u1 + c * u2) * (v1 * w2 - v2 * w1)
       - (a * v0 + b * v1 + c * v2) * (u1 * w2 - u2 * w1)
       + (a * w0 + b * w1 + c * w2) * (u1 * v2 - u2 * v1))
      by (unfold d; ring).
    rewrite Hu, Hv, Hw. ring. }
  assert (Hb : b * d == 0).
  { setoid_replace (b * d) with
      (- ((a * u0 + b * u1 + c * u2) * (v0 * w2 - v2 * w0))
       + (a * v0 + b * v1 + c * v2) * (u0 * w2 - u2 * w0)
       - (a * w0 + b * w1 + c * w2) * (u0 * v2 - u2 * v0))
      by (unfold d; ring).
    rewrite Hu, Hv, Hw. ring. }
  assert (Hc : c * d == 0).
  { setoid_replace (c * d) with
      ((a * u0 + b * u1 + c * u2) * (v0 * w1 - v1 * w0)
       - (a * v0 + b * v1 + c * v2) * (u0 * w1 - u1 * w0)
       + (a * w0 + b * w1 + c * w2) * (u0 * v1 - u1 * v0))
      by (unfold d; ring).
    rewrite Hu, Hv, Hw. ring. }
  destruct (Qeq_dec d 0) as [Hd|Hd]; [exact Hd|].
  exfalso. apply Hn.
  repeat split.
  - destruct (Qmult_integral _ _ Ha); [assumption | contradiction].
  - destruct (Qmult_integral _ _ Hb); [assumption | contradiction].
  - destruct (Qmult_integral _ _ Hc); [assumption | contradiction].
Qed.

Lemma minus_nth (p o : list Q) (k : nat) :
  length p = 3%nat -> length o = 3%nat -> (k < 3)%nat ->
  nth k (Reference.minus p o) 0 = nth k p 0 - nth k o 0.
Proof.
  intros Hp Ho Hk.
  destruct p as [|p0 [|p1 [|p2 [|]]]]; try discriminate.
  destruct o as [|o0 [|o1 [|o2 [|]]]]; try discriminate.
  destruct k as [|[|[|k]]]; try reflexivity. lia.
Qed.

Lemma coplanar_flat (pts : list (list Q)) :
  Forall (fun p => length p = 3%nat) pts -> coplanar pts -> Reference.flat pts = true.
Proof.
  intros Hlen (a & b & c & d & Hn & Hplane).
  destruct pts as [|o rest]; [reflexivity|]. simpl.
  inversion Hlen as [|? ? Ho Hrest]; subst.
  inversion Hplane as [|? ? Po Prest]; subst.
  assert (D : Forall (fun u => a * nth 0 u 0 + b * nth 1 u 0 + c * nth 2 u 0 == 0)
                (map (fun p => Reference.minus p o) rest)).
  { apply Forall_forall. intros u Hu.
    apply in_map_iff in Hu as (p & <- & Hp).
    rewrite Forall_forall in Hrest, Prest.
    specialize (Hrest p Hp). specialize (Prest p Hp). cbv beta in Hrest, Prest.
    rewrite !minus_nth by (auto; lia).
    setoid_replace (a * (nth 0 p 0 - nth 0 o 0) + b * (nth 1 p 0 - nth 1 o 0)
                    + c * (nth 2 p 0 - nth 2 o 0))
      with ((a * nth 0 p 0 + b * nth 1 p 0 + c * nth 2 p 0)
            - (a * nth 0 o 0 + b * nth 1 o 0 + c * nth 2 o 0)) by ring.
    rewrite Prest, Po. ring. }
  rewrite Forall_forall in D.
  apply forallb_forall. intros u Hu.
  apply forallb_forall. intros v Hv.
  apply forallb_forall. intros w Hw.
  apply Qeq_bool_iff. apply det3_dependent with a b c; auto.
Qed.

Lemma flat_table_coplanar :
  exists pts, finite_matrix (midpoints flat_table) = Some pts /\ coplanar pts.
Proof.
  eexists. split; [reflexivity|].
  exists 0, 0, 1, 5. split.
  - intros (_ & _ & H). discriminate H.
  - repeat constructor.
Qed.

(** Against the fallback: four samples at one depth, two levels asked for;
    the triangulation is refused and no slice comes back. *)
Lemma interpolate_3d_grid_flat_table :
  interpolate_3d_grid (scipy := Reference.scipy) flat_table 4
    = Err (Raise "QhullError" "initial simplex is flat") /\
  ~ degenerate_fallback Reference.scipy.
Proof.
  split; [reflexivity|].
  intros fallback.
  destruct flat_table_coplanar as (pts & Hpts & Hflat).
  destruct (fallback flat_table 4%nat pts Hpts Hflat) as (slices & H & _).
  vm_compute in H. discriminate H.
Qed.

(** C5, as the code has it.  [interpolate_3d_grid] has no fallback.  When
    [griddata] raises on the sample points, the call raises the same
    exception as soon as there is a level to compute (a resolution of 2 or
    more), and with a smaller resolution it returns no slice at all; the
    slices it returns are those [griddata] computed, one per level.  Samples
    lying in one plane make the triangulation fail with [QhullError]. *)
Theorem interpolate_3d_grid_no_fallback :
  (forall (scipy : Scipy) (df : DataFrame) (grid_resolution : nat) (e : exn),
      (forall xi, griddata (midpoints df) (map Moyenne_U df) xi "linear" (Fin 0) = Err e) ->
      interpolate_3d_grid df grid_resolution
      = if (2 <=? grid_resolution)%nat then Err e else Ok []) /\
  (forall (scipy : Scipy) (df : DataFrame) (grid_resolution : nat) (slices : list Slice),
      interpolate_3d_grid df grid_resolution = Ok slices ->
      Forall2 (fun z s =>
                 exists interpolated,
                   griddata (midpoints df) (map Moyenne_U df)
                     (lattice df grid_resolution z) "linear" (Fin 0) = Ok interpolated /\
                   values s = reshape_like (grid_x s) interpolated /\
                   z_level s = z)
              (z_grid df grid_resolution) slices) /\
  (forall (df : DataFrame) (grid_resolution : nat) (pts : list (list Q)),
      finite_matrix (midpoints df) = Some pts ->
      coplanar pts ->
      (2 <= grid_resolution)%nat ->
      interpolate_3d_grid (scipy := Reference.scipy) df grid_resolution
      = Err (Raise "QhullError" "initial simplex is flat")).
Proof.
  split; [|split].
  - intros scipy df res e Hfail.
    destruct (2 <=? res)%nat eqn:E.
    + apply Nat.leb_le in E. now apply interpolate_3d_grid_error.
    + apply Nat.leb_gt in E. now apply interpolate_3d_grid_no_level.
  - intros scipy df res slices H.
    rewrite interpolate_3d_grid_loop in H. apply for_each_inv in H.
    eapply Forall2_impl; [|exact H].
    intros z s Hs. apply slice_at_inv in Hs as (out & Hout & ->).
    exists out. destruct (meshgrid _ _). auto.
  - intros df res pts Hpts Hflat Hres.
    apply interpolate_3d_grid_error; [|exact Hres].
    intros xi. simpl. unfold Reference.grid_data. rewrite Hpts.
    now rewrite (coplanar_flat (finite_midpoints _ Hpts) Hflat).
Qed.

Lemma interpolate_3d_grid_no_fallback_witness :
  interpolate_3d_grid (scipy := Reference.scipy) flat_table 2
  = Err (Raise "QhullError" "initial simplex is flat").
Proof.
  destruct flat_table_coplanar as (pts & Hpts & Hflat).
  apply (proj2 (proj2 interpolate_3d_grid_no_fallback) flat_table 2%nat pts Hpts Hflat).
  lia.
Defined.

(** *** Grids *)

Lemma linspace_unfold (start stop : num) (m : nat) :
  linspace start stop (S (S m))
  = map (fun i => fadd (fmul (of_nat i) (fdiv (fsub stop start) (of_nat (S m)))) start)
      (seq 0 (S m)) ++ [stop].
Proof. reflexivity. Qed.

Lemma inject_nat_succ (m : nat) :
  inject_Z (Z.of_nat (S m)) == inject_Z (Z.of_nat m) + 1.
Proof. rewrite Nat2Z.inj_succ. unfold Z.succ. now rewrite inject_Z_plus. Qed.

Lemma inject_nat_nonneg (m : nat) : 0 <= inject_Z (Z.of_nat m).
Proof. change 0 with (inject_Z 0). rewrite <- Zle_Qle. lia. Qed.

Lemma inject_nat_pos (m : nat) : ~ inject_Z (Z.of_nat (S m)) == 0.
Proof.
  pose proof (inject_nat_nonneg m). rewrite inject_nat_succ. lra.
Qed.

Lemma linspace_evenly (lo hi : Q) (n : nat) :
  evenly_spaced lo hi n (linspace (Fin lo) (Fin hi) n).
Proof.
  split; [apply linspace_length|].
  destruct n as [|[|m]].
  - split; [intros i Hi; lia | split; intros; lia].
  - split; [|split; [intros _; exists lo; split; reflexivity | intros; lia]].
    intros i Hi. assert (i = 0%nat) as -> by lia.
    exists lo. split; [reflexivity|]. simpl. unfold Qdiv. ring.
  - rewrite linspace_unfold.
    pose proof (@inject_nat_pos m) as Hm.
    assert (Estep : fdiv (fsub (Fin hi) (Fin lo)) (of_nat (S m))
                    = Fin ((hi - lo) / inject_Z (Z.of_nat (S m)))).
    { unfold fdiv, fsub, of_nat.
      destruct (Qeq_bool (inject_Z (Z.of_nat (S m))) 0) eqn:E; [|reflexivity].
      apply Qeq_bool_iff in E. contradiction. }
    rewrite Estep.
    assert (Hn : inject_Z (Z.of_nat (S (S m))) - 1 == inject_Z (Z.of_nat (S m))).
    { rewrite (inject_nat_succ (S m)). ring. }
    split; [|split].
    + intros i Hi.
      destruct (Nat.eq_dec i (S m)) as [->|Hne].
      * exists hi. split.
        -- rewrite nth_error_app2; rewrite length_map, length_seq; [|lia].
           now rewrite Nat.sub_diag.
        -- rewrite Hn. field. exact Hm.
      * eexists. split.
        -- rewrite nth_error_app1 by (rewrite length_map, length_seq; lia).
           rewrite nth_error_map, nth_error_seq.
           replace (i <? S m)%nat with true by (symmetry; apply Nat.ltb_lt; lia).
           reflexivity.
        -- rewrite Hn. simpl. ring.
    + intros _. eexists. split; [reflexivity|]. simpl. ring.
    + intros _. rewrite nth_error_app2; rewrite length_map, length_seq; [|lia].
      replace (S (S m) - 1 - S m)%nat with 0%nat by lia. reflexivity.
Qed.

Lemma Qmin_cases (x y : Q) : Qmin x y = x \/ Qmin x y = y.
Proof.
  unfold Qmin, GenericMinMax.gmin. destruct (x ?= y); auto.
Qed.

Lemma Qmax_cases (x y : Q) : Qmax x y = x \/ Qmax x y = y.
Proof.
  unfold Qmax, GenericMinMax.gmax. destruct (x ?= y); auto.
Qed.

Lemma fold_left_Qmin (l : list Q) (q : Q) :
  In (fold_left Qmin l q) (q :: l) /\
  forall x, In x (q :: l) -> fold_left Qmin l q <= x.
Proof.
  revert q. induction l as [|y l IH]; intros q; simpl.
  - split; [auto|]. intros x [<-|[]]. apply Qle_refl.
  - destruct (IH (Qmin q y)) as [Hin Hle]. split.
    + destruct Hin as [E|Hin]; [|auto].
      rewrite <- E. destruct (Qmin_cases q y) as [->| ->]; auto.
    + intros x [<-|[<-|Hx]].
      * apply Qle_trans with (Qmin q y); [apply Hle; now left | apply Q.le_min_l].
      * apply Qle_trans with (Qmin q y); [apply Hle; now left | apply Q.le_min_r].
      * apply Hle. now right.
Qed.

Lemma fold_left_Qmax (l : list Q) (q : Q) :
  In (fold_left Qmax l q) (q :: l) /\
  forall x, In x (q :: l) -> x <= fold_left Qmax l q.
Proof.
  revert q. induction l as [|y l IH]; intros q; simpl.
  - split; [auto|]. intros x [<-|[]]. apply Qle_refl.
  - destruct (IH (Qmax q y)) as [Hin Hle]. split.
    + destruct Hin as [E|Hin]; [|auto].
      rewrite <- E. destruct (Qmax_cases q y) as [->| ->]; auto.
    + intros x [<-|[<-|Hx]].
      * apply Qle_trans with (Qmax q y); [apply Q.le_max_l | apply Hle; now left].
      * apply Qle_trans with (Qmax q y); [apply Q.le_max_r | apply Hle; now left].
      * apply Hle. now right.
Qed.

Lemma dropna_values_In (s : list num) (q : Q) :
  In q (dropna_values s) <-> In (Fin q) s.
Proof.
  induction s as [|[|x] s IH]; simpl.
  - tauto.
  - rewrite IH. split; [auto | intros [H|H]; [discriminate | exact H]].
  - rewrite IH. split; intros [H|H]; auto.
    + left. now f_equal.
    + left. now injection H.
Qed.

(** [min()] and [max()] of a column with a present value are its bounds. *)
Lemma series_bounds (s : list num) :
  dropna_values s <> [] ->
  exists lo hi,
    series_min s = Fin lo /\ series_max s = Fin hi /\ column_bounds s lo hi.
Proof.
  unfold series_min, series_max, column_bounds.
  destruct (dropna_values s) as [|q l] eqn:E; [congruence|]. intros _.
  destruct (fold_left_Qmin l q) as [Imin Lmin].
  destruct (fold_left_Qmax l q) as [Imax Lmax].
  exists (fold_left Qmin l q), (fold_left Qmax l q). simpl.
  rewrite <- E in Imin, Imax, Lmin, Lmax.
  repeat split; try (now apply dropna_values_In).
  - apply Lmin. now apply dropna_values_In.
  - apply Lmax. now apply dropna_values_In.
Qed.

(** *** Meshes *)

Lemma map_const {A B} (b : B) (l : list A) :
  map (fun _ => b) l = repeat b (length l).
Proof. induction l; simpl; congruence. Qed.

Lemma concat_length_rows {A} (m : list (list A)) (c : nat) :
  Forall (fun row => length row = c) m -> length (concat m) = (length m * c)%nat.
Proof.
  induction 1 as [|row m Hrow _ IH]; simpl; [reflexivity|].
  rewrite length_app, IH, Hrow. reflexivity.
Qed.

Lemma column_stack3_length (a b c : list num) :
  length b = length a -> length c = length a ->
  length (column_stack3 a b c) = length a.
Proof.
  revert b c. induction a as [|x a IH]; intros [|y b] [|z c]; simpl; try discriminate;
    auto.
Qed.

Lemma firstn_add_skipn {A} (a b : nat) (l : list A) :
  firstn (a + b) l = firstn a l ++ firstn b (skipn a l).
Proof.
  revert l. induction a as [|a IH]; intros l; simpl; [reflexivity|].
  destruct l as [|x l]; simpl; [now rewrite firstn_nil | now rewrite IH].
Qed.

Lemma concat_chunks {A} (c n : nat) (l : list A) :
  concat (map (fun r => firstn c (skipn (r * c) l)) (seq 0 n)) = firstn (n * c) l.
Proof.
  induction n as [|n IH]; [reflexivity|].
  rewrite seq_S, map_app, concat_app, IH. simpl.
  rewrite app_nil_r, (Nat.add_comm c (n * c)). symmetry. apply firstn_add_skipn.
Qed.

Lemma chunk_length {A} (c n r : nat) (l : list A) :
  length l = (n * c)%nat -> (r < n)%nat -> length (firstn c (skipn (r * c) l)) = c.
Proof.
  intros Hl Hr. rewrite length_firstn, length_skipn, Hl. nia.
Qed.

Lemma Forall2_of_nth_error {A B} (R : A -> B -> Prop) (l1 : list A) (l2 : list B) :
  length l1 = length l2 ->
  (forall i a b, nth_error l1 i = Some a -> nth_error l2 i = Some b -> R a b) ->
  Forall2 R l1 l2.
Proof.
  revert l2. induction l1 as [|a l1 IH]; intros [|b l2]; simpl; try discriminate.
  - constructor.
  - intros Hl H. constructor.
    + now apply (H 0%nat).
    + apply IH; [congruence|]. intros i. apply (H (S i)).
Qed.

Lemma Forall2_length_eq {A B} (R : A -> B -> Prop) (l1 : list A) (l2 : list B) :
  Forall2 R l1 l2 -> length l1 = length l2.
Proof. induction 1; simpl; congruence. Qed.

Lemma meshgrid_square (xs ys : list num) (n : nat) :
  length xs = n -> length ys = n ->
  meshgrid xs ys = (repeat xs n, map (fun y => repeat y n) ys).
Proof.
  intros <- Hy. unfold meshgrid. rewrite map_const, Hy. f_equal.
  apply map_ext. intros y. apply map_const.
Qed.

Lemma full_like_square (xs : list num) (z : num) (n : nat) :
  length xs = n -> full_like (repeat xs n) z = repeat (repeat z n) n.
Proof.
  intros <-. unfold full_like. generalize (length xs) at 1 3. intros k.
  induction k as [|k IH]; simpl; [reflexivity|].
  now rewrite IH, map_const.
Qed.

Lemma repeat_rows {A} (row : list A) (n c : nat) :
  length row = c -> Forall (fun r => length r = c) (repeat row n).
Proof.
  intros H. apply Forall_forall. intros r Hr.
  now rewrite (repeat_spec _ _ _ Hr).
Qed.

Lemma reshape_like_square (xs out : list num) (n : nat) :
  length xs = n -> length out = (n * n)%nat ->
  length (reshape_like (repeat xs n) out) = n /\
  Forall (fun row => length row = n) (reshape_like (repeat xs n) out) /\
  ravel (reshape_like (repeat xs n) out) = out.
Proof.
  intros Hx Ho. unfold reshape_like, ravel.
  rewrite repeat_length.
  assert (Hc : n = 0%nat \/ length (hd [] (repeat xs n)) = n).
  { destruct n; [now left | right; exact Hx]. }
  destruct Hc as [->|Hc].
  - simpl in *. destruct out; [auto | discriminate].
  - rewrite Hc. split; [|split].
    + now rewrite length_map, length_seq.
    + apply Forall_forall. intros row Hrow.
      apply in_map_iff in Hrow as (r & <- & Hr). apply in_seq in Hr.
      apply chunk_length with n; [exact Ho | lia].
    + rewrite concat_chunks, <- Ho. apply firstn_all.
Qed.

Section Slices.

Context {scipy : Scipy}.

Lemma lattice_shape (df : DataFrame) (n : nat) (z : num) :
  lattice df n z
  = grid_points (repeat (x_grid df n) n) (map (fun y => repeat y n) (y_grid df n))
      (repeat (repeat z n) n) /\
  length (lattice df n z) = (n * n)%nat.
Proof.
  unfold lattice.
  rewrite (@meshgrid_square (x_grid df n) (y_grid df n) n)
    by apply linspace_length.
  rewrite (@full_like_square (x_grid df n) z n) by apply linspace_length.
  split; [reflexivity|].
  unfold grid_points, ravel.
  assert (Lx : length (concat (repeat (x_grid df n) n)) = (n * n)%nat).
  { rewrite (@concat_length_rows _ _ n), repeat_length; [reflexivity|].
    apply repeat_rows, linspace_length. }
  rewrite column_stack3_length; rewrite Lx; [reflexivity| |].
  - rewrite (@concat_length_rows _ _ n).
    + rewrite length_map. unfold y_grid. now rewrite linspace_length.
    + apply Forall_forall. intros row Hrow.
      apply in_map_iff in Hrow as (y & <- & _). apply repeat_length.
  - rewrite (@concat_length_rows _ _ n), repeat_length; [reflexivity|].
    apply repeat_rows, repeat_length.
Qed.

Lemma midpoints_present (df : DataFrame) (pts : list (list Q)) :
  df <> [] -> finite_matrix (midpoints df) = Some pts ->
  dropna_values (map X_mean df) <> [] /\
  dropna_values (map Y_mean df) <> [] /\
  dropna_values (map Z_mean df) <> [].
Proof.
  destruct df as [|r df]; [congruence|]. intros _. simpl.
  destruct (X_mean r); [discriminate|].
  destruct (Y_mean r); [discriminate|].
  destruct (Z_mean r); [discriminate|].
  intros _. simpl. repeat split; discriminate.
Qed.

(** C7, as the code has it.  On a table with samples, all midpoints
    present, and when [griddata] answers on every level,
    [interpolate_3d_grid] returns [grid_resolution / 2] slices, in the order
    of their levels.  The X and Y grids are [grid_resolution] evenly spaced
    numbers from the least to the greatest midpoint coordinate of the table.
    The levels are evenly spaced depths that start at the least midpoint
    depth and reach the greatest one when there are two levels or more; a
    single level is the least depth.  Each slice keeps its level and its
    three meshes, its values have the shape of the meshes, and the value at
    every lattice point outside the convex hull of the samples is 0, the
    fill value passed to [griddata]. *)
Theorem interpolate_3d_grid_slices
    (df : DataFrame) (grid_resolution : nat) (pts : list (list Q)) :
  df <> [] ->
  finite_matrix (midpoints df) = Some pts ->
  fills_outside_hull (midpoints df) (map Moyenne_U df) pts ->
  (forall z, In z (z_grid df grid_resolution) ->
     exists out,
       griddata (midpoints df) (map Moyenne_U df)
         (lattice df grid_resolution z) "linear" (Fin 0) = Ok out) ->
  exists slices x_lo x_hi y_lo y_hi z_lo z_hi,
    interpolate_3d_grid df grid_resolution = Ok slices /\
    length slices = (grid_resolution / 2)%nat /\
    column_bounds (map X_mean df) x_lo x_hi /\
    column_bounds (map Y_mean df) y_lo y_hi /\
    column_bounds (map Z_mean df) z_lo z_hi /\
    evenly_spaced x_lo x_hi grid_resolution (x_grid df grid_resolution) /\
    evenly_spaced y_lo y_hi grid_resolution (y_grid df grid_resolution) /\
    evenly_spaced z_lo z_hi (grid_resolution / 2) (map z_level slices) /\
    Forall (fun s =>
              grid_x s = repeat (x_grid df grid_resolution) grid_resolution /\
              grid_y s = map (fun y => repeat y grid_resolution)
                           (y_grid df grid_resolution) /\
              grid_z s = repeat (repeat (z_level s) grid_resolution) grid_resolution /\
              length (values s) = grid_resolution /\
              Forall (fun row => length row = grid_resolution) (values s) /\
              zero_outside_hull pts s)
           slices.
Proof.
  intros Hdf Hpts Hfill Hok.
  destruct (midpoints_present Hdf Hpts) as (Px & Py & Pz).
  destruct (series_bounds _ Px) as (x_lo & x_hi & Exlo & Exhi & Bx).
  destruct (series_bounds _ Py) as (y_lo & y_hi & Eylo & Eyhi & By).
  destruct (series_bounds _ Pz) as (z_lo & z_hi & Ezlo & Ezhi & Bz).
  destruct (for_each_all_ok (slice_at df grid_resolution)
              (z_grid df grid_resolution)) as [slices Hrun].
  { intros z Hz. destruct (Hok z Hz) as [out Hout].
    unfold slice_at. destruct (meshgrid _ _). rewrite Hout. eauto. }
  pose proof (for_each_inv _ _ Hrun) as Hall.
  assert (Hlevels : map z_level slices = z_grid df grid_resolution).
  { clear - Hall. induction Hall as [|z s zs ss Hs _ IH]; simpl; [reflexivity|].
    apply slice_at_inv in Hs as (out & _ & ->).
    destruct (meshgrid _ _). simpl. now rewrite IH. }
  exists slices, x_lo, x_hi, y_lo, y_hi, z_lo, z_hi.
  split; [now rewrite interpolate_3d_grid_loop|].
  split; [rewrite <- (Forall2_length_eq Hall); apply z_grid_length|].
  do 3 (split; [assumption|]).
  split; [unfold x_grid; rewrite Exlo, Exhi; apply linspace_evenly|].
  split; [unfold y_grid; rewrite Eylo, Eyhi; apply linspace_evenly|].
  split; [rewrite Hlevels; unfold z_grid; rewrite Ezlo, Ezhi; apply linspace_evenly|].
  clear Hlevels Hrun.
  induction Hall as [|z s zs ss Hs _ IH]; constructor.
  - apply slice_at_inv in Hs as (out & Hout & ->).
    rewrite (@meshgrid_square (x_grid df grid_resolution)
               (y_grid df grid_resolution) grid_resolution)
      by apply linspace_length.
    cbn [grid_x grid_y grid_z values z_level].
    destruct (Hfill _ _ _ Hout) as [Lout Hzero].
    destruct (lattice_shape df grid_resolution z) as [Elat Llat].
    rewrite Llat in Lout.
    destruct (@reshape_like_square (x_grid df grid_resolution) out grid_resolution)
      as (R1 & R2 & R3); [apply linspace_length | exact Lout |].
    split; [reflexivity|]. split; [reflexivity|].
    split; [apply full_like_square, linspace_length|].
    split; [exact R1|]. split; [exact R2|].
    unfold zero_outside_hull. cbn [grid_x grid_y grid_z values].
    rewrite R3.
    rewrite (@full_like_square (x_grid df grid_resolution) z grid_resolution)
      by apply linspace_length.
    rewrite <- Elat.
    apply Forall2_of_nth_error; [now rewrite Llat|].
    intros i p v Hp Hv q -> Hq. now apply (Hzero i q v).
  - apply IH. intros z' Hz'. apply Hok. now right.
Qed.

End Slices.

(** *** The stand-in interpolant keeps to the contract *)

Lemma same_point_nth (p q : list Q) (k : nat) :
  Reference.same_point p q = true -> nth k p 0 == nth k q 0.
Proof.
  revert q k. induction p as [|a p IH]; intros [|b q] k; simpl; try discriminate.
  - intros _. destruct k; reflexivity.
  - intros H. apply andb_prop in H as [Hab Hpq].
    destruct k; [now apply Qeq_bool_iff | now apply IH].
Qed.

Lemma combination_zero (pts : list (list Q)) (k : nat) :
  combination (repeat 0 (length pts)) pts k == 0.
Proof.
  unfold combination. induction pts as [|p pts IH]; simpl; [reflexivity|].
  unfold Qsum in IH. rewrite IH. ring.
Qed.

Lemma Qsum_zero (n : nat) : Qsum (repeat 0 n) == 0.
Proof.
  induction n as [|n IH]; simpl; [reflexivity|].
  unfold Qsum in IH. rewrite IH. ring.
Qed.

Lemma in_hull_head (p q : list Q) (pts : list (list Q)) :
  Reference.same_point p q = true -> in_hull (p :: pts) q.
Proof.
  intros H. exists (1 :: repeat 0 (length pts)).
  split; [simpl; now rewrite repeat_length|].
  split; [constructor; [discriminate | apply Forall_forall; intros w Hw;
                        rewrite (repeat_spec _ _ _ Hw); apply Qle_refl]|].
  split.
  - change (1 + Qsum (repeat 0 (length pts)) == 1). rewrite Qsum_zero. ring.
  - intros k _.
    change (1 * nth k p 0 + combination (repeat 0 (length pts)) pts k == nth k q 0).
    rewrite combination_zero, (same_point_nth _ _ k H). ring.
Qed.

Lemma in_hull_tail (p q : list Q) (pts : list (list Q)) :
  in_hull pts q -> in_hull (p :: pts) q.
Proof.
  intros (ws & Hlen & Hpos & Hsum & Hcomb). exists (0 :: ws).
  split; [simpl; congruence|].
  split; [constructor; [apply Qle_refl | exact Hpos]|].
  split.
  - change (0 + Qsum ws == 1). rewrite Hsum. ring.
  - intros k Hk.
    change (0 * nth k p 0 + combination ws pts k == nth k q 0).
    rewrite (Hcomb k Hk). ring.
Qed.

Lemma value_at_outside (pts : list (list Q)) (vals : list num) (fill : num)
    (q : list Q) :
  ~ in_hull pts q -> Reference.value_at (combine pts vals) fill q = fill.
Proof.
  revert vals. induction pts as [|p pts IH]; intros vals Hq; [reflexivity|].
  destruct vals as [|v vals]; [reflexivity|]. simpl.
  destruct (Reference.same_point p q) eqn:E.
  - exfalso. apply Hq. now apply in_hull_head.
  - apply IH. intros H. apply Hq. now apply in_hull_tail.
Qed.

Lemma finite_list_inj (l : list num) (qs q : list Q) :
  finite_list l = Some qs -> l = map Fin q -> qs = q.
Proof.
  intros H ->. revert qs H. induction q as [|x q IH]; intros qs; simpl.
  - intros E. now injection E.
  - destruct (finite_list (map Fin q)) as [qs'|]; [|discriminate].
    intros E. injection E as <-. f_equal. now apply IH.
Qed.

Lemma finite_matrix_rows (m : matrix) (qs : list (list Q)) :
  finite_matrix m = Some qs ->
  length qs = length m /\
  forall i q, nth_error m i = Some (map Fin q) -> nth_error qs i = Some q.
Proof.
  revert qs. induction m as [|row m IH]; intros qs; simpl.
  - intros E. injection E as <-. split; [reflexivity|]. intros [|i] q; discriminate.
  - destruct (finite_list row) as [r|] eqn:Er; [|discriminate].
    destruct (finite_matrix m) as [rs|]; [|discriminate].
    intros E. injection E as <-. destruct (IH rs eq_refl) as [L N].
    split; [simpl; congruence|].
    intros [|i] q; simpl.
    + intros H. injection H as H. now rewrite (finite_list_inj _ Er H).
    + apply N.
Qed.

Lemma reference_fills_outside_hull (points : matrix) (vals : list num)
    (pts : list (list Q)) :
  finite_matrix points = Some pts ->
  fills_outside_hull (scipy := Reference.scipy) points vals pts.
Proof.
  intros Hpts xi fill out. simpl. unfold Reference.grid_data. rewrite Hpts.
  destruct (Reference.flat pts); [discriminate|].
  destruct (finite_matrix xi) as [qs|] eqn:Exi; [|discriminate].
  intros E. injection E as <-.
  destruct (finite_matrix_rows _ Exi) as [L N].
  split; [now rewrite length_map|].
  intros i q v Hq Hv Hout.
  rewrite nth_error_map, (N i q Hq) in Hv. simpl in Hv. injection Hv as <-.
  now apply value_at_outside.
Qed.

Lemma interpolate_3d_grid_slices_witness :
  exists slices,
    interpolate_3d_grid (scipy := Reference.scipy) solid_table 4 = Ok slices /\
    map z_level slices = [Fin 5; Fin 9] /\
    Forall (zero_outside_hull solid_points) slices.
Proof.
  assert (H1 : solid_table <> []) by discriminate.
  assert (H2 : finite_matrix (midpoints solid_table) = Some solid_points)
    by reflexivity.
  assert (H4 : forall z, In z (z_grid solid_table 4) ->
               exists out,
                 griddata (Scipy := Reference.scipy) (midpoints solid_table)
                   (map Moyenne_U solid_table) (lattice solid_table 4 z)
                   "linear" (Fin 0) = Ok out).
  { intros z Hz. vm_compute in Hz. destruct Hz as [<-|[<-|[]]].
    - exists (match griddata (Scipy := Reference.scipy) (midpoints solid_table)
                      (map Moyenne_U solid_table) (lattice solid_table 4 (Fin 5))
                      "linear" (Fin 0) with Ok o => o | Err _ => [] end).
      vm_compute. reflexivity.
    - exists (match griddata (Scipy := Reference.scipy) (midpoints solid_table)
                      (map Moyenne_U solid_table) (lattice solid_table 4 (Fin 9))
                      "linear" (Fin 0) with Ok o => o | Err _ => [] end).
      vm_compute. reflexivity. }
  destruct (@interpolate_3d_grid_slices Reference.scipy solid_table 4 solid_points
              H1 H2 (@reference_fills_outside_hull _ (map Moyenne_U solid_table) _ H2)
              H4)
    as (slices & x_lo & x_hi & y_lo & y_hi & z_lo & z_hi & Hrun & _ & _ & _ & _
        & _ & _ & _ & Hall).
  exists slices. split; [exact Hrun|]. split.
  - vm_compute in Hrun. injection Hrun as <-. reflexivity.
  - eapply Forall_impl; [|exact Hall]. intros s H. apply H.
Defined.

(** Against levels that always span the depth range: with a resolution of 2
    there is one level, the least depth 5, and the samples go down to 9. *)
Lemma interpolate_3d_grid_single_level :
  column_bounds (map Z_mean solid_table) 5 9 /\
  (exists s,
     interpolate_3d_grid (scipy := Reference.scipy) solid_table 2 = Ok [s] /\
     z_level s = Fin 5) /\
  ~ levels_span_depth Reference.scipy.
Proof.
  assert (B : column_bounds (map Z_mean solid_table) 5 9).
  { split; [simpl; auto|]. split; [simpl; auto 6|].
    intros q Hq. simpl in Hq.
    repeat (destruct Hq as [Hq|Hq]; [injection Hq as <-; split; discriminate|]).
    destruct Hq. }
  split; [exact B|]. split.
  - eexists. split; reflexivity.
  - intros span.
    destruct (span solid_table 2%nat
                (match interpolate_3d_grid (scipy := Reference.scipy) solid_table 2 with
                 | Ok l => l
                 | Err _ => []
                 end) 5 9) as [_ H].
    + reflexivity.
    + discriminate.
    + exact B.
    + vm_compute in H. destruct H as [H|[]]. discriminate H.
Qed.

(** ** Reserve calculator *)

Lemma fge_Fin (x : num) (c : Q) :
  fge x (Fin c) = true <-> exists g, x = Fin g /\ c <= g.
Proof.
  destruct x as [|g]; simpl.
  - split; [discriminate | intros (g & H & _); discriminate].
  - rewrite Qle_bool_iff. split.
    + intros H; exists g; auto.
    + intros (g' & H & Hle). injection H as ->. exact Hle.
Qed.

Lemma flt_Fin (x : num) (c : Q) :
  flt x (Fin c) = true <-> exists g, x = Fin g /\ g < c.
Proof.
  destruct x as [|g]; simpl.
  - split; [discriminate | intros (g & H & _); discriminate].
  - rewrite negb_true_iff, <- not_true_iff_false, Qle_bool_iff. split.
    + intros H; exists g; split; auto. apply Qnot_le_lt; exact H.
    + intros (g' & H & Hlt). injection H as ->. apply Qlt_not_le; exact Hlt.
Qed.

Lemma flt_not_fge (x : num) (c : Q) : flt x (Fin c) = true -> fge x (Fin c) = false.
Proof.
  destruct x; simpl; [reflexivity|]. now rewrite negb_true_iff.
Qed.


Lemma grade_is_mask (r : Row) (q c : Q) :
  grade_is r q -> ore_mask c r = Qle_bool c q.
Proof.
  unfold grade_is, ore_mask. destruct (Moyenne_U r) as [|g]; [tauto|].
  intros Hg; simpl.
  destruct (Qle_bool c q) eqn:E.
  - apply Qle_bool_iff. apply Qle_bool_iff in E. now rewrite Hg.
  - apply not_true_iff_false. intros H. apply Qle_bool_iff in H.
    rewrite Hg in H. apply Qle_bool_iff in H. congruence.
Qed.

(** C1.  [calculate_ore_reserves] keeps, in the order of the table, exactly
    the rows whose mean grade is at least the cutoff; each kept row gets
    tonnage = volume proxy * 2.7 and metal content = tonnage * grade / 1e6;
    the block count is the number of kept rows.  On a table of three rows
    with grades 10, 40, 60 and cutoff 30 the ore subset is the last two rows
    and the count is 2. *)
Theorem calculate_ore_reserves_ore_subset :
  (forall (df : DataFrame) (cutoff : Q),
      let (reserves, ore_data) := calculate_ore_reserves df cutoff in
      map ore_row ore_data = filter (fun r => fge (Moyenne_U r) (Fin cutoff)) df /\
      (forall r, In r (map ore_row ore_data) <->
                 In r df /\ exists g, Moyenne_U r = Fin g /\ cutoff <= g) /\
      (forall o, In o ore_data ->
         Tonnage o = fmul (Volume_approx (ore_row o)) (Fin (27 # 10)) /\
         Metal_content o =
           fdiv (fmul (Tonnage o) (Moyenne_U (ore_row o))) (Fin 1000000) /\
         forall v g, Volume_approx (ore_row o) = Fin v ->
                     Moyenne_U (ore_row o) = Fin g ->
                     Tonnage o = Fin (v * (27 # 10)) /\
                     Metal_content o = Fin (v * (27 # 10) * g / 1000000)) /\
      ore_blocks reserves = length ore_data) /\
  (forall r1 r2 r3 : Row,
      grade_is r1 10 -> grade_is r2 40 -> grade_is r3 60 ->
      let (reserves, ore_data) := calculate_ore_reserves [r1; r2; r3] 30 in
      map ore_row ore_data = [r2; r3] /\ ore_blocks reserves = 2%nat).
Proof.
  split.
  - intros df cutoff. unfold calculate_ore_reserves. cbv zeta.
    rewrite map_map. simpl. rewrite map_id.
    split; [reflexivity|]. split; [|split; [|reflexivity]].
    + intros r. rewrite filter_In. unfold ore_mask. now rewrite fge_Fin.
    + intros o Ho. apply in_map_iff in Ho as (r & <- & _). simpl.
      split; [reflexivity|]. split; [reflexivity|].
      intros v g -> ->. simpl. auto.
  - intros r1 r2 r3 H1 H2 H3. unfold calculate_ore_reserves. cbv zeta.
    rewrite length_map, map_map. simpl map at 1. simpl filter.
    rewrite (@grade_is_mask r1 10 30 H1), (@grade_is_mask r2 40 30 H2), (@grade_is_mask r3 60 30 H3).
    simpl. auto.
Qed.


Lemma calculate_ore_reserves_ore_subset_witness :
  let (reserves, ore_data) :=
    calculate_ore_reserves [sample_row 10 100; sample_row 40 200; sample_row 60 300] 30 in
  map ore_row ore_data = [sample_row 40 200; sample_row 60 300] /\
  ore_blocks reserves = 2%nat.
Proof.
  apply (proj2 calculate_ore_reserves_ore_subset); simpl; reflexivity.
Defined.


Lemma ore_mask_antitone (c1 c2 : Q) (r : Row) :
  c1 <= c2 -> ore_mask c2 r = true -> ore_mask c1 r = true.
Proof.
  unfold ore_mask. intros Hc. rewrite !fge_Fin.
  intros (g & Hg & Hle). exists g; split; auto. now apply Qle_trans with c2.
Qed.

(** ** Rounding to float64 *)

Lemma pow2_pos (e : Z) : 0 < pow2 e.
Proof. apply Qpower_0_lt. reflexivity. Qed.

Lemma pow2_plus (a b : Z) : pow2 (a + b) == pow2 a * pow2 b.
Proof. apply Qpower_plus. discriminate. Qed.

Lemma pow2_succ (a : Z) : pow2 (a + 1) == 2 * pow2 a.
Proof. rewrite pow2_plus. change (pow2 1) with 2. ring. Qed.

Lemma pow2_le (a b : Z) : (a <= b)%Z -> pow2 a <= pow2 b.
Proof. intros H. apply Qpower_le_compat_l; [exact H | discriminate]. Qed.

Lemma pow2_lt (a b : Z) : (a < b)%Z -> pow2 a < pow2 b.
Proof. intros H. apply Qpower_lt_compat_l; [exact H | reflexivity]. Qed.

Lemma pow2_lt_inv (a b : Z) : pow2 a < pow2 b -> (a < b)%Z.
Proof. intros H. apply Qpower_lt_compat_l_inv with 2; [exact H | reflexivity]. Qed.

Lemma pow2_Z (n : Z) : (0 <= n)%Z -> pow2 n == inject_Z (2 ^ n).
Proof. intros H. unfold pow2. now rewrite (Zpower_Qpower 2 n H). Qed.

Lemma Qlog2_spec (q : Q) :
  ~ q == 0 -> pow2 (Qlog2 q) <= Qabs q /\ Qabs q < pow2 (Qlog2 q + 1).
Proof.
  intros Hq. unfold Qlog2.
  set (n := Z.abs (Qnum q)). set (d := Z.pos (Qden q)).
  assert (Hn : (0 < n)%Z).
  { unfold n. destruct q as [[|p|p] dq]; simpl; try lia.
    exfalso. apply Hq. reflexivity. }
  assert (Hd : (0 < d)%Z) by (unfold d; lia).
  destruct (Z.log2_spec n Hn) as [Na Nb]. destruct (Z.log2_spec d Hd) as [Da Db].
  pose proof (Z.log2_nonneg n) as La. pose proof (Z.log2_nonneg d) as Lb.
  set (a := Z.log2 n) in *. set (b := Z.log2 d) in *.
  assert (X : Qabs q * inject_Z d == inject_Z n).
  { unfold Qabs, n, d. destruct q as [qn qd]. unfold Qeq. simpl. lia. }
  assert (Pa : pow2 a <= inject_Z n /\ inject_Z n < 2 * pow2 a).
  { rewrite (pow2_Z La). split.
    - rewrite <- Zle_Qle. exact Na.
    - change 2 with (inject_Z 2). rewrite <- inject_Z_mult, <- Zlt_Qlt.
      replace (Z.succ a) with (a + 1)%Z in Nb by lia.
      rewrite Z.pow_add_r in Nb by lia. lia. }
  assert (Pb : pow2 b <= inject_Z d /\ inject_Z d < 2 * pow2 b).
  { rewrite (pow2_Z Lb). split.
    - rewrite <- Zle_Qle. exact Da.
    - change 2 with (inject_Z 2). rewrite <- inject_Z_mult, <- Zlt_Qlt.
      replace (Z.succ b) with (b + 1)%Z in Db by lia.
      rewrite Z.pow_add_r in Db by lia. lia. }
  assert (L : pow2 (a - b) * pow2 b == pow2 a).
  { rewrite <- pow2_plus. now replace (a - b + b)%Z with a by lia. }
  pose proof (pow2_pos (a - b)) as PL. pose proof (pow2_pos b) as PB.
  pose proof (pow2_pos a) as PA.
  assert (D0 : 0 < inject_Z d) by (change 0 with (inject_Z 0); now rewrite <- Zlt_Qlt).
  assert (E2 : 2 * pow2 (a - b - 1) == pow2 (a - b)).
  { rewrite <- pow2_succ. now replace (a - b - 1 + 1)%Z with (a - b)%Z by lia. }
  pose proof (pow2_pos (a - b - 1)) as PL1.
  assert (A0 : 0 <= Qabs q) by apply Qabs_nonneg.
  assert (B : Qabs q < 2 * pow2 (a - b) /\ pow2 (a - b - 1) <= Qabs q).
  { revert X A0 Pa Pb L PL PB PA D0 E2 PL1.
    generalize (Qabs q) (inject_Z d) (inject_Z n) (pow2 (a - b - 1))
      (pow2 (a - b)) (pow2 a) (pow2 b).
    intros. split; nra. }
  destruct B as [Hi Lo].
  destruct (Qle_bool (pow2 (a - b)) (Qabs q)) eqn:E.
  - apply Qle_bool_iff in E. split; [exact E|]. rewrite pow2_succ. exact Hi.
  - split; [exact Lo|]. replace (a - b - 1 + 1)%Z with (a - b)%Z by lia.
    apply Qnot_le_lt. intros H. apply Qle_bool_iff in H. congruence.
Qed.

Lemma round_half_even_comp (p q : Q) : p == q -> round_half_even p = round_half_even q.
Proof.
  intros H. unfold round_half_even. rewrite (Qfloor_comp p q H).
  assert (E : p - inject_Z (Qfloor q) == q - inject_Z (Qfloor q)) by now rewrite H.
  now rewrite (Qcompare_comp _ _ E (1 # 2) (1 # 2) (Qeq_refl _)).
Qed.

Lemma round_half_even_close (q : Q) :
  q - (1 # 2) <= inject_Z (round_half_even q) /\
  inject_Z (round_half_even q) <= q + (1 # 2).
Proof.
  unfold round_half_even.
  pose proof (Qfloor_le q) as Lo. pose proof (Qlt_floor q) as Hi.
  rewrite inject_Z_plus in Hi. change (inject_Z 1) with 1 in Hi.
  destruct (q - inject_Z (Qfloor q) ?= 1 # 2) eqn:E.
  - apply Qeq_alt in E.
    destruct (Z.even (Qfloor q)); [|rewrite inject_Z_plus; change (inject_Z 1) with 1];
      split; lra.
  - apply Qlt_alt in E. split; lra.
  - apply Qgt_alt in E. rewrite inject_Z_plus. change (inject_Z 1) with 1. split; lra.
Qed.

Lemma round_half_even_Z (k : Z) : round_half_even (inject_Z k) = k.
Proof.
  unfold round_half_even. rewrite Qfloor_Z.
  assert (E : (inject_Z k - inject_Z k ?= 1 # 2) = Lt).
  { apply (proj1 (Qlt_alt _ _)). lra. }
  now rewrite E.
Qed.

Lemma round_half_even_monotone (p q : Q) :
  p <= q -> (round_half_even p <= round_half_even q)%Z.
Proof.
  intros H.
  destruct (round_half_even_close p) as [_ Hp].
  destruct (round_half_even_close q) as [Hq _].
  destruct (Z_le_gt_dec (round_half_even p) (round_half_even q)) as [L|G]; [exact L|].
  exfalso.
  assert (G' : inject_Z (round_half_even q) + 1 <= inject_Z (round_half_even p)).
  { change 1 with (inject_Z 1). rewrite <- inject_Z_plus, <- Zle_Qle. lia. }
  assert (E : p == q) by lra.
  rewrite (round_half_even_comp E) in G. lia.
Qed.

Lemma round_half_even_above (k : Z) (q : Q) :
  inject_Z k <= q -> (k <= round_half_even q)%Z.
Proof.
  intros H. rewrite <- (round_half_even_Z k). now apply round_half_even_monotone.
Qed.

Lemma round_half_even_below (k : Z) (q : Q) :
  q <= inject_Z k -> (round_half_even q <= k)%Z.
Proof.
  intros H. rewrite <- (round_half_even_Z k). now apply round_half_even_monotone.
Qed.

Lemma Qlog2_pos (q : Q) :
  0 < q -> pow2 (Qlog2 q) <= q /\ q < pow2 (Qlog2 q + 1).
Proof.
  intros H. assert (N : ~ q == 0) by lra.
  pose proof (Qlog2_spec N) as S. now rewrite (Qabs_pos q) in S by lra.
Qed.

Lemma Qlog2_monotone (p q : Q) : 0 < p -> p <= q -> (Qlog2 p <= Qlog2 q)%Z.
Proof.
  intros Hp H. destruct (Qlog2_pos Hp) as [Lp _].
  assert (Hq : 0 < q) by lra. destruct (Qlog2_pos Hq) as [_ Uq].
  assert (L : pow2 (Qlog2 p) < pow2 (Qlog2 q + 1)) by lra.
  apply pow2_lt_inv in L. lia.
Qed.

(** The exponent of a number below a power of two. *)
Lemma Qlog2_below (q : Q) (e : Z) : 0 < q -> q < pow2 e -> (Qlog2 q < e)%Z.
Proof.
  intros Hq H. destruct (Qlog2_pos Hq) as [L _].
  apply pow2_lt_inv. lra.
Qed.

Lemma float64_zero (q : Q) : q == 0 -> float64 q = 0.
Proof.
  intros H. unfold float64. now rewrite (Qeq_eq_bool _ _ H).
Qed.

Lemma float64_positive (q : Q) :
  0 < q ->
  float64 q = inject_Z (round_half_even (q / pow2 (last_place q))) * pow2 (last_place q).
Proof.
  intros H. unfold float64.
  destruct (Qeq_bool q 0) eqn:E; [|reflexivity].
  apply Qeq_bool_eq in E. lra.
Qed.

Lemma last_place_bounds (q : Q) :
  (-1074 <= last_place q)%Z /\ (Qlog2 q - 52 <= last_place q)%Z.
Proof. unfold last_place. lia. Qed.

(** The significand of a positive number: between 0 and [2 ^ 53]. *)
Lemma significand_bounds (q : Q) :
  0 < q ->
  (0 <= round_half_even (q / pow2 (last_place q)) <= 2 ^ 53)%Z.
Proof.
  intros H. pose proof (pow2_pos (last_place q)) as P.
  destruct (Qlog2_pos H) as [_ U]. destruct (last_place_bounds q) as [_ B].
  split.
  - apply round_half_even_above. apply Qle_shift_div_l; [exact P|].
    change (inject_Z 0) with 0. lra.
  - apply round_half_even_below. rewrite <- (@pow2_Z 53) by lia.
    apply Qle_shift_div_r; [exact P|]. rewrite <- pow2_plus.
    apply Qle_trans with (pow2 (Qlog2 q + 1)); [lra|]. apply pow2_le. lia.
Qed.

Lemma float64_nonneg (q : Q) : 0 <= q -> 0 <= float64 q.
Proof.
  intros H. apply Qle_lteq in H as [H|H].
  - rewrite (float64_positive H).
    apply Qmult_le_0_compat; [|apply Qlt_le_weak, pow2_pos].
    change 0 with (inject_Z 0). rewrite <- Zle_Qle. apply (significand_bounds H).
  - rewrite float64_zero by now symmetry. apply Qle_refl.
Qed.

(** Rounding keeps the order of the non-negative numbers. *)
Lemma float64_monotone (p q : Q) : 0 <= p -> p <= q -> float64 p <= float64 q.
Proof.
  intros Hp H. apply Qle_lteq in Hp as [Hp|Hp].
  2:{ rewrite (float64_zero (q := p)) by now symmetry. apply float64_nonneg. lra. }
  assert (Hq : 0 < q) by lra.
  rewrite (float64_positive Hp), (float64_positive Hq).
  pose proof (Qlog2_monotone Hp H) as LM.
  pose proof (pow2_pos (last_place p)) as Pp. pose proof (pow2_pos (last_place q)) as Pq.
  destruct (Z.eq_dec (last_place p) (last_place q)) as [E|N].
  - rewrite E. apply Qmult_le_compat_r; [|lra].
    rewrite <- Zle_Qle. apply round_half_even_monotone.
    apply Qle_shift_div_l; [exact Pq|].
    unfold Qdiv. rewrite <- Qmult_assoc, (Qmult_comm (/ _)), Qmult_inv_r by lra. lra.
  - assert (L : (last_place p + 1 <= last_place q)%Z) by (unfold last_place in *; lia).
    assert (Eq : last_place q = (Qlog2 q - 52)%Z) by (unfold last_place in *; lia).
    destruct (significand_bounds Hp) as [_ Kp].
    apply Qle_trans with (pow2 53 * pow2 (last_place p)).
    + apply Qmult_le_compat_r; [|lra]. rewrite (@pow2_Z 53) by lia.
      now rewrite <- Zle_Qle.
    + apply Qle_trans with (pow2 52 * pow2 (last_place q)).
      * rewrite <- !pow2_plus. apply pow2_le. lia.
      * apply Qmult_le_compat_r; [|lra]. rewrite (@pow2_Z 52) by lia.
        rewrite <- Zle_Qle. apply round_half_even_above.
        rewrite <- (@pow2_Z 52) by lia.
        apply Qle_shift_div_l; [exact Pq|]. rewrite <- pow2_plus.
        destruct (Qlog2_pos Hq) as [Lq _].
        replace (52 + last_place q)%Z with (Qlog2 q) by lia. exact Lq.
Qed.

(** A number whose last place is not below the one float64 gives it is a
    float64. *)
Lemma float64_exact (q : Q) (k e : Z) :
  0 < q -> q == inject_Z k * pow2 e -> (last_place q <= e)%Z -> float64 q == q.
Proof.
  intros Hq E L. rewrite (float64_positive Hq).
  set (l := last_place q) in *. clearbody l.
  pose proof (pow2_pos l) as P.
  assert (Pe : pow2 e == pow2 (e - l) * pow2 l).
  { rewrite <- pow2_plus. now replace (e - l + l)%Z with e by lia. }
  assert (D : q / pow2 l == inject_Z (k * 2 ^ (e - l))).
  { rewrite inject_Z_mult, <- (@pow2_Z (e - l)) by lia.
    rewrite E, Pe. field. lra. }
  rewrite (round_half_even_comp D), round_half_even_Z.
  rewrite inject_Z_mult, <- (@pow2_Z (e - l)) by lia.
  rewrite E, Pe. ring.
Qed.

(** Rounding twice is rounding once. *)
Lemma float64_idempotent (q : Q) : 0 <= q -> float64 (float64 q) == float64 q.
Proof.
  intros H. apply Qle_lteq in H as [H|H].
  2:{ rewrite (float64_zero (q := q)) by now symmetry. reflexivity. }
  pose proof (float64_nonneg (Qlt_le_weak _ _ H)) as N.
  apply Qle_lteq in N as [N|N].
  2:{ rewrite (float64_zero (q := float64 q)) by now symmetry. exact N. }
  destruct (significand_bounds H) as [K0 K1].
  destruct (last_place_bounds q) as [B _].
  pose proof (float64_positive H) as F.
  set (K := round_half_even (q / pow2 (last_place q))) in *.
  set (e := last_place q) in *.
  destruct (Z.eq_dec K (2 ^ 53)) as [E|NE].
  - apply float64_exact with (2 ^ 52)%Z (e + 1)%Z; [exact N | |].
    + rewrite F, E, pow2_succ, <- !pow2_Z by lia.
      change (pow2 53) with (2 * pow2 52). ring.
    + assert (U : float64 q < pow2 (e + 54)).
      { rewrite F, E, <- pow2_Z, <- pow2_plus by lia. apply pow2_lt. lia. }
      pose proof (@Qlog2_below _ _ N U). unfold last_place. lia.
  - apply float64_exact with K e; [exact N | now rewrite F |].
    assert (U : float64 q < pow2 (e + 53)).
    { rewrite F, (Z.add_comm e), pow2_plus. apply Qmult_lt_compat_r; [apply pow2_pos|].
      rewrite pow2_Z by lia. rewrite <- Zlt_Qlt. lia. }
    pose proof (@Qlog2_below _ _ N U). unfold last_place. lia.
Qed.

Lemma float64_unit_roundoff (x : Q) (k : Z) :
  0 <= x -> x == inject_Z k * pow2 (-1074) ->
  (1 - unit_roundoff) * x <= float64 x /\ float64 x <= (1 + unit_roundoff) * x.
Proof.
  intros H0 Hk. assert (U : 0 < unit_roundoff) by apply pow2_pos.
  apply Qle_lteq in H0 as [H|H].
  2:{ rewrite (float64_zero (q := x)) by now symmetry. rewrite <- H. split; lra. }
  destruct (Z_le_gt_dec (Qlog2 x - 52) (-1074)) as [Sub|Nor].
  - assert (E : float64 x == x).
    { apply float64_exact with k (-1074)%Z; [exact H | exact Hk |].
      unfold last_place. lia. }
    rewrite E. split; nra.
  - rewrite (float64_positive H).
    assert (L : last_place x = (Qlog2 x - 52)%Z) by (unfold last_place; lia).
    rewrite L.
    destruct (round_half_even_close (x / pow2 (Qlog2 x - 52))) as [Lo Hi].
    destruct (Qlog2_pos H) as [Lx _].
    pose proof (pow2_pos (Qlog2 x - 52)) as P.
    assert (Half : pow2 (Qlog2 x - 52) == 2 * (pow2 (Qlog2 x) * unit_roundoff)).
    { unfold unit_roundoff. rewrite <- pow2_plus, <- pow2_succ.
      now replace (Qlog2 x + -53 + 1)%Z with (Qlog2 x - 52)%Z by lia. }
    assert (X : x / pow2 (Qlog2 x - 52) * pow2 (Qlog2 x - 52) == x) by (field; lra).
    revert Lo Hi Lx P Half X U.
    generalize (inject_Z (round_half_even (x / pow2 (Qlog2 x - 52)))).
    generalize (x / pow2 (Qlog2 x - 52)) (pow2 (Qlog2 x - 52)) (pow2 (Qlog2 x))
      unit_roundoff.
    intros y p e u K Lo Hi Lx P Half X U. split; nra.
Qed.

Lemma float64_multiple (q : Q) :
  0 <= q -> exists k, float64 q == inject_Z k * pow2 (-1074).
Proof.
  intros H. apply Qle_lteq in H as [H|H].
  - rewrite (float64_positive H). destruct (last_place_bounds q) as [B _].
    exists (round_half_even (q / pow2 (last_place q)) * 2 ^ (last_place q + 1074))%Z.
    rewrite inject_Z_mult, <- (@pow2_Z (last_place q + 1074)) by lia.
    rewrite <- Qmult_assoc, <- pow2_plus.
    now replace (last_place q + 1074 + -1074)%Z with (last_place q) by lia.
  - exists 0%Z. rewrite float64_zero by now symmetry. ring.
Qed.

(** ** Sums of rounded numbers *)

Lemma Qpower_succ (q : Q) (n : nat) : q ^ Z.of_nat (S n) == q * q ^ Z.of_nat n.
Proof.
  rewrite Nat2Z.inj_succ. unfold Z.succ.
  destruct (Qeq_dec q 0) as [E|N].
  - rewrite E, Qpower_0 by lia. ring.
  - rewrite Qpower_plus by exact N. rewrite Qpower_1_r. ring.
Qed.

Lemma Qpower_weak (q : Q) (n m : nat) :
  0 <= q -> q <= 1 -> (n <= m)%nat -> 0 <= q ^ Z.of_nat m /\ q ^ Z.of_nat m <= q ^ Z.of_nat n.
Proof.
  intros H0 H1 L. induction L as [|m L IH].
  - split; [now apply Qpower_0_le | apply Qle_refl].
  - rewrite Qpower_succ. destruct IH as [A B]. split; nra.
Qed.

Lemma Qpower_grow (q : Q) (n m : nat) :
  1 <= q -> (n <= m)%nat -> 1 <= q ^ Z.of_nat n /\ q ^ Z.of_nat n <= q ^ Z.of_nat m.
Proof.
  intros H1 L.
  assert (G : forall k, 1 <= q ^ Z.of_nat k).
  { intros k. apply Qpower_1_le; [exact H1 | lia]. }
  split; [apply G|]. induction L as [|m L IH]; [apply Qle_refl|].
  rewrite Qpower_succ. specialize (G m). nra.
Qed.

Lemma Qsum_app (l1 l2 : list Q) : Qsum (l1 ++ l2) == Qsum l1 + Qsum l2.
Proof.
  induction l1 as [|a l1 IH]; simpl; [ring|]. rewrite IH. ring.
Qed.

Lemma Qsum_firstn_skipn (n : nat) (l : list Q) :
  Qsum (firstn n l) + Qsum (skipn n l) == Qsum l.
Proof.
  rewrite <- Qsum_app. now rewrite firstn_skipn.
Qed.

Section Summation.

Variable rnd : Q -> Q.
Variable u : Q.

Hypothesis rnd_zero : rnd 0 == 0.
Hypothesis rnd_monotone : forall x y, 0 <= x -> x <= y -> rnd x <= rnd y.
Hypothesis rnd_idempotent : forall x, 0 <= x -> rnd (rnd x) == rnd x.
Hypothesis u_range : 0 <= u /\ u < 1.
Hypothesis rnd_error :
  forall x y, rounded_value rnd x -> rounded_value rnd y ->
    (1 - u) * (x + y) <= rnd (x + y) /\ rnd (x + y) <= (1 + u) * (x + y).

Lemma rnd_nonneg (x : Q) : 0 <= x -> 0 <= rnd x.
Proof.
  intros H. rewrite <- rnd_zero. apply rnd_monotone; [apply Qle_refl | exact H].
Qed.

Lemma rnd_comp (x y : Q) : 0 <= x -> x == y -> rnd x == rnd y.
Proof.
  intros H E. apply Qle_antisym; apply rnd_monotone; lra.
Qed.

Lemma rounded_value_rnd (x : Q) : 0 <= x -> rounded_value rnd (rnd x).
Proof.
  intros H. split; [now apply rnd_nonneg | now apply rnd_idempotent].
Qed.

Lemma rounded_value_zero : rounded_value rnd 0.
Proof. split; [apply Qle_refl | exact rnd_zero]. Qed.

Lemma rounded_value_comp (x y : Q) : x == y -> rounded_value rnd x -> rounded_value rnd y.
Proof.
  intros E [H0 H]. split; [lra|]. rewrite <- E at 2. rewrite <- H.
  symmetry. apply rnd_comp; [exact H0 | exact E].
Qed.

Lemma add_zero_l (x : Q) : rounded_value rnd x -> Rounded.add rnd 0 x == x.
Proof.
  intros [H0 H]. unfold Rounded.add. rewrite <- H at 2.
  apply rnd_comp; lra.
Qed.

Lemma add_rounded (x y : Q) : 0 <= x -> 0 <= y -> rounded_value rnd (Rounded.add rnd x y).
Proof.
  intros Hx Hy. apply rounded_value_rnd. lra.
Qed.

Lemma add_monotone (x x' y : Q) :
  0 <= x -> 0 <= y -> x <= x' -> Rounded.add rnd x y <= Rounded.add rnd x' y.
Proof.
  intros Hx Hy H. apply rnd_monotone; lra.
Qed.

(** *** The sum stays within the roundings *)

Lemma sum_up_to_leaf (x : Q) : rounded_value rnd x -> sum_up_to rnd u 0 x x.
Proof.
  intros H. split; [exact H|]. destruct H as [H _].
  change (Z.of_nat 0) with 0%Z. rewrite !Qpower_0_r. repeat split; lra.
Qed.

Lemma sum_up_to_weaken (d d' : nat) (S x : Q) :
  (d <= d')%nat -> sum_up_to rnd u d S x -> sum_up_to rnd u d' S x.
Proof.
  intros L (R & S0 & Lo & Hi). split; [exact R|]. split; [exact S0|].
  destruct (@Qpower_weak (1 - u) d d') as [A B]; [lra | lra | exact L |].
  destruct (@Qpower_grow (1 + u) d d') as [C D]; [lra | exact L |].
  split; nra.
Qed.

Lemma sum_up_to_comp (d : nat) (S S' x x' : Q) :
  S == S' -> x == x' -> sum_up_to rnd u d S x -> sum_up_to rnd u d S' x'.
Proof.
  intros ES Ex (R & S0 & Lo & Hi).
  split; [exact (rounded_value_comp Ex R)|]. rewrite <- ES, <- Ex. auto.
Qed.

Lemma sum_up_to_add (d : nat) (S1 S2 x1 x2 : Q) :
  sum_up_to rnd u d S1 x1 -> sum_up_to rnd u d S2 x2 ->
  sum_up_to rnd u (S d) (S1 + S2) (Rounded.add rnd x1 x2).
Proof.
  intros (R1 & A1 & Lo1 & Hi1) (R2 & A2 & Lo2 & Hi2).
  destruct (rnd_error R1 R2) as [Lo Hi].
  destruct R1 as [P1 _], R2 as [P2 _].
  split; [now apply add_rounded|]. split; [lra|].
  rewrite !Qpower_succ. unfold Rounded.add.
  assert (A : 0 <= (1 - u) ^ Z.of_nat d) by (apply Qpower_0_le; lra).
  assert (B : 0 <= (1 + u) ^ Z.of_nat d) by (apply Qpower_0_le; lra).
  revert Lo Hi Lo1 Hi1 Lo2 Hi2 A B.
  generalize (rnd (x1 + x2)) ((1 - u) ^ Z.of_nat d) ((1 + u) ^ Z.of_nat d).
  intros r a b Lo Hi Lo1 Hi1 Lo2 Hi2 A B. split; nra.
Qed.

Lemma sum_in_order_enclosed (rest : list Q) (d : nat) (S res : Q) :
  sum_up_to rnd u d S res -> Forall (rounded_value rnd) rest ->
  sum_up_to rnd u (d + length rest) (S + Qsum rest) (Rounded.sum_in_order rnd res rest).
Proof.
  intros H F. revert d S res H. induction F as [|a rest Ha _ IH]; intros d S res H.
  - simpl. rewrite Nat.add_0_r. apply sum_up_to_comp with S res; [ring | reflexivity | exact H].
  - simpl. replace (d + Datatypes.S (length rest))%nat with (Datatypes.S d + length rest)%nat by lia.
    apply sum_up_to_comp with (S + a + Qsum rest)
        (Rounded.sum_in_order rnd (Rounded.add rnd res a) rest);
      [ring | reflexivity |].
    apply IH. apply sum_up_to_add; [exact H|].
    apply sum_up_to_weaken with 0%nat; [lia | now apply sum_up_to_leaf].
Qed.

Lemma add_block_enclosed (d : nat) (Ss r block : list Q) :
  Forall2 (sum_up_to rnd u d) Ss r -> Forall (rounded_value rnd) block ->
  length block = length r ->
  exists Ss',
    Forall2 (sum_up_to rnd u (S d)) Ss' (Rounded.add_block rnd r block) /\
    Qsum Ss' == Qsum Ss + Qsum block.
Proof.
  intros F. revert block. induction F as [|s x Ss r H _ IH]; intros block B L.
  - destruct block; [|discriminate L]. exists []. split; [constructor | simpl; ring].
  - destruct block as [|a block]; [discriminate L|].
    inversion B as [|a' block' Ha B']; subst.
    destruct (IH block B' ltac:(simpl in L; lia)) as (Ss' & F' & E).
    exists (s + a :: Ss'). split.
    + simpl. constructor; [|exact F'].
      apply sum_up_to_add; [exact H|].
      apply sum_up_to_weaken with 0%nat; [lia | now apply sum_up_to_leaf].
    + simpl. rewrite E. ring.
Qed.

Lemma add_block_length (r block : list Q) :
  length (Rounded.add_block rnd r block) = length r.
Proof.
  revert block. induction r as [|x r IH]; intros [|a block]; simpl; auto.
Qed.

Lemma Forall_firstn {A} (P : A -> Prop) (n : nat) (l : list A) :
  Forall P l -> Forall P (firstn n l).
Proof.
  intros F. revert n. induction F as [|a l H _ IH]; intros [|n]; simpl; auto.
Qed.

Lemma Forall_skipn {A} (P : A -> Prop) (n : nat) (l : list A) :
  Forall P l -> Forall P (skipn n l).
Proof.
  intros F. revert n. induction F as [|a l H F IH]; intros [|n]; simpl; auto.
Qed.

Lemma running_sums_enclosed (blocks d : nat) (Ss r a : list Q) :
  Forall2 (sum_up_to rnd u d) Ss r -> length r = 8%nat ->
  Forall (rounded_value rnd) a ->
  exists Ss' b,
    let (r', rest) := Rounded.running_sums rnd blocks r a in
    Forall2 (sum_up_to rnd u (d + b)) Ss' r' /\ length r' = 8%nat /\
    Forall (rounded_value rnd) rest /\
    (8 * b + length rest = length a)%nat /\
    Qsum Ss' + Qsum rest == Qsum Ss + Qsum a.
Proof.
  revert d Ss r a. induction blocks as [|blocks IH]; intros d Ss r a F L Fa.
  - exists Ss, 0%nat. cbn [Rounded.running_sums]. rewrite Nat.add_0_r. repeat split; auto; try reflexivity.
  - cbn [Rounded.running_sums]. destruct (8 <=? length a)%nat eqn:E.
    + apply Nat.leb_le in E.
      destruct (@add_block_enclosed d Ss r (firstn 8 a) F (Forall_firstn 8 Fa))
        as (Ss1 & F1 & E1); [rewrite length_firstn; lia|].
      assert (L1 : length (Rounded.add_block rnd r (firstn 8 a)) = 8%nat).
      { now rewrite add_block_length. }
      destruct (IH (S d) Ss1 _ (skipn 8 a) F1 L1 (Forall_skipn 8 Fa)) as (Ss' & b & H).
      exists Ss', (S b).
      destruct (Rounded.running_sums rnd blocks _ (skipn 8 a)) as [r' rest].
      destruct H as (F' & L' & Fr & Hb & Hs).
      replace (d + S b)%nat with (S d + b)%nat by lia.
      split; [exact F'|]. split; [exact L'|]. split; [exact Fr|].
      split; [rewrite length_skipn in Hb; lia|].
      rewrite Hs, E1, <- (Qsum_firstn_skipn 8 a). ring.
    + exists Ss, 0%nat. rewrite Nat.add_0_r. repeat split; auto; try reflexivity.
Qed.

Lemma Forall2_leaves (l : list Q) :
  Forall (rounded_value rnd) l -> Forall2 (sum_up_to rnd u 0) l l.
Proof.
  induction 1 as [|a l H _ IH]; constructor; [now apply sum_up_to_leaf | exact IH].
Qed.

Lemma sum_block_enclosed (a : list Q) :
  (8 <= length a)%nat -> Forall (rounded_value rnd) a ->
  sum_up_to rnd u (length a - 1) (Qsum a) (Rounded.sum_block rnd a).
Proof.
  intros L F. unfold Rounded.sum_block.
  destruct (@running_sums_enclosed (length a) 0 (firstn 8 a) (firstn 8 a) (skipn 8 a)
              (Forall2_leaves (Forall_firstn 8 F)))
    as (Ss & b & H); [rewrite length_firstn; lia | now apply Forall_skipn |].
  destruct (Rounded.running_sums rnd (length a) (firstn 8 a) (skipn 8 a)) as [r rest].
  destruct H as (F' & L' & Fr & Hb & Hs). simpl in F'.
  destruct r as [|r0 [|r1 [|r2 [|r3 [|r4 [|r5 [|r6 [|r7 [|]]]]]]]]]; try discriminate L'.
  inversion F' as [|s0 ? Ss0 ? H0 F0]; subst. inversion F0 as [|s1 ? Ss1 ? H1 F1]; subst.
  inversion F1 as [|s2 ? Ss2 ? H2 F2]; subst. inversion F2 as [|s3 ? Ss3 ? H3 F3]; subst.
  inversion F3 as [|s4 ? Ss4 ? H4 F4]; subst. inversion F4 as [|s5 ? Ss5 ? H5 F5]; subst.
  inversion F5 as [|s6 ? Ss6 ? H6 F6]; subst. inversion F6 as [|s7 ? Ss7 ? H7 F7]; subst.
  inversion F7; subst. cbn [nth].
  pose proof (sum_up_to_add (sum_up_to_add (sum_up_to_add H0 H1) (sum_up_to_add H2 H3))
                (sum_up_to_add (sum_up_to_add H4 H5) (sum_up_to_add H6 H7))) as T.
  pose proof (sum_in_order_enclosed T Fr) as R.
  rewrite length_skipn in Hb.
  apply sum_up_to_weaken with (S (S (S b)) + length rest)%nat; [lia|].
  eapply sum_up_to_comp; [| reflexivity | exact R].
  rewrite <- (Qsum_firstn_skipn 8 a), <- Hs. simpl. ring.
Qed.

Lemma short_sum_enclosed (a : list Q) :
  Forall (rounded_value rnd) a ->
  sum_up_to rnd u (length a - 1) (Qsum a) (Rounded.sum_in_order rnd 0 a).
Proof.
  intros F. destruct F as [|x a Hx F].
  - simpl. apply sum_up_to_leaf, rounded_value_zero.
  - simpl. replace (length a - 0)%nat with (0 + length a)%nat by lia.
    apply sum_in_order_enclosed; [|exact F].
    apply sum_up_to_comp with x x; [reflexivity | | now apply sum_up_to_leaf].
    symmetry. now apply add_zero_l.
Qed.

Lemma pairwise_sum_enclosed (depth : nat) (a : list Q) :
  Forall (rounded_value rnd) a ->
  sum_up_to rnd u (length a - 1) (Qsum a) (Rounded.pairwise_sum rnd depth a).
Proof.
  revert a. induction depth as [|depth IH]; intros a F.
  - cbn [Rounded.pairwise_sum].
    destruct (length a <? 8)%nat eqn:E8; [now apply short_sum_enclosed|].
    apply Nat.ltb_ge in E8.
    destruct (length a <=? 128)%nat; now apply sum_block_enclosed.
  - cbn [Rounded.pairwise_sum].
    destruct (length a <? 8)%nat eqn:E8; [now apply short_sum_enclosed|].
    apply Nat.ltb_ge in E8.
    destruct (length a <=? 128)%nat eqn:E128; [now apply sum_block_enclosed|].
    apply Nat.leb_gt in E128.
    set (n2 := (length a / 2 - (length a / 2) mod 8)%nat).
    assert (N2 : (1 <= n2 /\ n2 < length a)%nat).
    { unfold n2. pose proof (Nat.mod_upper_bound (length a / 2) 8 ltac:(lia)).
      pose proof (Nat.div_mod_eq (length a) 2).
      pose proof (Nat.mod_upper_bound (length a) 2 ltac:(lia)).
      lia. }
    pose proof (IH _ (Forall_firstn n2 F)) as H1.
    pose proof (IH _ (Forall_skipn n2 F)) as H2.
    rewrite length_firstn in H1. rewrite length_skipn in H2.
    apply sum_up_to_weaken with (S (length a - 2)); [lia|].
    eapply sum_up_to_comp; [apply Qsum_firstn_skipn | reflexivity |].
    apply sum_up_to_add; eapply sum_up_to_weaken; [|exact H1| |exact H2]; lia.
Qed.

(** More levels than the column needs change nothing. *)
Lemma pairwise_sum_depth (d1 d2 : nat) (a : list Q) :
  (length a <= d1)%nat -> (length a <= d2)%nat ->
  Rounded.pairwise_sum rnd d1 a = Rounded.pairwise_sum rnd d2 a.
Proof.
  revert d2 a. induction d1 as [|d1 IH]; intros d2 a L1 L2.
  - destruct a; [|simpl in L1; lia]. destruct d2; reflexivity.
  - destruct d2 as [|d2].
    + destruct a; [reflexivity | simpl in L2; lia].
    + cbn [Rounded.pairwise_sum].
      destruct (length a <? 8)%nat; [reflexivity|].
      destruct (length a <=? 128)%nat eqn:E128; [reflexivity|].
      apply Nat.leb_gt in E128.
      set (n2 := (length a / 2 - (length a / 2) mod 8)%nat).
      assert (N2 : (1 <= n2 /\ n2 < length a)%nat).
      { unfold n2. pose proof (Nat.mod_upper_bound (length a / 2) 8 ltac:(lia)).
        pose proof (Nat.div_mod_eq (length a) 2).
        pose proof (Nat.mod_upper_bound (length a) 2 ltac:(lia)).
        lia. }
      rewrite (IH d2 (firstn n2 a)), (IH d2 (skipn n2 a));
        rewrite ?length_firstn, ?length_skipn; try lia.
      reflexivity.
Qed.

(** The sum numpy returns for a column of rounded non-negative numbers is
    their sum, but for the roundings of fewer additions in a row than the
    column has values. *)
Lemma ndarray_sum_enclosed (a : list Q) :
  Forall (rounded_value rnd) a ->
  sum_up_to rnd u (length a - 1) (Qsum a) (Rounded.ndarray_sum rnd a).
Proof.
  intros F. pose proof (pairwise_sum_enclosed (length a) F) as H.
  apply sum_up_to_comp with (Qsum a) (Rounded.pairwise_sum rnd (length a) a);
    [reflexivity | | exact H].
  symmetry. apply add_zero_l. apply H.
Qed.

(** *** Fewer than 8 values are added in order *)

Lemma sum_in_order_nonneg (a : list Q) (res : Q) :
  0 <= res -> Forall (fun x => 0 <= x) a -> 0 <= Rounded.sum_in_order rnd res a.
Proof.
  intros H F. revert res H. induction F as [|x a Hx _ IH]; intros res H; simpl;
    [exact H|].
  apply IH. apply rnd_nonneg. lra.
Qed.

Lemma sum_in_order_selection {A} (t : A -> Q) (p1 p2 : A -> bool) (l : list A)
    (s1 s2 : Q) :
  (forall x, p2 x = true -> p1 x = true) ->
  Forall (fun x => 0 <= t x) l ->
  rounded_value rnd s2 -> s2 <= s1 ->
  Rounded.sum_in_order rnd s2 (map t (filter p2 l))
  <= Rounded.sum_in_order rnd s1 (map t (filter p1 l)).
Proof.
  intros Hp F. revert s1 s2. induction F as [|x l Hx _ IH]; intros s1 s2 R H.
  - exact H.
  - destruct R as [R0 R]. cbn [filter]. destruct (p2 x) eqn:E2.
    + rewrite (Hp x E2). cbn [map Rounded.sum_in_order fold_left].
      apply IH; [apply add_rounded; lra | apply add_monotone; lra].
    + destruct (p1 x); cbn [map Rounded.sum_in_order fold_left].
      * apply IH; [now split|].
        rewrite <- R. apply rnd_monotone; lra.
      * apply IH; [now split | exact H].
Qed.

Lemma ndarray_sum_short (a : list Q) :
  (length a < 8)%nat ->
  Rounded.ndarray_sum rnd a = Rounded.add rnd 0 (Rounded.sum_in_order rnd 0 a).
Proof.
  intros L. unfold Rounded.ndarray_sum.
  apply Nat.ltb_lt in L.
  destruct (length a) as [|n] eqn:E; cbn [Rounded.pairwise_sum]; rewrite E, L; reflexivity.
Qed.

(** *** The tonnage column *)

Lemma tonnage_column (df : DataFrame) :
  Rounded.zero_filled (map Tonnage (map (Rounded.with_tonnage rnd) df))
  = map (tonnage_of rnd) df.
Proof.
  unfold Rounded.zero_filled. rewrite !map_map. reflexivity.
Qed.

Lemma tonnage_present (df : DataFrame) :
  Forall (fun r => nonneg (Volume_approx r)) df ->
  dropna_values (map Tonnage (map (Rounded.with_tonnage rnd) df))
  = map (tonnage_of rnd) df.
Proof.
  induction 1 as [|r df Hr _ IH]; [reflexivity|].
  cbn [map]. unfold tonnage_of at 1. cbn [Rounded.with_tonnage Tonnage].
  unfold nonneg in Hr. destruct (Volume_approx r) as [|v]; [contradiction|].
  simpl. now f_equal.
Qed.

Lemma tonnage_rounded (r : Row) :
  nonneg (Volume_approx r) -> rounded_value rnd (tonnage_of rnd r).
Proof.
  unfold nonneg, tonnage_of. cbn [Rounded.with_tonnage Tonnage].
  destruct (Volume_approx r) as [|v]; [contradiction|]. intros Hv. simpl.
  apply rounded_value_rnd.
  apply Qmult_le_0_compat; [exact Hv|]. apply rnd_nonneg. discriminate.
Qed.

Lemma tonnages_rounded (df : DataFrame) (p : Row -> bool) :
  Forall (fun r => nonneg (Volume_approx r)) df ->
  Forall (rounded_value rnd) (map (tonnage_of rnd) (filter p df)).
Proof.
  induction 1 as [|r df Hr _ IH]; simpl; [constructor|].
  destruct (p r); [|exact IH]. constructor; [now apply tonnage_rounded | exact IH].
Qed.

(** The total of the summary is the sum of the tonnages of the ore rows,
    but for the roundings. *)
Lemma total_tonnage_enclosed (df : DataFrame) (cutoff : Q) :
  Forall (fun r => nonneg (Volume_approx r)) df ->
  let (reserves, ore_data) := Rounded.calculate_ore_reserves rnd df cutoff in
  exists t,
    total_tonnage reserves = Fin t /\
    sum_up_to rnd u (ore_blocks reserves - 1)
      (Qsum (dropna_values (map Tonnage ore_data))) t.
Proof.
  intros H. unfold Rounded.calculate_ore_reserves. cbv zeta.
  cbn [total_tonnage ore_blocks]. unfold Rounded.series_sum.
  eexists. split; [reflexivity|].
  assert (F : Forall (fun r => nonneg (Volume_approx r)) (filter (ore_mask cutoff) df)).
  { apply Forall_forall. intros r Hr. apply filter_In in Hr as [Hr _].
    rewrite Forall_forall in H. now apply H. }
  rewrite tonnage_column, (tonnage_present F), !length_map.
  rewrite <- (length_map (tonnage_of rnd)).
  apply ndarray_sum_enclosed. now apply tonnages_rounded.
Qed.

Lemma tonnage_selection (df : DataFrame) (c1 c2 : Q) :
  Forall (fun r => nonneg (Volume_approx r)) df -> c1 <= c2 ->
  Qsum (map (tonnage_of rnd) (filter (ore_mask c2) df))
  <= Qsum (map (tonnage_of rnd) (filter (ore_mask c1) df)).
Proof.
  intros H Hc. induction H as [|r df Hr _ IH]; simpl; [apply Qle_refl|].
  destruct (tonnage_rounded r Hr) as [T0 _].
  destruct (ore_mask c2 r) eqn:E2.
  - rewrite (ore_mask_antitone r Hc E2). simpl. lra.
  - destruct (ore_mask c1 r); simpl; lra.
Qed.

Lemma filter_length_le {A} (p1 p2 : A -> bool) (l : list A) :
  (forall x, p2 x = true -> p1 x = true) ->
  (length (filter p2 l) <= length (filter p1 l))%nat.
Proof.
  intros Hp. induction l as [|x l IH]; simpl; [lia|].
  destruct (p2 x) eqn:E2; [rewrite (Hp x E2); simpl; lia|].
  destruct (p1 x); simpl; lia.
Qed.

(** With fewer than 8 ore rows the column is added in order, and the total
    does not rise with the cutoff. *)
Lemma total_tonnage_in_order (df : DataFrame) (c1 c2 : Q) :
  Forall (fun r => nonneg (Volume_approx r)) df -> c1 <= c2 ->
  (length (filter (ore_mask c1) df) < 8)%nat ->
  Rounded.ndarray_sum rnd (map (tonnage_of rnd) (filter (ore_mask c2) df))
  <= Rounded.ndarray_sum rnd (map (tonnage_of rnd) (filter (ore_mask c1) df)).
Proof.
  intros H Hc L.
  assert (Hp : forall r, ore_mask c2 r = true -> ore_mask c1 r = true)
    by (intros r; now apply ore_mask_antitone).
  pose proof (filter_length_le (ore_mask c1) (ore_mask c2) df Hp) as L2.
  rewrite !ndarray_sum_short by (rewrite length_map; lia).
  assert (T0 : Forall (fun r => 0 <= tonnage_of rnd r) df).
  { eapply Forall_impl; [|exact H]. intros r Hr. now apply tonnage_rounded. }
  pose proof (@sum_in_order_selection Row (tonnage_of rnd) (ore_mask c1) (ore_mask c2)
                df 0 0 Hp T0 rounded_value_zero (Qle_refl 0)) as M.
  assert (N : 0 <= Rounded.sum_in_order rnd 0
                     (map (tonnage_of rnd) (filter (ore_mask c2) df))).
  { apply sum_in_order_nonneg; [apply Qle_refl|].
    rewrite Forall_forall. intros x Hx. apply in_map_iff in Hx as (r & <- & Hr).
    apply filter_In in Hr as [Hr _]. rewrite Forall_forall in T0. now apply T0. }
  unfold Rounded.add. apply rnd_monotone; lra.
Qed.

End Summation.

(** *** float64 is such a rounding *)

Lemma float64_0 : float64 0 == 0.
Proof. reflexivity. Qed.

Lemma unit_roundoff_range : 0 <= unit_roundoff /\ unit_roundoff < 1.
Proof.
  unfold unit_roundoff. split; [apply Qlt_le_weak, pow2_pos|].
  change 1 with (pow2 0). now apply pow2_lt.
Qed.

Lemma float64_rounded_multiple (x : Q) :
  rounded_value float64 x -> exists k, x == inject_Z k * pow2 (-1074).
Proof.
  intros [H0 H]. destruct (float64_multiple H0) as [k Hk].
  exists k. now rewrite <- H.
Qed.

Lemma float64_error (x y : Q) :
  rounded_value float64 x -> rounded_value float64 y ->
  (1 - unit_roundoff) * (x + y) <= float64 (x + y) /\
  float64 (x + y) <= (1 + unit_roundoff) * (x + y).
Proof.
  intros Hx Hy.
  destruct (float64_rounded_multiple Hx) as [kx Ex].
  destruct (float64_rounded_multiple Hy) as [ky Ey].
  destruct Hx as [Hx _], Hy as [Hy _].
  apply float64_unit_roundoff with (kx + ky)%Z; [lra|].
  rewrite inject_Z_plus, Ex, Ey. ring.
Qed.

Lemma exact_error (x y : Q) :
  rounded_value exact x -> rounded_value exact y ->
  (1 - 0) * (x + y) <= exact (x + y) /\ exact (x + y) <= (1 + 0) * (x + y).
Proof. intros _ _. unfold exact. split; lra. Qed.

Lemma filter_nested {A} (p1 p2 : A -> bool) (l : list A) :
  (forall x, p2 x = true -> p1 x = true) ->
  filter p2 (filter p1 l) = filter p2 l.
Proof.
  intros Hp. induction l as [|x l IH]; simpl; [reflexivity|].
  destruct (p1 x) eqn:E1; simpl.
  - now rewrite IH.
  - destruct (p2 x) eqn:E2; [|exact IH]. rewrite (Hp x E2) in E1. discriminate.
Qed.

Lemma ore_rows_rounded (rnd : Q -> Q) (df : DataFrame) :
  map ore_row (map (Rounded.with_tonnage rnd) df) = df.
Proof.
  rewrite map_map. apply map_id.
Qed.

(** With exact arithmetic the total is the sum, whatever the order of the
    additions. *)
Lemma exact_total (df : DataFrame) (cutoff : Q) :
  Forall (fun r => nonneg (Volume_approx r)) df ->
  exists t,
    total_tonnage (fst (Rounded.calculate_ore_reserves exact df cutoff)) = Fin t /\
    t == Qsum (map (tonnage_of exact) (filter (ore_mask cutoff) df)).
Proof.
  intros Hdf.
  pose proof (@total_tonnage_enclosed exact 0 (Qeq_refl 0)
                (fun x y _ H => H) (fun x _ => Qeq_refl x)
                (conj (Qle_refl 0) (eq_refl : 0 < 1)) exact_error df cutoff Hdf) as H.
  assert (F : Forall (fun r => nonneg (Volume_approx r)) (filter (ore_mask cutoff) df)).
  { apply Forall_forall. intros r Hr. apply filter_In in Hr as [Hr _].
    rewrite Forall_forall in Hdf. now apply Hdf. }
  unfold Rounded.calculate_ore_reserves in *. cbv zeta in H. cbn [fst] in *.
  destruct H as (t & Ht & _ & _ & Lo & Hi).
  exists t. split; [exact Ht|].
  rewrite (tonnage_present exact F) in Lo, Hi.
  cbn [ore_blocks] in Lo, Hi.
  set (d := Z.of_nat _) in Lo, Hi.
  assert (P1 : (1 - 0) ^ d == 1)
    by (rewrite (Qpower_comp (1 - 0) 1 ltac:(ring) _ _ eq_refl); apply Qpower_1).
  assert (P2 : (1 + 0) ^ d == 1)
    by (rewrite (Qpower_comp (1 + 0) 1 ltac:(ring) _ _ eq_refl); apply Qpower_1).
  rewrite P1 in Lo. rewrite P2 in Hi. lra.
Qed.

(** C2, as the code has it.  On a table whose volume proxies are all
    non-negative and for cutoffs [c1 <= c2], the ore rows at [c2] are those
    of the ore rows at [c1] that reach [c2], there are no more of them, and
    the sum of their tonnages, taken exactly, is at most the sum at [c1].
    The total that [calculate_ore_reserves] reports is that sum computed in
    float64 by numpy: for [n] ore rows it lies within a factor
    [(1 - 2^-53)^(n-1)] below and [(1 + 2^-53)^(n-1)] above the exact sum,
    at every cutoff.  So the reported total does not rise with the cutoff
    but for these roundings; it does not rise at all when fewer than 8 rows
    reach [c1], numpy adding such a column in order, nor when the numbers
    are taken exactly. *)
Theorem total_tonnage_monotone_up_to_rounding (df : DataFrame) (c1 c2 : Q) :
  Forall (fun r => nonneg (Volume_approx r)) df ->
  c1 <= c2 ->
  let reserves := fun c => fst (Rounded.calculate_ore_reserves float64 df c) in
  let ore_data := fun c => snd (Rounded.calculate_ore_reserves float64 df c) in
  let tonnage := fun c => Qsum (dropna_values (map Tonnage (ore_data c))) in
  map ore_row (ore_data c2) = filter (ore_mask c2) (map ore_row (ore_data c1)) /\
  (ore_blocks (reserves c2) <= ore_blocks (reserves c1))%nat /\
  tonnage c2 <= tonnage c1 /\
  (forall c, reported_within (ore_blocks (reserves c) - 1) (tonnage c)
               (total_tonnage (reserves c))) /\
  ((ore_blocks (reserves c1) < 8)%nat ->
   fle (total_tonnage (reserves c2)) (total_tonnage (reserves c1))) /\
  fle (total_tonnage (fst (Rounded.calculate_ore_reserves exact df c2)))
      (total_tonnage (fst (Rounded.calculate_ore_reserves exact df c1))).
Proof.
  intros Hdf Hc. cbv zeta.
  assert (Hp : forall r, ore_mask c2 r = true -> ore_mask c1 r = true)
    by (intros r; now apply ore_mask_antitone).
  assert (Hf : forall c, Forall (fun r => nonneg (Volume_approx r))
                           (filter (ore_mask c) df)).
  { intros c. apply Forall_forall. intros r Hr. apply filter_In in Hr as [Hr _].
    rewrite Forall_forall in Hdf. now apply Hdf. }
  split; [|split; [|split; [|split; [|split]]]].
  - unfold Rounded.calculate_ore_reserves. cbn [snd].
    rewrite !ore_rows_rounded. symmetry. now apply filter_nested.
  - unfold Rounded.calculate_ore_reserves. cbn [fst ore_blocks].
    rewrite !length_map. now apply filter_length_le.
  - unfold Rounded.calculate_ore_reserves. cbn [snd].
    rewrite !(tonnage_present float64 (Hf _)).
    exact (@tonnage_selection float64 float64_0 float64_monotone float64_idempotent
             df c1 c2 Hdf Hc).
  - intros c.
    pose proof (@total_tonnage_enclosed float64 unit_roundoff float64_0
                  float64_monotone float64_idempotent unit_roundoff_range float64_error
                  df c Hdf) as H.
    destruct (Rounded.calculate_ore_reserves float64 df c) as [reserves ore_data].
    cbn [fst snd]. destruct H as (t & -> & _ & _ & Lo & Hi). now split.
  - unfold Rounded.calculate_ore_reserves. cbn [fst ore_blocks total_tonnage].
    rewrite !length_map. intros L. unfold Rounded.series_sum, fle.
    rewrite !tonnage_column.
    exact (@total_tonnage_in_order float64 float64_0 float64_monotone
             float64_idempotent df c1 c2 Hdf Hc L).
  - destruct (@exact_total df c1 Hdf) as (t1 & E1 & S1).
    destruct (@exact_total df c2 Hdf) as (t2 & E2 & S2).
    rewrite E1, E2. unfold fle. rewrite S1, S2.
    exact (@tonnage_selection exact (Qeq_refl 0) (fun x y _ H => H)
             (fun x _ => Qeq_refl x) df c1 c2 Hdf Hc).
Qed.

Lemma total_tonnage_monotone_up_to_rounding_witness :
  fle (total_tonnage (fst (Rounded.calculate_ore_reserves float64
         [sample_row 10 100; sample_row 40 200; sample_row 60 300] 50)))
      (total_tonnage (fst (Rounded.calculate_ore_reserves float64
         [sample_row 10 100; sample_row 40 200; sample_row 60 300] 30))).
Proof.
  refine (proj1 (proj2 (proj2 (proj2 (proj2
            (@total_tonnage_monotone_up_to_rounding
               [sample_row 10 100; sample_row 40 200; sample_row 60 300] 30 50 _ _))))) _).
  - repeat constructor; simpl; discriminate.
  - discriminate.
  - vm_compute. lia.
Defined.

(** Against the claim: on the rounding table, whose volume proxies are all
    positive, all nine rows reach the cutoff 10 and numpy adds their
    tonnages pairwise, to 110.7; the seven rows that reach the cutoff 40
    are added in order, to 110.70000000000002. *)
Lemma total_tonnage_rises_with_cutoff :
  Forall (fun r => nonneg (Volume_approx r)) rounding_table /\
  10 <= 40 /\
  exists t1 t2,
    total_tonnage (fst (Rounded.calculate_ore_reserves float64 rounding_table 10))
    = Fin t1 /\
    total_tonnage (fst (Rounded.calculate_ore_reserves float64 rounding_table 40))
    = Fin t2 /\
    t1 == 7789819980467405 # 70368744177664 /\
    t2 == 3894909990233703 # 35184372088832 /\
    t1 < t2 /\
    ~ fle (Fin t2) (Fin t1).
Proof.
  split; [repeat constructor; simpl; discriminate|].
  split; [discriminate|].
  do 2 eexists. split; [reflexivity|]. split; [reflexivity|].
  split; [vm_compute; reflexivity|]. split; [vm_compute; reflexivity|].
  split; [vm_compute; reflexivity|].
  unfold fle. apply Qlt_not_le. vm_compute. reflexivity.
Qed.


(** With [exact] for the rounding the calculator is the idealised one:
    the same ore rows, and the same total whatever the order of the
    additions. *)
Lemma with_tonnage_exact (r : Row) : Rounded.with_tonnage exact r = with_tonnage r.
Proof.
  unfold Rounded.with_tonnage, with_tonnage.
  destruct (Volume_approx r), (Moyenne_U r); reflexivity.
Qed.

Lemma calculate_ore_reserves_exact (df : DataFrame) (cutoff : Q) :
  Forall (fun r => nonneg (Volume_approx r)) df ->
  snd (Rounded.calculate_ore_reserves exact df cutoff)
  = snd (calculate_ore_reserves df cutoff) /\
  exists t t',
    total_tonnage (fst (Rounded.calculate_ore_reserves exact df cutoff)) = Fin t /\
    total_tonnage (fst (calculate_ore_reserves df cutoff)) = Fin t' /\
    t == t'.
Proof.
  intros Hdf.
  assert (E : map (Rounded.with_tonnage exact) (filter (ore_mask cutoff) df)
              = map with_tonnage (filter (ore_mask cutoff) df))
    by (apply map_ext; exact with_tonnage_exact).
  split; [exact E|].
  destruct (@exact_total df cutoff Hdf) as (t & Ht & S).
  assert (F : Forall (fun r => nonneg (Volume_approx r)) (filter (ore_mask cutoff) df)).
  { apply Forall_forall. intros r Hr. apply filter_In in Hr as [Hr _].
    rewrite Forall_forall in Hdf. now apply Hdf. }
  exists t. eexists. split; [exact Ht|]. split; [reflexivity|].
  rewrite S, <- (tonnage_present exact F), E. reflexivity.
Qed.

(** C3.  When every mean grade is strictly below the cutoff, the summary is
    computed all the same: tonnage 0, metal content 0, no ore block, an empty
    ore subset, and the average grade is the missing value, not a number. *)
Theorem calculate_ore_reserves_no_ore (df : DataFrame) (cutoff : Q) :
  Forall (fun r => flt (Moyenne_U r) (Fin cutoff) = true) df ->
  calculate_ore_reserves df cutoff = (mkReserves (Fin 0) NaN (Fin 0) 0, []).
Proof.
  intros Hdf.
  assert (E : filter (ore_mask cutoff) df = []).
  { induction Hdf as [|r df Hr _ IH]; simpl; [reflexivity|].
    unfold ore_mask at 1. now rewrite (flt_not_fge _ _ Hr). }
  unfold calculate_ore_reserves. rewrite E. reflexivity.
Qed.

Lemma calculate_ore_reserves_no_ore_witness :
  calculate_ore_reserves [sample_row 10 100; sample_row 20 200] 30
  = (mkReserves (Fin 0) NaN (Fin 0) 0, []).
Proof.
  apply calculate_ore_reserves_no_ore. repeat constructor.
Defined.

(** * Further properties *)

(** ** Preprocessor: which rows come back, and with what *)

Section PreprocessorRows.

Context {pandas : Pandas} {sklearn : Sklearn}.

Lemma critical_present_complete (r : RawRow) :
  critical_present (to_numeric_row r) = complete r.
Proof. reflexivity. Qed.

Lemma kept_rows_complete (raw : RawFrame) :
  kept_rows raw = map to_numeric_row (filter complete (raw_rows raw)).
Proof.
  unfold kept_rows. induction (raw_rows raw) as [|r rows IH]; simpl; [reflexivity|].
  rewrite critical_present_complete. destruct (complete r); simpl; now rewrite IH.
Qed.

(** The two outcomes of the method on a given table. *)
Lemma preprocess_outcome (raw : RawFrame) (self : MiningDataProcessor) :
  (kept_rows raw = [] /\
   fst (preprocess raw self) = Err (ValueError no_valid_data)) \/
  (kept_rows raw <> [] /\
   exists labels codes,
     length labels = length (kept_rows raw) /\
     (has_Lithologie raw = false -> length codes = length (kept_rows raw)) /\
     (has_Lithologie raw = true ->
      codes = snd (LabelEncoder_fit_transform labels)) /\
     fst (preprocess raw self)
     = Ok (map (derive (series_mean (map n_Longueur (kept_rows raw)))
                  (series_mean (map n_Epaisseur (kept_rows raw))))
             (combine (kept_rows raw) (combine labels codes)))).
Proof.
  unfold preprocess. fold (kept_rows raw).
  destruct (kept_rows raw) as [|r kept] eqn:E; [left; auto|].
  right. split; [discriminate|]. rewrite <- E.
  assert (Hn : (length (kept_rows raw) =? 0)%nat = false) by now rewrite E.
  rewrite Hn.
  destruct (has_Lithologie raw).
  - destruct (LabelEncoder_fit_transform _) as [classes_ codes] eqn:El.
    exists (map (fun r => fill_label (n_Lithologie r)) (kept_rows raw)), codes.
    split; [apply length_map|]. split; [discriminate|].
    split; [intros _; now rewrite El|]. reflexivity.
  - exists (repeat Inconnu (length (kept_rows raw))),
           (repeat 0%nat (length (kept_rows raw))).
    split; [apply repeat_length|]. split; [intros _; apply repeat_length|].
    split; [discriminate|]. reflexivity.
Qed.

Lemma load_sample_data (data_path : option string) (raw : RawFrame)
    (self : MiningDataProcessor) :
  load_and_preprocess_data data_path (Some raw) self = preprocess raw self.
Proof. reflexivity. Qed.

(** Every returned row is derived from a kept row. *)
Lemma preprocess_row_origin (raw : RawFrame) (self : MiningDataProcessor)
    (df : DataFrame) (out : Row) :
  fst (preprocess raw self) = Ok df -> In out df ->
  exists r label code,
    In r (kept_rows raw) /\
    out = derive (series_mean (map n_Longueur (kept_rows raw)))
            (series_mean (map n_Epaisseur (kept_rows raw))) (r, (label, code)).
Proof.
  intros Hdf Hout.
  destruct (preprocess_outcome raw self) as [[_ H]|(_ & labels & codes & _ & _ & _ & H)];
    rewrite H in Hdf; [discriminate|].
  injection Hdf as <-.
  apply in_map_iff in Hout as ([r [label code]] & <- & Hin).
  exists r, label, code. split; [|reflexivity].
  now apply in_combine_l in Hin.
Qed.

Lemma derive_carried (lm em : num) (r : RawRow) (label : string) (code : nat) :
  carried r (derive lm em (to_numeric_row r, (label, code))).
Proof. unfold carried. simpl. repeat split. Qed.

Lemma Forall2_derive (lm em : num) (rows : list RawRow) (lc : list (string * nat)) :
  length lc = length rows ->
  Forall2 carried rows (map (derive lm em) (combine (map to_numeric_row rows) lc)).
Proof.
  revert lc. induction rows as [|r rows IH]; intros [|[label code] lc]; simpl;
    try discriminate; intros H; constructor.
  - apply derive_carried.
  - apply IH. congruence.
Qed.

(** X1.  With an encoder that returns one code per label,
    [load_and_preprocess_data] raises its [ValueError] exactly when no raw row
    has its five critical cells readable; otherwise it returns one row per
    such raw row, in the order of the table, carrying the converted cells of
    that row. *)
Theorem load_and_preprocess_data_complete_rows
    (data_path : option string) (raw : RawFrame) (self : MiningDataProcessor) :
  one_code_per_label sklearn ->
  match fst (load_and_preprocess_data data_path (Some raw) self) with
  | Err e => filter complete (raw_rows raw) = [] /\ e = ValueError no_valid_data
  | Ok df =>
      filter complete (raw_rows raw) <> [] /\
      Forall2 carried (filter complete (raw_rows raw)) df
  end.
Proof.
  intros Hcodes. rewrite load_sample_data.
  pose proof (kept_rows_complete raw) as K.
  destruct (preprocess_outcome raw self)
    as [[E ->]|(Hne & labels & codes & Ll & Lf & Lt & ->)].
  - split; [|reflexivity]. rewrite K in E.
    destruct (filter complete (raw_rows raw)); [reflexivity | discriminate].
  - split.
    + intros E. apply Hne. now rewrite K, E.
    + rewrite K. apply Forall2_derive.
      rewrite K, length_map in Ll, Lf.
      assert (Lc : length codes = length labels).
      { destruct (has_Lithologie raw).
        - rewrite (Lt eq_refl). apply Hcodes.
        - rewrite Ll. now apply Lf. }
      rewrite length_combine, Lc, Ll. apply Nat.min_id.
Qed.

Lemma kept_row_present (raw : RawFrame) (r : NumRow) :
  In r (kept_rows raw) ->
  exists a b c d g,
    n_Debut_EUTM r = Fin a /\ n_Fin_EUTM r = Fin b /\
    n_Debut_NUTM r = Fin c /\ n_Fin_NUTM r = Fin d /\ n_Moyenne_U r = Fin g.
Proof.
  intros H. apply filter_In in H as [_ H]. unfold critical_present in H.
  destruct (n_Debut_EUTM r) as [|a]; [discriminate|].
  destruct (n_Debut_NUTM r) as [|c]; [discriminate|].
  destruct (n_Fin_EUTM r) as [|b]; [discriminate|].
  destruct (n_Fin_NUTM r) as [|d]; [discriminate|].
  destruct (n_Moyenne_U r) as [|g]; [discriminate|].
  now exists a, b, c, d, g.
Qed.

Lemma half_between (a b : Q) :
  a <= b -> a <= (a + b) / 2 /\ (a + b) / 2 <= b.
Proof.
  intros H.
  assert (E : (a + b) / 2 == (a + b) * (1 # 2)) by (unfold Qdiv; reflexivity).
  rewrite E. split; lra.
Qed.

Lemma midpoint_between (a b : Q) :
  midpoint_of (Fin a) (Fin b) (fdiv (fadd (Fin a) (Fin b)) two).
Proof.
  unfold midpoint_of, fdiv, fadd, two.
  change (Qeq_bool 2 0) with false. cbv iota.
  split; [reflexivity|].
  destruct (Q.min_spec a b) as [[H E]|[H E]];
    destruct (Q.max_spec a b) as [[H' E']|[H' E']]; rewrite E, E';
    try solve [exfalso; lra].
  - apply half_between. lra.
  - setoid_replace ((a + b) / 2) with ((b + a) / 2)
      by (apply Qdiv_comp; [ring | reflexivity]).
    apply half_between. lra.
Qed.

(** X2.  In every row that [load_and_preprocess_data] returns the four
    end-point coordinates and the mean grade are present, and the midpoint
    X_mean (Y_mean) is the mean of the two eastings (northings): it lies
    between them. *)
Theorem load_and_preprocess_data_midpoints
    (data_path : option string) (raw : RawFrame) (self : MiningDataProcessor)
    (df : DataFrame) :
  fst (load_and_preprocess_data data_path (Some raw) self) = Ok df ->
  Forall (fun out =>
            midpoint_of (Debut_EUTM out) (Fin_EUTM out) (X_mean out) /\
            midpoint_of (Debut_NUTM out) (Fin_NUTM out) (Y_mean out) /\
            exists g, Moyenne_U out = Fin g)
         df.
Proof.
  rewrite load_sample_data. intros Hdf. apply Forall_forall. intros out Hout.
  destruct (@preprocess_row_origin raw self df out Hdf Hout) as (r & label & code & Hr & ->).
  destruct (@kept_row_present raw r Hr) as (a & b & c & d & g & Ea & Eb & Ec & Ed & Eg).
  cbn [derive Debut_EUTM Fin_EUTM Debut_NUTM Fin_NUTM X_mean Y_mean Moyenne_U].
  rewrite Ea, Eb, Ec, Ed, Eg.
  split; [apply midpoint_between|]. split; [apply midpoint_between|]. now exists g.
Qed.

Lemma Qsum_between (lo hi : Q) (l : list Q) :
  Forall (fun q => lo <= q /\ q <= hi) l ->
  inject_Z (Z.of_nat (length l)) * lo <= Qsum l /\
  Qsum l <= inject_Z (Z.of_nat (length l)) * hi.
Proof.
  induction 1 as [|q l [Hlo Hhi] _ [IHlo IHhi]].
  - simpl. split; rewrite Qmult_0_l; apply Qle_refl.
  - cbn [length Qsum fold_right]. fold (Qsum l). rewrite inject_nat_succ. split; lra.
Qed.

Lemma Qmean_between (lo hi : Q) (l : list Q) :
  l <> [] -> Forall (fun q => lo <= q /\ q <= hi) l ->
  lo <= Qsum l / inject_Z (Z.of_nat (length l)) /\
  Qsum l / inject_Z (Z.of_nat (length l)) <= hi.
Proof.
  intros Hne Hall. destruct (Qsum_between Hall) as [Hlo Hhi].
  destruct l as [|q l]; [congruence|].
  assert (Hn : 0 < inject_Z (Z.of_nat (length (q :: l)))).
  { cbn [length]. rewrite inject_nat_succ. pose proof (inject_nat_nonneg (length l)). lra. }
  split.
  - apply Qle_shift_div_l; [exact Hn|]. now rewrite Qmult_comm.
  - apply Qle_shift_div_r; [exact Hn|]. now rewrite Qmult_comm.
Qed.

Lemma series_mean_within (s : list num) (lo hi : Q) :
  column_bounds s lo hi -> within_bounds lo hi (series_mean s).
Proof.
  intros (Hlo & _ & Hall). unfold series_mean.
  assert (Hvs : Forall (fun q => lo <= q /\ q <= hi) (dropna_values s)).
  { apply Forall_forall. intros q Hq. apply Hall. now apply dropna_values_In. }
  apply dropna_values_In in Hlo.
  destruct (dropna_values s) as [|q vs] eqn:E; [destruct Hlo|].
  apply Qmean_between; [discriminate | exact Hvs].
Qed.

Lemma series_mean_missing (s : list num) :
  series_mean s = NaN <-> forall x, In x s -> x = NaN.
Proof.
  unfold series_mean.
  assert (D : dropna_values s = [] <-> forall x, In x s -> x = NaN).
  { induction s as [|[|q] s IH]; simpl.
    - split; [intros _ x [] | reflexivity].
    - rewrite IH. split; [intros H x [<-|Hx]; auto | intros H x Hx; apply H; now right].
    - split; [discriminate|]. intros H. specialize (H (Fin q) (or_introl eq_refl)).
      discriminate. }
  rewrite <- D. destruct (dropna_values s); split; congruence.
Qed.


End PreprocessorRows.

(** ** Sample data: the other columns, and the table once preprocessed *)

Lemma reference_one_code_per_label : one_code_per_label Reference.sklearn.
Proof. intros y. simpl. apply length_map. Qed.

Section SampleTable.

Context {pandas : Pandas} {numpy : Numpy} {sklearn : Sklearn}.
Hypothesis uniform_range : uniform_in_range numpy.

Lemma create_sample_data_columns (n : nat) :
  length (raw_rows (create_sample_data n)) = n /\
  Forall row_sampled (raw_rows (create_sample_data n)).
Proof.
  unfold create_sample_data, draw_bind, draw_ret.
  pose proof (fun lo hi g i => @at_in_range numpy uniform_range lo hi n g i) as R.
  destruct (uniform 500000 502000 n (seed 42)) as [x_coords g1] eqn:E1.
  destruct (uniform 4500000 4502000 n g1) as [y_coords g2] eqn:E2.
  destruct (uniform 0 100 n g2) as [depths_start g3] eqn:E3.
  destruct (uniform 5 50 n g3) as [depths_delta g4] eqn:E4.
  destruct (choice sample_lithologies n g4) as [lithologies g5].
  destruct (uniform 0 360 n g5) as [directions g6] eqn:E6.
  destruct (uniform 10 200 n g6) as [lengths g7] eqn:E7.
  destruct (uniform (1 # 2) 15 n g7) as [thicknesses g8] eqn:E8.
  destruct (normal 0 10 n g8) as [uranium_noise g9].
  destruct (uniform 0 50 n g9) as [uranium_delta g10] eqn:E10.
  destruct (randint 1 20 n g10) as [tranches g11].
  destruct (uniform (-50) 50 n g11) as [fin_e_delta g12] eqn:E12.
  destruct (uniform (-50) 50 n g12) as [fin_n_delta g13] eqn:E13.
  simpl raw_rows. rewrite length_map, length_seq. split; [reflexivity|].
  apply Forall_forall. intros r Hr.
  apply in_map_iff in Hr as (i & <- & Hi). apply in_seq in Hi.
  assert (Hn : (i < n)%nat) by lia.
  pose proof (R 500000 502000 (seed 42) i eq_refl Hn) as Hx. rewrite E1 in Hx.
  pose proof (R 4500000 4502000 g1 i eq_refl Hn) as Hy. rewrite E2 in Hy.
  pose proof (R 0 100 g2 i eq_refl Hn) as Hs. rewrite E3 in Hs.
  pose proof (R 5 50 g3 i eq_refl Hn) as Hd. rewrite E4 in Hd.
  pose proof (R 0 360 g5 i eq_refl Hn) as Ha. rewrite E6 in Ha.
  pose proof (R 10 200 g6 i eq_refl Hn) as Hl. rewrite E7 in Hl.
  pose proof (R (1 # 2) 15 g7 i eq_refl Hn) as Ht. rewrite E8 in Ht.
  pose proof (R 0 50 g9 i eq_refl Hn) as Hu. rewrite E10 in Hu.
  pose proof (R (-50) 50 g11 i eq_refl Hn) as He. rewrite E12 in He.
  pose proof (R (-50) 50 g12 i eq_refl Hn) as Hn'. rewrite E13 in Hn'.
  simpl in Hx, Hy, Hs, Hd, Ha, Hl, Ht, Hu, He, Hn'.
  constructor; simpl; try (split; lra).
  - apply Q.le_max_l.
  - discriminate.
Qed.

(** X4.  With a generator whose [uniform] keeps to its range, every row of
    [create_sample_data(n)] has its direction in [0, 360], its length in
    [10, 200], its thickness in [0.5, 15], its start depth in [0, 100] and an
    interval of 5 to 50 m below it; its end coordinates are within 50 m of
    its start coordinates, its maximal grade exceeds its mean grade by 50 at
    most, and its lithology is given. *)
Theorem create_sample_data_columns_ranges (n : nat) :
  Forall (fun r =>
            cell_between 0 360 (raw_Direction r) /\
            cell_between 10 200 (raw_Longueur r) /\
            cell_between (1 # 2) 15 (raw_Epaisseur r) /\
            cell_between 0 100 (raw_de_m r) /\
            cell_gap 5 50 (raw_de_m r) (raw_a_m r) /\
            cell_gap (-50) 50 (raw_Debut_EUTM r) (raw_Fin_EUTM r) /\
            cell_gap (-50) 50 (raw_Debut_NUTM r) (raw_Fin_NUTM r) /\
            cell_gap 0 50 (raw_Moyenne_U r) (raw_Max_U r) /\
            raw_Lithologie r <> None)
         (raw_rows (create_sample_data n)).
Proof.
  destruct (create_sample_data_columns n) as [_ Hall].
  eapply Forall_impl; [|exact Hall].
  intros r []. repeat split; tauto.
Qed.

Lemma Qhalf (q : Q) : q / 2 == q * (1 # 2).
Proof. unfold Qdiv. reflexivity. Qed.

Lemma row_sampled_complete (r : RawRow) : row_sampled r -> complete r = true.
Proof.
  intros [He Hn Hfe Hfn _ _ _ _ _ Hg _ _]. unfold complete, readable.
  destruct (raw_Debut_EUTM r); try (exfalso; exact He).
  destruct (raw_Debut_NUTM r); try (exfalso; exact Hn).
  destruct (raw_Fin_EUTM r); try (exfalso; exact Hfe).
  destruct (raw_Fin_NUTM r); try (exfalso; exact Hfn).
  destruct (raw_Moyenne_U r); try (exfalso; exact Hg).
  reflexivity.
Qed.

Lemma filter_all {A} (f : A -> bool) (l : list A) :
  Forall (fun a => f a = true) l -> filter f l = l.
Proof. induction 1 as [|a l H _ IH]; simpl; [reflexivity|]. now rewrite H, IH. Qed.

Lemma derive_sampled (lm em : num) (r : RawRow) (label : string) (code : nat) :
  row_sampled r -> row_of_sample (derive lm em (to_numeric_row r, (label, code))).
Proof.
  intros []. destruct r. simpl in *.
  repeat match goal with
         | c : cell |- _ => destruct c; simpl in *; try contradiction
         end;
    (constructor; cbn -[Qdiv Qmult Qplus Qminus Qle]; unfold fdiv, fadd, two;
     try change (Qeq_bool 2 0) with false; cbv iota; cbn [within_bounds nonneg];
     try rewrite Qhalf; try (split; lra); try assumption);
    match goal with
    | |- _ <= ?l * ?e * 1 /\ _ =>
        assert (0 <= (l - 10) * (e - (1 # 2))) by (apply Qmult_le_0_compat; lra);
        assert (0 <= (200 - l) * e) by (apply Qmult_le_0_compat; lra);
        split; lra
    end.
Qed.

(** X5.  [load_data] on the sample source, with an encoder that returns one
    code per label and a generator whose [uniform] keeps to its range: for
    [n_samples = 0] it raises the [ValueError] of the preprocessor, and for
    any other [n] it returns a table of exactly [n] rows, none dropped, in
    which every midpoint lies within 25 m of the sampled square, every mean
    depth in [2.5, 125], every volume proxy in [5, 3000] and every grade
    gradient in [0, 50]. *)
Theorem load_data_sample (n : nat) (uploaded_file : option string)
    (self : MiningDataProcessor) :
  one_code_per_label sklearn ->
  match fst (load_data sample_source n uploaded_file self) with
  | Err e => n = 0%nat /\ e = ValueError no_valid_data
  | Ok None => False
  | Ok (Some df) => n <> 0%nat /\ length df = n /\ Forall row_of_sample df
  end.
Proof.
  intros Hcodes. unfold load_data. rewrite String.eqb_refl.
  rewrite (surjective_pairing (load_and_preprocess_data _ _ _)).
  rewrite load_sample_data.
  destruct (create_sample_data_columns n) as [Hlen Hall].
  set (raw := create_sample_data n) in *.
  assert (K : kept_rows raw = map to_numeric_row (raw_rows raw)).
  { rewrite kept_rows_complete. f_equal. apply filter_all.
    eapply Forall_impl; [|exact Hall]. apply row_sampled_complete. }
  destruct (preprocess_outcome raw self)
    as [[E ->]|(Hne & labels & codes & Ll & Lf & Lt & ->)]; cbn [fst].
  - split; [|reflexivity]. rewrite K in E. apply map_eq_nil in E.
    now rewrite E in Hlen.
  - rewrite K in *. rewrite length_map in Ll, Lf.
    assert (Lc : length codes = length labels).
    { destruct (has_Lithologie raw).
      - rewrite (Lt eq_refl). apply Hcodes.
      - rewrite Ll. now apply Lf. }
    split; [|split].
    + intros ->. apply Hne. destruct (raw_rows raw); [reflexivity | discriminate].
    + rewrite length_map, !length_combine, length_map, Lc, Ll, Hlen. lia.
    + apply Forall_forall. intros out Hout.
      apply in_map_iff in Hout as ([r' [label code]] & <- & Hin).
      apply in_combine_l in Hin. apply in_map_iff in Hin as (r & <- & Hr).
      apply derive_sampled. rewrite Forall_forall in Hall. now apply Hall.
Qed.

End SampleTable.

(** The statements above on the running example and on the executable
    stand-ins. *)

Lemma load_and_preprocess_data_complete_rows_witness :
  filter (complete (pandas := Reference.pandas)) (raw_rows raw_example) <> [] /\
  Forall2 (carried (pandas := Reference.pandas))
    (filter (complete (pandas := Reference.pandas)) (raw_rows raw_example))
    preprocessed_example.
Proof.
  exact (@load_and_preprocess_data_complete_rows Reference.pandas Reference.sklearn
           None raw_example __init__ reference_one_code_per_label).
Defined.

Lemma load_and_preprocess_data_midpoints_witness :
  Forall (fun out =>
            midpoint_of (Debut_EUTM out) (Fin_EUTM out) (X_mean out) /\
            midpoint_of (Debut_NUTM out) (Fin_NUTM out) (Y_mean out) /\
            exists g, Moyenne_U out = Fin g)
         preprocessed_example.
Proof.
  apply (@load_and_preprocess_data_midpoints Reference.pandas Reference.sklearn
           None raw_example __init__ preprocessed_example).
  reflexivity.
Defined.


Lemma create_sample_data_columns_ranges_witness :
  Forall (fun r =>
            cell_between 0 360 (raw_Direction r) /\
            cell_between 10 200 (raw_Longueur r) /\
            cell_between (1 # 2) 15 (raw_Epaisseur r) /\
            cell_between 0 100 (raw_de_m r) /\
            cell_gap 5 50 (raw_de_m r) (raw_a_m r) /\
            cell_gap (-50) 50 (raw_Debut_EUTM r) (raw_Fin_EUTM r) /\
            cell_gap (-50) 50 (raw_Debut_NUTM r) (raw_Fin_NUTM r) /\
            cell_gap 0 50 (raw_Moyenne_U r) (raw_Max_U r) /\
            raw_Lithologie r <> None)
         (raw_rows (create_sample_data (numpy := Reference.numpy) 3)).
Proof.
  exact (@create_sample_data_columns_ranges Reference.numpy
           reference_uniform_in_range 3).
Defined.

Lemma load_data_sample_witness :
  match fst (load_data (pandas := Reference.pandas) (numpy := Reference.numpy)
               (sklearn := Reference.sklearn) sample_source 2 None __init__) with
  | Err e => 2%nat = 0%nat /\ e = ValueError no_valid_data
  | Ok None => False
  | Ok (Some df) => 2%nat <> 0%nat /\ length df = 2%nat /\ Forall row_of_sample df
  end.
Proof.
  exact (@load_data_sample Reference.pandas Reference.numpy Reference.sklearn
           reference_uniform_in_range 2 None __init__ reference_one_code_per_label).
Defined.

(** ** The processor over its life *)

Section ProcessorLife.

Context {pandas : Pandas} {sklearn : Sklearn}.

Lemma load_and_preprocess_data_frame (data_path : option string)
    (sample_data : option RawFrame) (self : MiningDataProcessor) :
  let self' := snd (load_and_preprocess_data data_path sample_data self) in
  scaler self' = scaler self /\ uranium_model self' = uranium_model self /\
  thickness_model self' = thickness_model self.
Proof.
  cbv zeta. unfold load_and_preprocess_data.
  assert (P : forall table,
             scaler (snd (preprocess table self)) = scaler self /\
             uranium_model (snd (preprocess table self)) = uranium_model self /\
             thickness_model (snd (preprocess table self)) = thickness_model self).
  { intros table. unfold preprocess.
    destruct (length _ =? 0)%nat; [auto|].
    destruct (has_Lithologie table); [|auto].
    destruct (LabelEncoder_fit_transform _). simpl. auto. }
  destruct sample_data as [table|]; [apply P|].
  destruct (read_csv data_path) as [table|e]; [apply P | auto].
Qed.

Lemma spatial_clustering_frame (df : DataFrame) (eps : option Q)
    (min_samples : option nat) (self : MiningDataProcessor) :
  let self' := snd (spatial_clustering df eps min_samples self) in
  label_encoder self' = label_encoder self /\ uranium_model self' = uranium_model self /\
  thickness_model self' = thickness_model self.
Proof.
  cbv zeta. unfold spatial_clustering.
  destruct (StandardScaler_fit_transform _) as [[fitted scaled]|e]; [|auto].
  destruct (DBSCAN_fit_predict _ _ _); simpl; auto.
Qed.

Lemma train_uranium_model_frame (df : DataFrame) (self : MiningDataProcessor) :
  let self' := snd (train_uranium_model df self) in
  scaler self' = scaler self /\ label_encoder self' = label_encoder self /\
  thickness_model self' = thickness_model self.
Proof.
  cbv zeta. unfold train_uranium_model.
  destruct (train_test_split _ _ _) as [[train test]|e]; [|simpl; auto].
  destruct (fit _ _ _) as [[u|e] model]; [|simpl; auto].
  destruct (predict model _) as [y_pred|e]; [|simpl; auto].
  destruct (mean_squared_error _ y_pred) as [m|e]; [|simpl; auto].
  destruct (r2_score _ y_pred) as [r|e]; [|simpl; auto].
  destruct (feature_importances_ model) as [imp|e]; simpl; auto.
Qed.

(** X20.  Whatever calls a processor has been through since it was created,
    failed ones included, its [thickness_model] is still [None]: no method
    ever writes it.  Each method writes one attribute at most: the
    preprocessor the encoder, the clusterer the scaler, the trainer the
    grade model. *)
Theorem thickness_model_never_set (self : MiningDataProcessor) :
  reachable self ->
  thickness_model self = None /\
  (forall data_path sample_data,
     let self' := snd (load_and_preprocess_data data_path sample_data self) in
     scaler self' = scaler self /\ uranium_model self' = uranium_model self) /\
  (forall df eps min_samples,
     let self' := snd (spatial_clustering df eps min_samples self) in
     label_encoder self' = label_encoder self /\
     uranium_model self' = uranium_model self) /\
  (forall df,
     let self' := snd (train_uranium_model df self) in
     scaler self' = scaler self /\ label_encoder self' = label_encoder self).
Proof.
  intros H. split; [|split; [|split]].
  - induction H as [|path sample self _ IH|df eps ms self _ IH|df self _ IH].
    + reflexivity.
    + destruct (load_and_preprocess_data_frame path sample self) as (_ & _ & ->).
      exact IH.
    + destruct (spatial_clustering_frame df eps ms self) as (_ & _ & ->). exact IH.
    + destruct (train_uranium_model_frame df self) as (_ & _ & ->). exact IH.
  - intros path sample.
    destruct (load_and_preprocess_data_frame path sample self) as (A & B & _). auto.
  - intros df eps ms.
    destruct (spatial_clustering_frame df eps ms self) as (A & B & _). auto.
  - intros df.
    destruct (train_uranium_model_frame df self) as (A & B & _). auto.
Qed.

End ProcessorLife.

Lemma thickness_model_never_set_witness :
  thickness_model
    (snd (train_uranium_model (sklearn := Reference.sklearn) three_rows
            (snd (load_and_preprocess_data (pandas := Reference.pandas) None
                    (Some raw_example) __init__))))
  = None.
Proof.
  refine (proj1 (@thickness_model_never_set Reference.pandas Reference.sklearn _ _)).
  apply reach_train, reach_load, reach_init.
Defined.

(** ** Reserve calculator: the summary *)

Lemma ore_rows_filter (df : DataFrame) (cutoff : Q) :
  ore_rows df cutoff = filter (ore_mask cutoff) df.
Proof.
  unfold ore_rows, calculate_ore_reserves. cbn [snd].
  rewrite map_map. apply map_id.
Qed.

Lemma ore_grades (df : DataFrame) (cutoff : Q) :
  exists gs,
    map Moyenne_U (filter (ore_mask cutoff) df) = map Fin gs /\
    Forall (fun g => cutoff <= g) gs.
Proof.
  induction df as [|r df (gs & E & H)]; simpl.
  - exists []. split; [reflexivity | constructor].
  - destruct (ore_mask cutoff r) eqn:M; [|now exists gs].
    apply fge_Fin in M as (g & Hg & Hle).
    exists (g :: gs). simpl. rewrite Hg, E. split; [reflexivity|]. now constructor.
Qed.

Lemma dropna_values_Fin (l : list Q) : dropna_values (map Fin l) = l.
Proof. induction l as [|q l IH]; simpl; [reflexivity | now rewrite IH]. Qed.

Lemma Qmean_at_least (lo : Q) (l : list Q) :
  l <> [] -> Forall (fun q => lo <= q) l ->
  lo <= Qsum l / inject_Z (Z.of_nat (length l)).
Proof.
  intros Hne Hall.
  assert (Hs : inject_Z (Z.of_nat (length l)) * lo <= Qsum l).
  { clear Hne. induction Hall as [|q l Hq _ IH].
    - simpl. rewrite Qmult_0_l. apply Qle_refl.
    - cbn [length Qsum fold_right]. fold (Qsum l). rewrite inject_nat_succ. lra. }
  destruct l as [|q l]; [congruence|].
  apply Qle_shift_div_l.
  - cbn [length]. rewrite inject_nat_succ. pose proof (inject_nat_nonneg (length l)). lra.
  - now rewrite Qmult_comm.
Qed.

Lemma average_grade_missing (df : DataFrame) (cutoff : Q) :
  let reserves := fst (calculate_ore_reserves df cutoff) in
  (average_grade reserves = NaN <-> filter (ore_mask cutoff) df = []) /\
  (forall g, average_grade reserves = Fin g -> cutoff <= g).
Proof.
  unfold calculate_ore_reserves. cbn [fst average_grade].
  rewrite map_map. cbn [ore_row with_tonnage].
  change (map (fun x : Row => Moyenne_U x)) with (map Moyenne_U).
  destruct (ore_grades df cutoff) as (gs & E & Hgs).
  assert (L : length (filter (ore_mask cutoff) df) = length gs).
  { rewrite <- (length_map Moyenne_U), E. apply length_map. }
  rewrite E. unfold series_mean. rewrite dropna_values_Fin.
  destruct gs as [|g0 gs].
  - destruct (filter (ore_mask cutoff) df); [|discriminate L].
    split; [tauto | discriminate].
  - split.
    + split; [discriminate|]. intros F. rewrite F in L. discriminate L.
    + intros g Hg. injection Hg as <-.
      apply (@Qmean_at_least cutoff (g0 :: gs)); [discriminate | exact Hgs].
Qed.

(** X6.  Whatever the table, rows with a missing grade or volume included,
    the average grade of the summary is missing exactly when no row reaches
    the cutoff; it is otherwise a number, and not a negative one when the
    cutoff is not negative. *)
Theorem average_grade_missing_without_ore (df : DataFrame) (cutoff : Q) :
  let reserves := fst (calculate_ore_reserves df cutoff) in
  (average_grade reserves = NaN <-> ore_blocks reserves = 0%nat) /\
  (average_grade reserves = NaN <->
   forall r, In r df -> fge (Moyenne_U r) (Fin cutoff) = false) /\
  (forall g, average_grade reserves = Fin g -> 0 <= cutoff -> 0 <= g).
Proof.
  cbv zeta. destruct (average_grade_missing df cutoff) as [M G].
  split; [|split].
  - rewrite M. unfold calculate_ore_reserves. cbn [fst ore_blocks].
    rewrite length_map. split.
    + now intros ->.
    + now destruct (filter (ore_mask cutoff) df).
  - rewrite M. split.
    + intros E r Hr. apply not_true_iff_false. intros Hm.
      assert (Hin : In r (filter (ore_mask cutoff) df)) by (apply filter_In; auto).
      rewrite E in Hin. destruct Hin.
    + intros H. destruct (filter (ore_mask cutoff) df) as [|r l] eqn:E; [reflexivity|].
      assert (Hin : In r (filter (ore_mask cutoff) df)) by (rewrite E; now left).
      apply filter_In in Hin as [Hin Hm]. unfold ore_mask in Hm.
      rewrite (H r Hin) in Hm. discriminate.
  - intros g Hg Hc. apply Qle_trans with cutoff; [exact Hc | now apply G].
Qed.

Lemma ore_sums (df : DataFrame) (cutoff : Q) :
  Forall (fun r => nonneg (Volume_approx r)) df ->
  cutoff * Qsum (dropna_values (map Tonnage (map with_tonnage (filter (ore_mask cutoff) df))))
  <= ppm * Qsum (dropna_values
                   (map Metal_content (map with_tonnage (filter (ore_mask cutoff) df)))) /\
  0 <= Qsum (dropna_values (map Tonnage (map with_tonnage (filter (ore_mask cutoff) df)))).
Proof.
  induction 1 as [|r df Hr _ [IH IH0]]; simpl.
  - split; [rewrite Qmult_0_r|]; apply Qle_refl.
  - destruct (ore_mask cutoff r) eqn:M; [|now split].
    apply fge_Fin in M as (g & Hg & Hle).
    unfold nonneg in Hr. destruct (Volume_approx r) as [|v] eqn:Ev; [destruct Hr|].
    simpl. rewrite Ev, Hg. simpl.
    change (Qeq_bool ppm 0) with false. cbv iota. simpl.
    assert (Ht : 0 <= v * density) by (apply Qmult_le_0_compat; [exact Hr | discriminate]).
    assert (Hm : 0 <= v * density * (g - cutoff)) by (apply Qmult_le_0_compat; lra).
    assert (Ed : ppm * (v * density * g / ppm) == v * density * g)
      by (field; discriminate).
    split; [|lra].
    rewrite !Qmult_plus_distr_r, Ed. lra.
Qed.

(** X7.  On a table whose volume proxies are all non-negative, the summary's
    tonnage and metal content are numbers and the tonnage is not negative;
    neither is the metal content when the cutoff is not negative. *)
Theorem reserves_summary_nonneg (df : DataFrame) (cutoff : Q) :
  Forall (fun r => nonneg (Volume_approx r)) df ->
  exists t m,
    total_tonnage (fst (calculate_ore_reserves df cutoff)) = Fin t /\
    metal_content (fst (calculate_ore_reserves df cutoff)) = Fin m /\
    0 <= t /\ (0 <= cutoff -> 0 <= m).
Proof.
  intros Hdf. destruct (ore_sums cutoff Hdf) as [H H0].
  unfold calculate_ore_reserves. cbn [fst total_tonnage metal_content]. unfold series_sum.
  eexists _, _. split; [reflexivity|]. split; [reflexivity|]. split; [exact H0|].
  intros Hc.
  assert (P : 0 <= cutoff * Qsum (dropna_values
                 (map Tonnage (map with_tonnage (filter (ore_mask cutoff) df)))))
    by now apply Qmult_le_0_compat.
  unfold ppm in H. lra.
Qed.

(** X8.  For cutoffs [c1 <= c2], running the calculator at [c2] on the ore
    subset it found at [c1] gives the summary and the ore subset it gives at
    [c2] on the whole table, and the block count at [c2] is at most the block
    count at [c1]. *)
Theorem calculate_ore_reserves_nested (df : DataFrame) (c1 c2 : Q) :
  c1 <= c2 ->
  calculate_ore_reserves (ore_rows df c1) c2 = calculate_ore_reserves df c2 /\
  (ore_blocks (fst (calculate_ore_reserves df c2))
   <= ore_blocks (fst (calculate_ore_reserves df c1)))%nat.
Proof.
  intros Hc.
  assert (W : forall r, ore_mask c2 r = true -> ore_mask c1 r = true)
    by (intros r; now apply ore_mask_antitone).
  split.
  - rewrite ore_rows_filter. unfold calculate_ore_reserves.
    now rewrite (filter_nested _ _ df W).
  - unfold calculate_ore_reserves. cbn [fst ore_blocks]. rewrite !length_map.
    now apply filter_length_le.
Qed.

(** ** Clustering, then reserves *)

Lemma set_Cluster_filter {B} (f : Row -> B) (p : Row -> bool)
    (df : DataFrame) (labels : list Z) :
  (forall r l, f (set_Cluster (r, l)) = f r) ->
  (forall r l, p (set_Cluster (r, l)) = p r) ->
  length df = length labels ->
  map f (filter p (map set_Cluster (combine df labels))) = map f (filter p df).
Proof.
  intros Hf Hp. revert labels.
  induction df as [|r df IH]; intros [|l labels]; cbn [combine map filter length];
    try discriminate; [reflexivity|].
  intros L. rewrite Hp. destruct (p r); cbn [map]; [rewrite Hf; f_equal|]; apply IH; congruence.
Qed.

Section ClusterThenReserves.

Context {sklearn : Sklearn}.

(** X9.  When the clusterer returns a label for every row, the reserves
    summary of the clustered table is the summary of the table before
    clustering, at every cutoff, and the ore rows are the same rows with
    their label added. *)
Theorem reserves_after_clustering (df : DataFrame) (eps : option Q)
    (min_samples : option nat) (self : MiningDataProcessor)
    (clustered : DataFrame) (cutoff : Q) :
  fst (spatial_clustering df eps min_samples self) = Ok clustered ->
  length clustered = length df ->
  fst (calculate_ore_reserves clustered cutoff) = fst (calculate_ore_reserves df cutoff) /\
  map Tonnage (snd (calculate_ore_reserves clustered cutoff))
  = map Tonnage (snd (calculate_ore_reserves df cutoff)) /\
  map Metal_content (snd (calculate_ore_reserves clustered cutoff))
  = map Metal_content (snd (calculate_ore_reserves df cutoff)) /\
  Forall (fun o => Cluster (ore_row o) <> None)
    (snd (calculate_ore_reserves clustered cutoff)).
Proof.
  unfold spatial_clustering.
  destruct (StandardScaler_fit_transform _) as [[fitted scaled]|e]; [|discriminate].
  destruct (DBSCAN_fit_predict _ _ _) as [labels|e]; [|discriminate].
  cbn [fst]. intros E L. injection E as <-.
  rewrite length_map, length_combine in L.
  assert (L' : (length df <= length labels)%nat) by lia.
  assert (Ec : combine df labels = combine df (firstn (length df) labels)).
  { clear L. revert labels L'. induction df as [|r df IH]; intros [|l labels] L';
      simpl in *; try reflexivity; try lia. f_equal. apply IH. lia. }
  assert (Lf : length df = length (firstn (length df) labels))
    by (rewrite length_firstn; lia).
  rewrite Ec. set (ls := firstn (length df) labels) in *.
  assert (T : map Tonnage (map with_tonnage
                (filter (ore_mask cutoff) (map set_Cluster (combine df ls))))
              = map Tonnage (map with_tonnage (filter (ore_mask cutoff) df))).
  { rewrite !map_map. now apply set_Cluster_filter. }
  assert (M : map Metal_content (map with_tonnage
                (filter (ore_mask cutoff) (map set_Cluster (combine df ls))))
              = map Metal_content (map with_tonnage (filter (ore_mask cutoff) df))).
  { rewrite !map_map. now apply set_Cluster_filter. }
  assert (G : map (fun o => Moyenne_U (ore_row o)) (map with_tonnage
                (filter (ore_mask cutoff) (map set_Cluster (combine df ls))))
              = map (fun o => Moyenne_U (ore_row o))
                  (map with_tonnage (filter (ore_mask cutoff) df))).
  { rewrite !map_map. now apply set_Cluster_filter. }
  unfold calculate_ore_reserves. cbn [fst snd].
  rewrite T, M, G. split; [|split; [reflexivity|split; [reflexivity|]]].
  - f_equal. rewrite <- (length_map Tonnage), T. now rewrite length_map.
  - apply Forall_forall. intros o Ho.
    apply in_map_iff in Ho as (r & <- & Hr). apply filter_In in Hr as [Hr _].
    apply in_map_iff in Hr as ([r0 l] & <- & _). discriminate.
Qed.

End ClusterThenReserves.

Lemma reserves_summary_nonneg_witness :
  exists t m,
    total_tonnage (fst (calculate_ore_reserves three_rows 30)) = Fin t /\
    metal_content (fst (calculate_ore_reserves three_rows 30)) = Fin m /\
    0 <= t /\ (0 <= 30 -> 0 <= m).
Proof.
  apply reserves_summary_nonneg.
  repeat constructor; simpl; discriminate.
Defined.

Lemma calculate_ore_reserves_nested_witness :
  calculate_ore_reserves (ore_rows three_rows 30) 50 = calculate_ore_reserves three_rows 50 /\
  (ore_blocks (fst (calculate_ore_reserves three_rows 50))
   <= ore_blocks (fst (calculate_ore_reserves three_rows 30)))%nat.
Proof.
  apply calculate_ore_reserves_nested. discriminate.
Defined.

Lemma reserves_after_clustering_witness :
  fst (calculate_ore_reserves clustered_example 30)
  = fst (calculate_ore_reserves cluster_table 30) /\
  map Tonnage (snd (calculate_ore_reserves clustered_example 30))
  = map Tonnage (snd (calculate_ore_reserves cluster_table 30)) /\
  map Metal_content (snd (calculate_ore_reserves clustered_example 30))
  = map Metal_content (snd (calculate_ore_reserves cluster_table 30)) /\
  Forall (fun o => Cluster (ore_row o) <> None)
    (snd (calculate_ore_reserves clustered_example 30)).
Proof.
  apply (@reserves_after_clustering Reference.sklearn cluster_table (Some 600) None
           __init__ clustered_example 30).
  - reflexivity.
  - reflexivity.
Defined.

(** ** The reserves tab: cutoff sweep and optimal cutoff *)

Lemma arange_nth (start stop step : Z) (i : nat) (c : Z) :
  nth_error (arange start stop step) i = Some c -> c = (start + Z.of_nat i * step)%Z.
Proof.
  unfold arange. rewrite nth_error_map.
  destruct (nth_error (seq 0 _) i) as [j|] eqn:E; [|discriminate].
  simpl. intros H. injection H as <-.
  pose proof (nth_error_Some (seq 0 (Z.to_nat ((stop - start + step - 1) / step))) i) as L.
  rewrite E in L. assert (Hi : (i < length (seq 0 (Z.to_nat ((stop - start + step - 1) / step))))%nat)
    by (apply L; discriminate).
  rewrite length_seq in Hi. rewrite nth_error_seq in E.
  apply Nat.ltb_lt in Hi. rewrite Hi in E. injection E as <-. reflexivity.
Qed.


Lemma argmax_from_spec (vs : list Q) :
  forall (i : nat) (best : option (nat * Q)),
    match best with Some (j, _) => (j < i)%nat | None => vs <> [] end ->
    exists k p,
      argmax_from (map Fin vs) i best = Some (k, p) /\
      (best = Some (k, p) \/ ((i <= k)%nat /\ nth_error vs (k - i) = Some p)) /\
      (forall j b, best = Some (j, b) -> b <= p /\ (b == p -> k = j)) /\
      (forall m v, nth_error vs m = Some v -> v <= p /\ (v == p -> (k <= i + m)%nat)).
Proof.
  induction vs as [|v vs IH]; intros i best Hbest.
  - destruct best as [[j b]|]; [|congruence].
    exists j, b. simpl. split; [reflexivity|]. split; [now left|]. split.
    + intros j' b' E. injection E as <- <-. split; [apply Qle_refl | reflexivity].
    + intros m v Hm. destruct m; discriminate.
  - cbn [map argmax_from].
    assert (Hnew :
      exists k p,
        argmax_from (map Fin vs) (S i) (Some (i, v)) = Some (k, p) /\
        ((i <= k)%nat /\ nth_error (v :: vs) (k - i) = Some p) /\
        (forall m v', nth_error (v :: vs) m = Some v' ->
           v' <= p /\ (v' == p -> (k <= i + m)%nat))).
    { destruct (IH (S i) (Some (i, v))) as (k & p & E & O & B & D); [lia|].
      exists k, p. split; [exact E|].
      destruct (B i v eq_refl) as [Bv Bk]. split.
      - destruct O as [O|[O1 O2]].
        + injection O as <- <-. split; [lia|]. now rewrite Nat.sub_diag.
        + split; [lia|]. replace (k - i)%nat with (S (k - S i)) by lia. exact O2.
      - intros [|m] v' Hm.
        + injection Hm as <-. split; [exact Bv|]. intros Ev. rewrite (Bk Ev). lia.
        + destruct (D m v' Hm) as [D1 D2]. split; [exact D1|].
          intros Ev. specialize (D2 Ev). lia. }
    destruct best as [[j b]|].
    + destruct (Qle_bool v b) eqn:Evb.
      * apply Qle_bool_iff in Evb.
        destruct (IH (S i) (Some (j, b))) as (k & p & E & O & B & D); [lia|].
        exists k, p. split; [exact E|].
        destruct (B j b eq_refl) as [Bb Bk]. split; [|split].
        -- destruct O as [O|[O1 O2]]; [now left|right].
           split; [lia|]. replace (k - i)%nat with (S (k - S i)) by lia. exact O2.
        -- intros j' b' Ej. injection Ej as <- <-. split; assumption.
        -- intros [|m] v' Hm.
           ++ injection Hm as <-. split; [lra|].
              intros Ev. assert (Eb : b == p) by lra. rewrite (Bk Eb). lia.
           ++ destruct (D m v' Hm) as [D1 D2]. split; [exact D1|].
              intros Ev. specialize (D2 Ev). lia.
      * assert (Hlt : b < v).
        { apply Qnot_le_lt. intros H. apply Qle_bool_iff in H. congruence. }
        destruct Hnew as (k & p & E & O & D).
        exists k, p. split; [exact E|]. split; [now right|]. split; [|exact D].
        intros j' b' Ej. injection Ej as <- <-.
        destruct (D 0%nat v eq_refl) as [Dv _]. split; [lra|]. intros Eb. lra.
    + destruct Hnew as (k & p & E & O & D).
      exists k, p. split; [exact E|]. split; [now right|]. split; [|exact D].
      intros j b Ej. discriminate.
Qed.

Lemma Profit_value (df : DataFrame) (e : Economics) (c : Z) :
  exists p, Profit e (reserve_line df c) = Fin p.
Proof.
  unfold Profit, Valeur_brute, Cout_total, recovery, reserve_line, calculate_ore_reserves.
  cbn [fst Tonnage_t Contenu_metal_t total_tonnage metal_content]. unfold series_sum.
  change (Qeq_bool 100 0) with false. cbv iota. simpl. eauto.
Qed.

Lemma map_values {A} (f : A -> num) (l : list A) :
  (forall a, exists q, f a = Fin q) ->
  exists vs, map f l = map Fin vs /\ Forall2 (fun a q => f a = Fin q) l vs.
Proof.
  intros H. induction l as [|a l (vs & E & F)].
  - exists []. split; [reflexivity | constructor].
  - destruct (H a) as [q Hq]. exists (q :: vs). simpl. rewrite Hq, E.
    split; [reflexivity | now constructor].
Qed.

Lemma Forall2_nth {A B} (R : A -> B -> Prop) (l1 : list A) (l2 : list B) :
  Forall2 R l1 l2 ->
  (forall i a, nth_error l1 i = Some a -> exists b, nth_error l2 i = Some b /\ R a b) /\
  (forall i b, nth_error l2 i = Some b -> exists a, nth_error l1 i = Some a /\ R a b).
Proof.
  induction 1 as [|a b l1 l2 Hab _ [IH1 IH2]]; split; intros [|i] x Hx;
    try discriminate; simpl in *.
  - injection Hx as <-. eauto.
  - now apply IH1.
  - injection Hx as <-. eauto.
  - now apply IH2.
Qed.

(** X10.  The optimal cutoff the reserves tab reports always exists and is
    one of the ten swept cutoffs 10, 20, ..., 100; the profit at it is at
    least the profit at every swept cutoff, and where several cutoffs give
    that greatest profit it is the lowest of them. *)
Theorem optimal_cutoff_maximises (df : DataFrame) (e : Economics) :
  exists c p,
    optimal_cutoff df e = Some c /\
    In c cutoff_grades /\
    Profit e (reserve_line df c) = Fin p /\
    forall c', In c' cutoff_grades ->
      exists p', Profit e (reserve_line df c') = Fin p' /\
                 p' <= p /\ (p' == p -> (c <= c')%Z).
Proof.
  destruct (@map_values Z (fun c => Profit e (reserve_line df c)) cutoff_grades)
    as (vs & E & F); [intros c; apply Profit_value|].
  destruct (Forall2_nth F) as [F1 F2].
  assert (Hne : vs <> []).
  { intros ->. inversion F. }
  destruct (argmax_from_spec vs 0 None Hne) as (k & p & A & O & _ & D).
  destruct O as [O|[_ O]]; [discriminate|]. rewrite Nat.sub_0_r in O.
  destruct (F2 k p O) as (c & Hc & Hp).
  exists c, p. split; [|split; [|split]].
  - unfold optimal_cutoff, idxmax, reserve_data. cbv zeta.
    rewrite map_map, E, A. cbn [option_map fst].
    rewrite nth_error_map, Hc. reflexivity.
  - eapply nth_error_In; exact Hc.
  - exact Hp.
  - intros c' Hc'. apply In_nth_error in Hc' as [j Hj].
    destruct (F1 j c' Hj) as (p' & Hp' & Hv).
    exists p'. split; [exact Hv|]. destruct (D j p' Hp') as [D1 D2].
    split; [exact D1|]. intros Ep. specialize (D2 Ep).
    apply arange_nth in Hc, Hj. subst c c'. nia.
Qed.

Lemma reserve_data_nth (df : DataFrame) (i : nat) (line : ReserveLine) :
  nth_error (reserve_data df) i = Some line ->
  line = reserve_line df (10 + Z.of_nat i * 10).
Proof.
  unfold reserve_data. rewrite nth_error_map.
  destruct (nth_error cutoff_grades i) as [c|] eqn:E; [|discriminate].
  intros H. injection H as <-. now rewrite (arange_nth _ _ _ _ E).
Qed.

Lemma reserve_line_exhausted (df : DataFrame) (c : Z) :
  filter (ore_mask (inject_Z c)) df = [] ->
  reserve_line df c = mkReserveLine c (Fin 0) NaN (Fin 0).
Proof.
  intros E. unfold reserve_line, calculate_ore_reserves. now rewrite E.
Qed.

(** X11.  The reserve table of the tab has ten lines, for the cutoffs 10 to
    100 in steps of 10.  A line shows a missing average grade exactly when
    no row of the table reaches its cutoff; its tonnage and its metal
    content are then 0, and so it is on every line further down. *)
Theorem reserve_data_exhausted (df : DataFrame) :
  map Teneur_de_coupure (reserve_data df) = [10; 20; 30; 40; 50; 60; 70; 80; 90; 100]%Z /\
  forall i li,
    nth_error (reserve_data df) i = Some li ->
    (Teneur_moyenne_ppm li = NaN <->
     forall r, In r df ->
       fge (Moyenne_U r) (Fin (inject_Z (Teneur_de_coupure li))) = false) /\
    (Teneur_moyenne_ppm li = NaN ->
     forall j lj, (i <= j)%nat -> nth_error (reserve_data df) j = Some lj ->
       Tonnage_t lj = Fin 0 /\ Teneur_moyenne_ppm lj = NaN /\
       Contenu_metal_t lj = Fin 0).
Proof.
  split; [reflexivity|].
  intros i li Hi. apply reserve_data_nth in Hi. subst li.
  set (ci := (10 + Z.of_nat i * 10)%Z).
  destruct (average_grade_missing df (inject_Z ci)) as [M _].
  assert (Empty : filter (ore_mask (inject_Z ci)) df = [] <->
                  forall r, In r df -> fge (Moyenne_U r) (Fin (inject_Z ci)) = false).
  { split.
    - intros E r Hr. apply not_true_iff_false. intros Hm.
      assert (Hin : In r (filter (ore_mask (inject_Z ci)) df)) by (apply filter_In; auto).
      rewrite E in Hin. destruct Hin.
    - intros H. destruct (filter (ore_mask (inject_Z ci)) df) as [|r l] eqn:E;
        [reflexivity|].
      assert (Hin : In r (filter (ore_mask (inject_Z ci)) df)) by (rewrite E; now left).
      apply filter_In in Hin as [Hin Hm]. unfold ore_mask in Hm.
      rewrite (H r Hin) in Hm. discriminate. }
  cbn [reserve_line Teneur_moyenne_ppm Teneur_de_coupure]. split.
  - rewrite <- Empty. exact M.
  - intros Hnan j lj Hij Hj. apply reserve_data_nth in Hj. subst lj.
    apply M in Hnan.
    assert (Hc : inject_Z ci <= inject_Z (10 + Z.of_nat j * 10)).
    { rewrite <- Zle_Qle. unfold ci. nia. }
    assert (Ej : filter (ore_mask (inject_Z (10 + Z.of_nat j * 10))) df = []).
    { rewrite <- (filter_nested (ore_mask (inject_Z ci)) _ df).
      - now rewrite Hnan.
      - intros r. now apply ore_mask_antitone. }
    rewrite (reserve_line_exhausted df _ Ej). now repeat split.
Qed.

Lemma reserve_data_exhausted_witness :
  Tonnage_t (reserve_line three_rows 90) = Fin 0 /\
  Teneur_moyenne_ppm (reserve_line three_rows 90) = NaN /\
  Contenu_metal_t (reserve_line three_rows 90) = Fin 0.
Proof.
  destruct (reserve_data_exhausted three_rows) as [_ D].
  destruct (D 6%nat _ eq_refl) as [_ E].
  exact (E eq_refl 8%nat _ (le_S _ _ (le_S _ _ (le_n 6))) eq_refl).
Defined.

(** ** Visualizer *)

Section VisualizerProperties.

Context {python : Python} {plotly : Plotly} {series : PandasSeries}.

Lemma ore_waste_count (df : DataFrame) (cutoff : Q) :
  (length (filter (fun r => fge (Moyenne_U r) (Fin cutoff)) df)
   + length (filter (fun r => flt (Moyenne_U r) (Fin cutoff)) df))%nat
  = length (dropna_values (map Moyenne_U df)).
Proof.
  induction df as [|r df IH]; simpl; [reflexivity|].
  destruct (Moyenne_U r) as [|g]; simpl; [exact IH|].
  destruct (Qle_bool cutoff g); simpl; lia.
Qed.


Lemma waste_rows_spec (df : DataFrame) (cutoff : Q) (r : Row) :
  In r (waste_rows df cutoff) <->
  In r df /\ exists g, Moyenne_U r = Fin g /\ g < cutoff.
Proof.
  unfold waste_rows. rewrite filter_In. now rewrite flt_Fin.
Qed.

(** X12.  The ore body figure draws every row that has a grade exactly once,
    and no other row.  The rows at or above the cutoff, the ore subset of
    the reserve calculator, make the ore trace, in the order of the table:
    their midpoints, coloured by grade and sized by thickness.  The rows
    whose grade is below the cutoff make the gray waste trace that follows
    it, at their midpoints.  A trace is left out when it would be empty, so
    the figure has no trace at all on a table without grades. *)
Theorem create_ore_body_visualization_split (df : DataFrame) (cutoff : Q) :
  let fig := create_ore_body_visualization df (Some cutoff) in
  points_in Plain fig = length (dropna_values (map Moyenne_U df)) /\
  (forall r, In r (waste_rows df cutoff) <->
             In r df /\ exists g, Moyenne_U r = Fin g /\ g < cutoff) /\
  exists ore_traces waste_traces,
    data fig = ore_traces ++ waste_traces /\
    match ore_rows df cutoff with
    | [] => ore_traces = []
    | ore => exists t, ore_traces = [(t, Plain)] /\ is_ore_trace ore t
    end /\
    match waste_rows df cutoff with
    | [] => waste_traces = []
    | waste => exists t, waste_traces = [(t, Plain)] /\ is_waste_trace waste t
    end.
Proof.
  cbv zeta. split; [|split; [apply waste_rows_spec|]].
  - unfold create_ore_body_visualization, points_in. cbn [keyword].
    pose proof (ore_waste_count df cutoff) as C.
    destruct (filter (fun r => fge (Moyenne_U r) (Fin cutoff)) df) as [|o ore];
      destruct (filter (fun r => flt (Moyenne_U r) (Fin cutoff)) df) as [|w waste];
      cbn [length Nat.ltb Nat.leb app data] in *; simpl; rewrite ?length_map;
      simpl in C; lia.
  - unfold create_ore_body_visualization. cbn [keyword].
    rewrite ore_rows_filter. unfold ore_mask, waste_rows.
    destruct (filter (fun r => fge (Moyenne_U r) (Fin cutoff)) df) as [|o ore];
      destruct (filter (fun r => flt (Moyenne_U r) (Fin cutoff)) df) as [|w waste];
      cbn [length Nat.ltb Nat.leb app data].
    + exists [], []. auto.
    + eexists [], [_]. split; [reflexivity|]. split; [reflexivity|].
      eexists. split; [reflexivity|]. cbn. repeat split.
    + eexists [_], []. split; [reflexivity|]. split; [|reflexivity].
      eexists. split; [reflexivity|].
      cbn [is_ore_trace marker_color marker_size]. rewrite !length_map. repeat split.
    + eexists [_], [_]. split; [reflexivity|]. split.
      * eexists. split; [reflexivity|].
        cbn [is_ore_trace marker_color marker_size]. rewrite !length_map. repeat split.
      * eexists. split; [reflexivity|]. cbn. repeat split.
Qed.

(** *** The grade-tonnage curve *)

Lemma curve_point_reserves (df : DataFrame) (g : Q) :
  filter (ore_mask g) df <> [] ->
  curve_point df (Fin g)
  = (total_tonnage (fst (calculate_ore_reserves df g)),
     average_grade (fst (calculate_ore_reserves df g))).
Proof.
  intros Hne. unfold curve_point, calculate_ore_reserves.
  change (fun r : Row => fge (Moyenne_U r) (Fin g)) with (ore_mask g).
  destruct (filter (ore_mask g) df) as [|o ore] eqn:E; [congruence|].
  cbn [length Nat.ltb Nat.leb fst total_tonnage average_grade].
  rewrite !map_map. reflexivity.
Qed.

Lemma ore_at_most_greatest (df : DataFrame) (g lo hi : Q) :
  column_bounds (map Moyenne_U df) lo hi -> g <= hi -> filter (ore_mask g) df <> [].
Proof.
  intros (_ & Hhi & _) Hg E.
  apply in_map_iff in Hhi as (r & Hr & Hin).
  assert (M : ore_mask g r = true) by (apply fge_Fin; eauto).
  assert (Hf : In r (filter (ore_mask g) df)) by (apply filter_In; auto).
  rewrite E in Hf. destruct Hf.
Qed.

Lemma step_within (lo hi : Q) (n i : nat) :
  lo <= hi -> (i < n)%nat ->
  lo <= lo + inject_Z (Z.of_nat i) * ((hi - lo) / (inject_Z (Z.of_nat n) - 1)) /\
  lo + inject_Z (Z.of_nat i) * ((hi - lo) / (inject_Z (Z.of_nat n) - 1)) <= hi.
Proof.
  intros Hlh Hi.
  destruct n as [|[|m]]; [lia| |].
  - assert (i = 0%nat) as -> by lia. simpl. rewrite Qmult_0_l. lra.
  - assert (En : inject_Z (Z.of_nat (S (S m))) - 1 == inject_Z (Z.of_nat (S m)))
      by (rewrite (inject_nat_succ (S m)); ring).
    rewrite En.
    pose proof (inject_nat_nonneg m) as Hm.
    pose proof (inject_nat_succ m) as Em.
    set (d := inject_Z (Z.of_nat (S m))) in *.
    assert (Hd : 0 < d) by lra.
    set (k := inject_Z (Z.of_nat i)).
    assert (Hk0 : 0 <= k) by apply inject_nat_nonneg.
    assert (Hkd : k <= d).
    { unfold k, d. rewrite <- Zle_Qle. lia. }
    assert (E : k * ((hi - lo) / d) == (hi - lo) * (k / d)) by (field; lra).
    rewrite E.
    assert (F0 : 0 <= k / d) by (apply Qle_shift_div_l; lra).
    assert (F1 : k / d <= 1) by (apply Qle_shift_div_r; lra).
    assert (P0 : 0 <= (hi - lo) * (k / d)) by (apply Qmult_le_0_compat; lra).
    assert (P1 : 0 <= (hi - lo) * (1 - k / d)) by (apply Qmult_le_0_compat; lra).
    split; lra.
Qed.

Lemma curve_grades_within (df : DataFrame) (lo hi : Q) :
  series_min (map Moyenne_U df) = Fin lo ->
  series_max (map Moyenne_U df) = Fin hi ->
  lo <= hi ->
  length (curve_grades df) = 100%nat /\
  Forall (fun grade => exists g, grade = Fin g /\ lo <= g /\ g <= hi) (curve_grades df).
Proof.
  intros Elo Ehi Hlh. unfold curve_grades. rewrite Elo, Ehi.
  destruct (linspace_evenly lo hi 100) as (L & Hnth & _).
  split; [exact L|].
  apply Forall_forall. intros grade Hin.
  apply In_nth_error in Hin as [i Hi].
  assert (Hlt : (i < 100)%nat).
  { rewrite <- L. apply nth_error_Some. congruence. }
  destruct (Hnth i Hlt) as (v & Hv & Ev).
  rewrite Hi in Hv. injection Hv as ->.
  exists v. split; [reflexivity|].
  destruct (@step_within lo hi 100 i Hlh Hlt) as [S1 S2].
  rewrite Ev. split; assumption.
Qed.

(** X13.  The grade-tonnage figure has two curves over the same 100
    cutoffs: the tonnages on the first axis, the average grades on the
    second.  On a table with at least one grade, every cutoff lies between
    the least and the greatest grade and is reached by some row, so the
    branch that puts zeros is never taken: the tonnage and the average
    grade of the point are those of the reserve calculator at that cutoff,
    and the average grade is a number. *)
Theorem create_grade_tonnage_curve_points (df : DataFrame) :
  dropna_values (map Moyenne_U df) <> [] ->
  exists lo hi,
    column_bounds (map Moyenne_U df) lo hi /\
    length (curve_grades df) = 100%nat /\
    data (create_grade_tonnage_curve df)
    = [(Scatter (curve_grades df)
          (map (fun grade => fst (curve_point df grade)) (curve_grades df))
          "Tonnage" "blue", Axis false);
       (Scatter (curve_grades df)
          (map (fun grade => snd (curve_point df grade)) (curve_grades df))
          "Teneur moyenne" "red", Axis true)] /\
    Forall (fun grade =>
              exists g a,
                grade = Fin g /\ lo <= g /\ g <= hi /\
                ore_rows df g <> [] /\
                curve_point df grade
                = (total_tonnage (fst (calculate_ore_reserves df g)),
                   average_grade (fst (calculate_ore_reserves df g))) /\
                average_grade (fst (calculate_ore_reserves df g)) = Fin a)
           (curve_grades df).
Proof.
  intros Hne.
  destruct (series_bounds _ Hne) as (lo & hi & Elo & Ehi & B).
  assert (Hlh : lo <= hi) by (destruct B as (Hlo & _ & Hall); now apply Hall).
  destruct (curve_grades_within df Elo Ehi Hlh) as [L G].
  exists lo, hi. split; [exact B|]. split; [exact L|]. split.
  - unfold create_grade_tonnage_curve. cbn [data]. now rewrite !map_map.
  - eapply Forall_impl; [|exact G].
    intros grade (g & -> & Hg1 & Hg2).
    pose proof (@ore_at_most_greatest df g lo hi B Hg2) as Hore.
    destruct (average_grade_missing df g) as [M _].
    destruct (average_grade (fst (calculate_ore_reserves df g))) as [|a] eqn:Ea.
    + exfalso. apply Hore. now apply M.
    + exists g, a. split; [reflexivity|]. split; [exact Hg1|]. split; [exact Hg2|].
      split; [now rewrite ore_rows_filter|].
      split; [exact (@curve_point_reserves df g Hore) | exact Ea].
Qed.

Lemma fge_NaN (x : num) : fge x NaN = false.
Proof. destruct x; reflexivity. Qed.

(** X14.  On a table without any grade, the empty table included, the
    grade-tonnage curve is drawn all the same: its 100 cutoffs are missing
    values, and every tonnage and every average grade is 0. *)
Theorem create_grade_tonnage_curve_no_grade (df : DataFrame) :
  dropna_values (map Moyenne_U df) = [] ->
  data (create_grade_tonnage_curve df)
  = [(Scatter (repeat NaN 100) (repeat (Fin 0) 100) "Tonnage" "blue", Axis false);
     (Scatter (repeat NaN 100) (repeat (Fin 0) 100) "Teneur moyenne" "red", Axis true)].
Proof.
  intros E. unfold create_grade_tonnage_curve, curve_grades, series_min, series_max.
  rewrite E. cbn [Qmin_list Qmax_list of_option data].
  assert (G : linspace NaN NaN 100 = repeat NaN 100) by reflexivity.
  rewrite G.
  assert (P : curve_point df NaN = (Fin 0, Fin 0)).
  { unfold curve_point.
    assert (F : filter (fun r => fge (Moyenne_U r) NaN) df = []).
    { clear. induction df as [|r df' IH]; simpl; [reflexivity|]. now rewrite fge_NaN. }
    now rewrite F. }
  assert (M : map (curve_point df) (repeat NaN 100) = repeat (Fin 0, Fin 0) 100).
  { rewrite map_repeat. now rewrite P. }
  rewrite M. reflexivity.
Qed.

(** *** Interpolated surfaces *)

Lemma every_other_nth {A} (k : nat) :
  forall l : list A, nth_error (every_other l) k = nth_error l (2 * k).
Proof.
  induction k as [|k IH]; intros [|a [|b l]]; try reflexivity.
  - simpl. now destruct k.
  - replace (2 * S k)%nat with (S (S (2 * k))) by lia.
    cbn [every_other nth_error]. apply IH.
Qed.

Lemma every_other_length {A} (l : list A) :
  length (every_other l) = ((length l + 1) / 2)%nat /\
  forall a, length (every_other (a :: l)) = ((length l + 2) / 2)%nat.
Proof.
  induction l as [|b l [IH1 IH2]].
  - split; [reflexivity | intros a; reflexivity].
  - split.
    + rewrite IH2. cbn [length]. f_equal. lia.
    + intros a. cbn [every_other length]. rewrite IH1.
      replace (S (length l) + 2)%nat with (length l + 1 + 1 * 2)%nat by lia.
      rewrite Nat.div_add by discriminate. lia.
Qed.

Lemma enumerate_from_In {A} (l : list A) (start i : nat) (a : A) :
  In (i, a) (combine (seq start (length l)) l) ->
  (start <= i)%nat /\ nth_error l (i - start) = Some a.
Proof.
  revert start. induction l as [|b l IH]; intros start; simpl; [tauto|].
  intros [E|H].
  - injection E as <- <-. split; [lia|]. now rewrite Nat.sub_diag.
  - apply IH in H as [H1 H2]. split; [lia|].
    replace (i - start)%nat with (S (i - S start)) by lia. exact H2.
Qed.

Lemma enumerate_from_nth {A} (l : list A) (start k : nat) (a : A) :
  nth_error l k = Some a -> In ((start + k)%nat, a) (combine (seq start (length l)) l).
Proof.
  revert start k. induction l as [|b l IH]; intros start [|k] Hk; try discriminate.
  - injection Hk as ->. left. now rewrite Nat.add_0_r.
  - right. simpl in Hk. replace (start + S k)%nat with (S start + k)%nat by lia.
    now apply IH.
Qed.

Lemma masked_isna (threshold : Q) (v : num) :
  isna (if flt v (Fin threshold) then NaN else v) = negb (fge v (Fin threshold)).
Proof.
  destruct v as [|q]; simpl; [reflexivity|].
  destruct (Qle_bool threshold q); reflexivity.
Qed.

Lemma all_isnan_mask (threshold : Q) (m : matrix) :
  negb (all_isnan (mask_below threshold m)) = reaches threshold m.
Proof.
  unfold all_isnan, mask_below, reaches.
  induction m as [|row m IH]; simpl; [reflexivity|].
  rewrite negb_andb, IH. f_equal.
  clear. induction row as [|v row IH]; simpl; [reflexivity|].
  rewrite negb_andb, IH, masked_isna, negb_involutive. reflexivity.
Qed.

Lemma mask_below_shown (threshold : Q) (m : matrix) :
  Forall (Forall (shown threshold)) (mask_below threshold m).
Proof.
  unfold mask_below. apply Forall_forall. intros row Hrow.
  apply in_map_iff in Hrow as (row' & <- & _).
  apply Forall_forall. intros v Hv. apply in_map_iff in Hv as (v' & <- & _).
  destruct v' as [|q]; simpl; [exact I|].
  destruct (Qle_bool threshold q) eqn:E; simpl; [now apply Qle_bool_iff | exact I].
Qed.

Lemma flat_map_length_le {A B} (f : A -> list B) (l : list A) :
  (forall a, length (f a) <= 1)%nat -> (length (flat_map f l) <= length l)%nat.
Proof.
  intros H. induction l as [|a l IH]; simpl; [lia|].
  rewrite length_app. specialize (H a). lia.
Qed.

(** X15.  [create_interpolated_surfaces] looks at every other slice, starting
    with the first.  It draws a slice exactly when one of its values reaches
    the threshold, and what it shows of it is the values with everything
    below the threshold missing.  The colour bar belongs to the first slice
    alone: the figure has one exactly when the first slice is drawn. *)
Theorem create_interpolated_surfaces_masks (grids : list Slice) (threshold : Q) :
  let fig := create_interpolated_surfaces grids (Some threshold) in
  (length (data fig) <= (length grids + 1) / 2)%nat /\
  Forall (fun tp =>
            exists k grid name,
              nth_error grids (2 * k) = Some grid /\
              reaches threshold (values grid) = true /\
              Forall (Forall (shown threshold)) (mask_below threshold (values grid)) /\
              tp = (Surface (grid_x grid) (grid_y grid) (grid_z grid)
                      (mask_below threshold (values grid)) "Viridis" (6 # 10) name
                      (k =? 0)%nat,
                    Plain))
         (data fig) /\
  (forall k grid,
     nth_error grids (2 * k) = Some grid -> reaches threshold (values grid) = true ->
     exists name,
       In (Surface (grid_x grid) (grid_y grid) (grid_z grid)
             (mask_below threshold (values grid)) "Viridis" (6 # 10) name (k =? 0)%nat,
           Plain)
          (data fig)) /\
  existsb has_colorbar (data fig)
  = match grids with
    | [] => false
    | first :: _ => reaches threshold (values first)
    end.
Proof.
  cbv zeta. unfold create_interpolated_surfaces. cbn [keyword data].
  split; [|split; [|split]].
  - destruct (every_other_length grids) as [<- _].
    eapply Nat.le_trans; [apply flat_map_length_le|].
    + intros [i grid]. destruct (negb _); simpl; lia.
    + unfold enumerate. rewrite length_combine, length_seq. lia.
  - apply Forall_forall. intros tp Htp.
    apply in_flat_map in Htp as ([i grid] & Hin & Htp).
    apply enumerate_from_In in Hin as [_ Hin]. rewrite Nat.sub_0_r, every_other_nth in Hin.
    rewrite all_isnan_mask in Htp.
    destruct (reaches threshold (values grid)) eqn:R; [|destruct Htp].
    destruct Htp as [<-|[]].
    exists i, grid. eexists. split; [exact Hin|]. split; [exact R|].
    split; [apply mask_below_shown | reflexivity].
  - intros k grid Hk R. eexists. apply in_flat_map.
    exists (k, grid). split.
    + rewrite <- every_other_nth in Hk.
      apply (@enumerate_from_nth _ (every_other grids) 0 k grid Hk).
    + rewrite all_isnan_mask, R. left. reflexivity.
  - destruct grids as [|first rest]; [reflexivity|].
    cbn [every_other]. unfold enumerate. cbn [length seq combine flat_map].
    rewrite existsb_app, all_isnan_mask.
    assert (T : forall (l : list Slice) (start : nat),
               existsb has_colorbar
                 (flat_map
                    (fun ig : nat * Slice =>
                       let (i, grid) := ig in
                       if negb (all_isnan (mask_below threshold (values grid)))
                       then [(Surface (grid_x grid) (grid_y grid) (grid_z grid)
                                (mask_below threshold (values grid)) "Viridis" (6 # 10)
                                ("Niveau " ++ format_f 0 (z_level grid) ++ "m")%string
                                (i =? 0)%nat, Plain)]
                       else [])
                    (combine (seq (S start) (length l)) l)) = false).
    { induction l as [|a l IH]; intros start; [reflexivity|].
      cbn [length seq combine flat_map]. rewrite existsb_app, IH.
      destruct (negb _); reflexivity. }
    rewrite T. destruct (reaches threshold (values first)); reflexivity.
Qed.

(** *** Lithology distribution *)

Lemma unique_from (s : list string) :
  forall seen : list string,
    NoDup seen ->
    NoDup (fold_left (fun seen v => if existsb (String.eqb v) seen then seen
                                    else seen ++ [v]) s seen) /\
    forall x,
      In x (fold_left (fun seen v => if existsb (String.eqb v) seen then seen
                                     else seen ++ [v]) s seen)
      <-> In x seen \/ In x s.
Proof.
  induction s as [|v s IH]; intros seen Hseen; simpl.
  - split; [exact Hseen | intros x; tauto].
  - destruct (existsb (String.eqb v) seen) eqn:E.
    + destruct (IH seen Hseen) as [N I]. split; [exact N|].
      intros x. rewrite I.
      apply existsb_exists in E as (y & Hy & Ey). apply String.eqb_eq in Ey. subst y.
      split; [tauto|]. intros [H|[<-|H]]; auto.
    + assert (Hv : ~ In v seen).
      { intros H. apply not_true_iff_false in E. apply E.
        apply existsb_exists. exists v. split; [exact H | apply String.eqb_refl]. }
      assert (N' : NoDup (seen ++ [v])).
      { apply NoDup_app; [exact Hseen | repeat constructor; simpl; tauto|].
        intros x Hx [<-|[]]. contradiction. }
      destruct (IH (seen ++ [v]) N') as [N I]. split; [exact N|].
      intros x. rewrite I, in_app_iff. simpl. tauto.
Qed.

Lemma unique_spec (s : list string) :
  NoDup (unique s) /\ forall x, In x (unique s) <-> In x s.
Proof.
  destruct (unique_from s (NoDup_nil _)) as [N I]. split; [exact N|].
  intros x. unfold unique. rewrite I. simpl. tauto.
Qed.

Lemma list_sum_plus {A} (f g : A -> nat) (l : list A) :
  list_sum (map (fun a => (f a + g a)%nat) l)
  = (list_sum (map f l) + list_sum (map g l))%nat.
Proof. induction l as [|a l IH]; simpl; lia. Qed.

Lemma indicator_sum (x : string) (l : list string) :
  NoDup l -> In x l ->
  list_sum (map (fun y => if String.eqb x y then 1%nat else 0%nat) l) = 1%nat.
Proof.
  induction 1 as [|y l Hy _ IH]; intros Hin; [destruct Hin|]. simpl.
  destruct (String.eqb x y) eqn:E.
  - apply String.eqb_eq in E. subst y.
    assert (Z0 : list_sum (map (fun y => if String.eqb x y then 1%nat else 0%nat) l) = 0%nat).
    { clear IH Hin. induction l as [|z l IH]; [reflexivity|]. simpl.
      destruct (String.eqb x z) eqn:Ez.
      - apply String.eqb_eq in Ez. subst z. exfalso. apply Hy. now left.
      - apply IH. intros H. apply Hy. now right. }
    lia.
  - apply String.eqb_neq in E. destruct Hin as [->|Hin]; [congruence|].
    now apply IH.
Qed.

Lemma list_sum_zero {A} (f : A -> nat) (l : list A) :
  (forall a, In a l -> f a = 0%nat) -> list_sum (map f l) = 0%nat.
Proof.
  induction l as [|a l IH]; intros H; simpl; [reflexivity|].
  rewrite (H a (or_introl eq_refl)), IH; [reflexivity|]. intros; apply H; now right.
Qed.

Lemma lithology_counts (df : DataFrame) (l : list string) :
  NoDup l -> (forall r, In r df -> In (Lithologie r) l) ->
  list_sum (map (fun litho =>
                   length (filter (fun r => String.eqb (Lithologie r) litho) df)) l)
  = length df.
Proof.
  intros N. induction df as [|r df IH]; intros H.
  - apply list_sum_zero. reflexivity.
  - assert (E : forall litho,
               length (filter (fun r => String.eqb (Lithologie r) litho) (r :: df))
               = ((if String.eqb (Lithologie r) litho then 1 else 0)
                  + length (filter (fun r => String.eqb (Lithologie r) litho) df))%nat).
    { intros litho. simpl. destruct (String.eqb (Lithologie r) litho); reflexivity. }
    rewrite (map_ext _ _ E), list_sum_plus, IH.
    + rewrite (@indicator_sum (Lithologie r) l N); [reflexivity|]. apply H. now left.
    + intros r' Hr'. apply H. now right.
Qed.

Lemma points_in_sum (where_ : placement) (fig : Figure) :
  points_in where_ fig
  = list_sum (map (fun tp => if placement_eqb (snd tp) where_
                             then trace_points (fst tp) else 0%nat) (data fig)).
Proof.
  unfold points_in. induction (data fig) as [|tp l IH]; simpl; [reflexivity|].
  destruct (placement_eqb (snd tp) where_); simpl; now rewrite IH.
Qed.

Lemma lithology_counts_data (df : DataFrame) :
  list_sum (map (fun litho => length (litho_data df litho)) (unique (map Lithologie df)))
  = length df.
Proof.
  destruct (unique_spec (map Lithologie df)) as [N I].
  apply lithology_counts; [exact N|]. intros r Hr. apply I. now apply in_map.
Qed.

Lemma lithology_scatter_summary (df : DataFrame) (colors l : list string) :
  forall (start : nat) (scatters : list (Trace * placement)),
    Forall2 (fun il tp => lithology_scatter df colors il = Ok tp)
      (combine (seq start (length l)) l) scatters ->
    map (fun tp => (trace_points (fst tp), snd tp)) scatters
    = map (fun litho => (length (litho_data df litho), Cell 1 1)) l.
Proof.
  induction l as [|litho l IH]; intros start scatters E.
  - inversion E. reflexivity.
  - cbn [length seq combine] in E. inversion E as [|il tp ils tps Htp Hrest]; subst.
    cbn [map]. rewrite (IH _ _ Hrest). f_equal.
    unfold lithology_scatter in Htp. destruct (nth_error colors start); [|discriminate].
    injection Htp as <-. cbn [fst snd trace_points]. now rewrite length_map.
Qed.

Lemma lithology_boxes_summary (df : DataFrame) (c : placement) (l : list string) :
  length (flat_map (lithology_boxes df) l) = (2 * length l)%nat /\
  list_sum (map (fun tp => if placement_eqb (snd tp) c
                           then trace_points (fst tp) else 0%nat)
              (flat_map (lithology_boxes df) l))
  = ((if placement_eqb (Cell 2 1) c
      then list_sum (map (fun litho => length (litho_data df litho)) l) else 0)
     + (if placement_eqb (Cell 2 2) c
        then list_sum (map (fun litho => length (litho_data df litho)) l) else 0))%nat.
Proof.
  induction l as [|litho l [IH1 IH2]].
  - split; [reflexivity|]. cbn [flat_map map list_sum fold_right].
    destruct (placement_eqb (Cell 2 1) c), (placement_eqb (Cell 2 2) c); reflexivity.
  - cbn [flat_map]. rewrite map_app, list_sum_app, length_app, IH1, IH2.
    unfold lithology_boxes.
    cbn [map list_sum fold_right fst snd trace_points length]. rewrite !length_map.
    destruct (placement_eqb (Cell 2 1) c), (placement_eqb (Cell 2 2) c); split;
      unfold list_sum in *; lia.
Qed.

Lemma lithology_scatter_error (df : DataFrame) (colors : list string)
    (l : list (nat * string)) (e : exn) :
  for_each (lithology_scatter df colors) l = Err e -> e = list_index_out_of_range.
Proof.
  induction l as [|[i litho] l IH]; simpl; [discriminate|].
  destruct (nth_error colors i).
  - destruct (for_each (lithology_scatter df colors) l); [discriminate|].
    intros H. injection H as <-. now apply IH.
  - intros H. now injection H.
Qed.

Lemma lithology_scatters_nth (df : DataFrame) (colors l : list string) :
  forall (start : nat) (scatters : list (Trace * placement)),
    Forall2 (fun il tp => lithology_scatter df colors il = Ok tp)
      (combine (seq start (length l)) l) scatters ->
    forall i litho, nth_error l i = Some litho ->
      exists color,
        nth_error colors (start + i) = Some color /\
        nth_error scatters i = Some (lithology_trace df litho color).
Proof.
  induction l as [|x l IH]; intros start scatters E i litho Hi.
  - destruct i; discriminate.
  - cbn [length seq combine] in E. inversion E as [|il tp ils tps Htp Hrest]; subst.
    destruct i as [|i].
    + injection Hi as ->. unfold lithology_scatter in Htp.
      rewrite Nat.add_0_r.
      destruct (nth_error colors start) as [c|]; [|discriminate].
      injection Htp as <-. exists c. split; reflexivity.
    + simpl in Hi. destruct (IH _ _ Hrest i litho Hi) as (c & Hc & Hs).
      exists c. split; [|exact Hs].
      now replace (start + S i)%nat with (S start + i)%nat by lia.
Qed.

Lemma lithology_boxes_nth (df : DataFrame) (l : list string) (i : nat) (litho : string) :
  nth_error l i = Some litho ->
  nth_error (flat_map (lithology_boxes df) l) (2 * i)
  = Some (lithology_box df Moyenne_U litho 1) /\
  nth_error (flat_map (lithology_boxes df) l) (2 * i + 1)
  = Some (lithology_box df Epaisseur litho 2).
Proof.
  revert i. induction l as [|x l IH]; intros [|i] Hi; try discriminate.
  - injection Hi as ->. split; reflexivity.
  - simpl in Hi. destruct (IH i Hi) as [H1 H2].
    replace (2 * S i)%nat with (S (S (2 * i))) by lia.
    replace (S (S (2 * i)) + 1)%nat with (S (S (2 * i + 1))) by lia.
    split; [exact H1 | exact H2].
Qed.

(** X16.  [create_lithology_distribution] takes one colour of the palette
    per distinct lithology: with more distinct lithologies than the palette
    has colours it raises [IndexError].  Otherwise the figure is, in this
    order: for each lithology, in the order of first occurrence in the
    table, a 3-D trace of the midpoints of its rows in the colour of the
    palette at its position; the pie of the counts of [value_counts]; and
    for each lithology the box of the grades of its rows, then the box of
    their thicknesses, in the two lower subplots.  A row belongs to one
    lithology, so each of the three subplots draws every row of the table
    exactly once. *)
Theorem create_lithology_distribution_palette (df : DataFrame) :
  let lithologies := unique (map Lithologie df) in
  let litho_counts := value_counts (map (fun r => CStr (Lithologie r)) df) in
  NoDup lithologies /\
  (forall litho, In litho lithologies <-> exists r, In r df /\ Lithologie r = litho) /\
  match create_lithology_distribution df with
  | Err e =>
      (length Set3 < length lithologies)%nat /\
      e = list_index_out_of_range
  | Ok fig =>
      (length lithologies <= length Set3)%nat /\
      title fig = "Analyse des Lithologies"%string /\
      (exists scatters boxes,
         data fig
         = scatters
           ++ [(Pie (map fst litho_counts) (map snd litho_counts) "Distribution",
                Cell 1 2)]
           ++ boxes /\
         length scatters = length lithologies /\
         length boxes = (2 * length lithologies)%nat /\
         forall i litho, nth_error lithologies i = Some litho ->
           exists color,
             nth_error Set3 i = Some color /\
             nth_error scatters i = Some (lithology_trace df litho color) /\
             nth_error boxes (2 * i) = Some (lithology_box df Moyenne_U litho 1) /\
             nth_error boxes (2 * i + 1) = Some (lithology_box df Epaisseur litho 2)) /\
      points_in (Cell 1 1) fig = length df /\
      points_in (Cell 2 1) fig = length df /\
      points_in (Cell 2 2) fig = length df
  end.
Proof.
  cbv zeta. destruct (unique_spec (map Lithologie df)) as [N I].
  split; [exact N|]. split.
  { intros litho. rewrite I, in_map_iff. split; intros (r & H1 & H2); exists r; auto. }
  unfold create_lithology_distribution.
  pose proof (lithology_counts_data df) as Hcount.
  set (lithologies := unique (map Lithologie df)) in *.
  set (colors := firstn (length lithologies) Set3).
  destruct (for_each (lithology_scatter df colors) (enumerate lithologies))
    as [scatters|e] eqn:E.
  - apply for_each_inv in E.
    assert (Hk : (length lithologies <= length Set3)%nat).
    { destruct (Nat.le_gt_cases (length lithologies) (length Set3)) as [H|H]; [exact H|].
      exfalso.
      destruct (nth_error lithologies (length Set3)) as [litho|] eqn:El;
        [|apply nth_error_None in El; lia].
      pose proof (@enumerate_from_nth _ lithologies 0 _ _ El) as Hin.
      destruct (Forall2_nth E) as [F1 _].
      apply In_nth_error in Hin as [j Hj].
      destruct (F1 j _ Hj) as (tp & _ & Htp).
      unfold lithology_scatter in Htp. cbn [Nat.add] in Htp.
      assert (Hn : nth_error colors (length Set3) = None).
      { apply nth_error_None. unfold colors. rewrite length_firstn. lia. }
      rewrite Hn in Htp. discriminate. }
    pose proof (@lithology_scatter_summary df colors lithologies 0 scatters E) as S1.
    assert (Ls : length scatters = length lithologies).
    { rewrite <- (length_map (fun tp => (trace_points (fst tp), snd tp))), S1.
      apply length_map. }
    split; [exact Hk|]. split; [reflexivity|]. cbn [data]. split.
    + exists scatters, (flat_map (lithology_boxes df) lithologies).
      split; [reflexivity|]. split; [exact Ls|].
      split; [apply (lithology_boxes_summary df Plain lithologies)|].
      intros i litho Hi.
      destruct (@lithology_scatters_nth df colors lithologies 0 scatters E i litho Hi)
        as (c & Hc & Hs).
      exists c. split; [|split; [exact Hs | now apply lithology_boxes_nth]].
      cbn [Nat.add] in Hc. unfold colors in Hc. rewrite nth_error_firstn in Hc.
      destruct (i <? length lithologies)%nat; [exact Hc | discriminate].
    + assert (Hs : forall c,
                 list_sum (map (fun tp => if placement_eqb (snd tp) c
                                          then trace_points (fst tp) else 0%nat) scatters)
                 = if placement_eqb (Cell 1 1) c then length df else 0%nat).
      { intros c.
        rewrite <- (map_map (fun tp => (trace_points (fst tp), snd tp))
                      (fun np => if placement_eqb (snd np) c then fst np else 0%nat)).
        rewrite S1, map_map. cbn [fst snd].
        destruct (placement_eqb (Cell 1 1) c); [exact Hcount|].
        apply list_sum_zero. reflexivity. }
      rewrite !points_in_sum. cbn [data].
      rewrite !map_app, !list_sum_app, !Hs.
      rewrite !(proj2 (lithology_boxes_summary df _ lithologies)), Hcount.
      cbn. lia.
  - split; [|exact (@lithology_scatter_error df colors _ e E)].
    destruct (Nat.le_gt_cases (length lithologies) (length Set3)) as [H|H]; [|exact H].
    exfalso.
    destruct (for_each_all_ok (lithology_scatter df colors) (enumerate lithologies))
      as [bs Hbs]; [|congruence].
    intros [i litho] Hin. apply enumerate_from_In in Hin as [_ Hin].
    rewrite Nat.sub_0_r in Hin.
    assert (Hi : (i < length lithologies)%nat) by (apply nth_error_Some; congruence).
    unfold lithology_scatter.
    destruct (nth_error colors i) eqn:Ec; [eauto|].
    apply nth_error_None in Ec. unfold colors in Ec. rewrite length_firstn in Ec. lia.
Qed.

End VisualizerProperties.

Lemma create_grade_tonnage_curve_points_witness :
  exists lo hi,
    column_bounds (map Moyenne_U three_rows) lo hi /\
    length (curve_grades three_rows) = 100%nat /\
    data (create_grade_tonnage_curve three_rows)
    = [(Scatter (curve_grades three_rows)
          (map (fun grade => fst (curve_point three_rows grade)) (curve_grades three_rows))
          "Tonnage" "blue", Axis false);
       (Scatter (curve_grades three_rows)
          (map (fun grade => snd (curve_point three_rows grade)) (curve_grades three_rows))
          "Teneur moyenne" "red", Axis true)] /\
    Forall (fun grade =>
              exists g a,
                grade = Fin g /\ lo <= g /\ g <= hi /\
                ore_rows three_rows g <> [] /\
                curve_point three_rows grade
                = (total_tonnage (fst (calculate_ore_reserves three_rows g)),
                   average_grade (fst (calculate_ore_reserves three_rows g))) /\
                average_grade (fst (calculate_ore_reserves three_rows g)) = Fin a)
           (curve_grades three_rows).
Proof.
  apply create_grade_tonnage_curve_points. simpl. discriminate.
Defined.

Lemma create_grade_tonnage_curve_no_grade_witness :
  data (create_grade_tonnage_curve [])
  = [(Scatter (repeat NaN 100) (repeat (Fin 0) 100) "Tonnage" "blue", Axis false);
     (Scatter (repeat NaN 100) (repeat (Fin 0) 100) "Teneur moyenne" "red", Axis true)].
Proof.
  apply create_grade_tonnage_curve_no_grade. reflexivity.
Defined.

(** ** Validator *)

(** *** Tables *)

Lemma has_column_lookup (df : Table) (col : string) :
  has_column df col = match lookup df col with Some _ => true | None => false end.
Proof.
  induction df as [|[name c] df IH]; simpl; [reflexivity|].
  destruct (String.eqb name col); simpl; [reflexivity | exact IH].
Qed.

Lemma lookup_keep (df : Table) (mask : list bool) (col : string) :
  lookup (keep df mask) col = option_map (select_col mask) (lookup df col).
Proof.
  induction df as [|[name c] df IH]; simpl; [reflexivity|].
  destruct (String.eqb name col); simpl; [reflexivity | exact IH].
Qed.

Lemma lookup_assign (df : Table) (col col' : string) (c : Column) :
  lookup (assign df col c) col'
  = if String.eqb col col'
    then match lookup df col with Some _ => Some c | None => None end
    else lookup df col'.
Proof.
  induction df as [|[name c0] df IH]; simpl.
  - now destruct (String.eqb col col').
  - destruct (String.eqb name col) eqn:E; simpl.
    + apply String.eqb_eq in E. subst name.
      destruct (String.eqb col col'); reflexivity.
    + destruct (String.eqb name col') eqn:E'; simpl.
      * apply String.eqb_eq in E'. subst name.
        rewrite String.eqb_sym in E. now rewrite E.
      * exact IH.
Qed.

Lemma assign_same (df : Table) (col : string) (c : Column) :
  lookup df col = Some c -> assign df col c = df.
Proof.
  induction df as [|[name c0] df IH]; simpl; [reflexivity|].
  destruct (String.eqb name col).
  - intros E. now injection E as ->.
  - intros E. now rewrite IH.
Qed.

Lemma select_all {A} (l : list A) (mask : list bool) :
  length mask = length l -> Forall (fun b => b = true) mask -> select mask l = l.
Proof.
  unfold select. revert l. induction mask as [|b mask IH]; intros [|a l] L H;
    try discriminate; [reflexivity|].
  inversion H as [|? ? Hb Hm]; subst. simpl. f_equal. apply IH; [simpl in L; lia | exact Hm].
Qed.

Lemma select_Forall {A} (P : A -> Prop) (mask : list bool) (l : list A) :
  Forall P l -> Forall P (select mask l).
Proof.
  unfold select. revert l. induction mask as [|b mask IH]; intros [|a l] H;
    try constructor.
  inversion H; subst. simpl. destruct b; simpl; [constructor|]; auto.
Qed.

Lemma select_Forall2 {A B} (R : A -> B -> Prop) (mask : list bool)
    (l : list A) (l' : list B) :
  Forall2 R l l' -> Forall2 R (select mask l) (select mask l').
Proof.
  unfold select. intros H. revert mask.
  induction H as [|a b l l' Hab _ IH]; intros [|m mask]; try constructor.
  simpl. destruct m; simpl; [constructor|]; auto.
Qed.

Lemma select_by {A} (p : A -> bool) (l : list A) :
  Forall (fun a => p a = true) (select (map p l) l).
Proof.
  unfold select. induction l as [|a l IH]; simpl; [constructor|].
  destruct (p a) eqn:E; simpl; [constructor|]; auto.
Qed.

Lemma select_by2 {A B} (p : A -> B -> bool) (l : list A) (l' : list B) :
  Forall2 (fun a b => p a b = true)
    (select (map (fun xy => p (fst xy) (snd xy)) (combine l l')) l)
    (select (map (fun xy => p (fst xy) (snd xy)) (combine l l')) l').
Proof.
  unfold select. revert l'. induction l as [|a l IH]; intros [|b l']; simpl;
    try constructor.
  destruct (p a b) eqn:E; simpl; [constructor|]; auto.
Qed.

Lemma select_length {A B} (mask : list bool) (l : list A) (l' : list B) :
  length l = length l' -> length (select mask l) = length (select mask l').
Proof.
  unfold select. revert l l'. induction mask as [|m mask IH]; intros [|a l] [|b l'];
    try discriminate; try reflexivity.
  intros L. simpl. destruct m; simpl; [f_equal|]; apply IH; simpl in L; lia.
Qed.

(** *** What a filter keeps *)

Lemma col_all_stable (col : string) (P : num -> Prop) :
  stable (fun df => col_all df col P).
Proof.
  intros df mask. unfold col_all. rewrite lookup_keep.
  destruct (lookup df col) as [[v|cells]|]; simpl; auto. apply select_Forall.
Qed.

Lemma cols_rel_stable (a b : string) (R : num -> num -> Prop) :
  stable (fun df => cols_rel df a b R).
Proof.
  intros df mask. unfold cols_rel. rewrite !lookup_keep.
  destruct (lookup df a) as [[va|ca]|], (lookup df b) as [[vb|cb]|]; simpl; auto.
  apply select_Forall2.
Qed.

Lemma col_all_impl (df : Table) (col : string) (P P' : num -> Prop) :
  (forall x, P x -> P' x) -> col_all df col P -> col_all df col P'.
Proof.
  intros H. unfold col_all. destruct (lookup df col) as [[v|cells]|]; auto.
  apply Forall_impl, H.
Qed.

Lemma cols_rel_impl (df : Table) (a b : string) (R R' : num -> num -> Prop) :
  (forall x y, R x y -> R' x y) -> cols_rel df a b R -> cols_rel df a b R'.
Proof.
  intros H. unfold cols_rel.
  destruct (lookup df a) as [[va|ca]|], (lookup df b) as [[vb|cb]|]; auto.
  intros F. induction F; constructor; auto.
Qed.

Section ValidatorSteps.

Context {pandas : Pandas} {python : Python}.

Lemma keep_where_stable (J : Table -> Prop) (p : num -> bool) (df : Table) (col : string) :
  stable J -> J df -> J (keep_where p df col).
Proof. intros S H. unfold keep_where. destruct (has_column df col); auto. Qed.

Lemma keep_where2_stable (J : Table -> Prop) (p : num -> num -> bool) (a b : string)
    (df : Table) :
  stable J -> J df -> J (keep_where2 p a b df).
Proof. intros S H. unfold keep_where2. destruct (forallb _ _); auto. Qed.

Lemma fold_keep_where_stable (J : Table -> Prop) (p : num -> bool) (cols : list string) :
  stable J -> forall df, J df -> J (fold_left (keep_where p) cols df).
Proof.
  intros S. induction cols as [|col cols IH]; intros df H; simpl; [exact H|].
  apply IH. now apply keep_where_stable.
Qed.

Lemma keep_where_establish (p : num -> bool) (df : Table) (col : string) :
  col_all df col (fun _ => True) ->
  col_all (keep_where p df col) col (fun x => p x = true).
Proof.
  unfold keep_where, col_all, column_numbers. rewrite has_column_lookup.
  destruct (lookup df col) as [[v|cells]|] eqn:E; [| tauto | now rewrite E].
  intros _. rewrite lookup_keep, E. simpl. apply select_by.
Qed.

Lemma fold_keep_where_establish (p : num -> bool) (col : string) (cols : list string) :
  In col cols ->
  forall df, col_all df col (fun _ => True) ->
             col_all (fold_left (keep_where p) cols df) col (fun x => p x = true).
Proof.
  induction cols as [|c cols IH]; intros Hin df H; [destruct Hin|]. simpl.
  destruct Hin as [->|Hin].
  - apply (@fold_keep_where_stable (fun df => col_all df col (fun x => p x = true)));
      [apply col_all_stable|].
    now apply keep_where_establish.
  - apply IH; [exact Hin|].
    apply (@keep_where_stable (fun df => col_all df col (fun _ => True)));
      [apply col_all_stable | exact H].
Qed.

Lemma keep_where2_establish (p : num -> num -> bool) (a b : string) (df : Table) :
  col_all df a (fun _ => True) -> col_all df b (fun _ => True) ->
  cols_rel (keep_where2 p a b df) a b (fun x y => p x y = true).
Proof.
  unfold keep_where2, col_all, cols_rel, column_numbers. cbn [forallb].
  rewrite !has_column_lookup.
  destruct (lookup df a) as [[va|ca]|] eqn:Ea; [| tauto |];
    destruct (lookup df b) as [[vb|cb]|] eqn:Eb; try tauto; intros _ _;
    cbn [andb]; rewrite ?lookup_keep, ?Ea, ?Eb; simpl; auto.
  apply select_by2.
Qed.

Lemma convert_numeric (df : Table) (col c : string) :
  col_all df c (fun _ => True) -> col_all (convert df col) c (fun _ => True).
Proof.
  unfold convert, col_all.
  destruct (lookup df col) as [c0|] eqn:E; [|auto].
  rewrite lookup_assign, E.
  destruct (String.eqb col c); [|auto].
  intros _. destruct c0; simpl; apply Forall_forall; auto.
Qed.

Lemma convert_establish (df : Table) (col : string) :
  col_all (convert df col) col (fun _ => True).
Proof.
  unfold convert, col_all.
  destruct (lookup df col) as [c0|] eqn:E; [|now rewrite E].
  rewrite lookup_assign, E, String.eqb_refl.
  destruct c0; simpl; apply Forall_forall; auto.
Qed.

Lemma fold_convert_numeric (c : string) (cols : list string) :
  forall df, col_all df c (fun _ => True) ->
             col_all (fold_left convert cols df) c (fun _ => True).
Proof.
  induction cols as [|col cols IH]; intros df H; simpl; [exact H|].
  apply IH. now apply convert_numeric.
Qed.

Lemma fold_convert_establish (c : string) (cols : list string) :
  In c cols -> forall df, col_all (fold_left convert cols df) c (fun _ => True).
Proof.
  induction cols as [|col cols IH]; intros Hin df; [destruct Hin|]. simpl.
  destruct Hin as [->|Hin].
  - apply fold_convert_numeric, convert_establish.
  - now apply IH.
Qed.


Lemma col_all_keep_where2 (p : num -> num -> bool) (a b : string) (df : Table)
    (c : string) (P : num -> Prop) :
  col_all df c P -> col_all (keep_where2 p a b df) c P.
Proof.
  apply (@keep_where2_stable (fun df => col_all df c P)), col_all_stable.
Qed.

Lemma col_all_fold_keep_where (p : num -> bool) (cols : list string) (df : Table)
    (c : string) (P : num -> Prop) :
  col_all df c P -> col_all (fold_left (keep_where p) cols df) c P.
Proof.
  apply (@fold_keep_where_stable (fun df => col_all df c P)), col_all_stable.
Qed.

Lemma cols_rel_keep_where2 (p : num -> num -> bool) (a b : string) (df : Table)
    (c d : string) (R : num -> num -> Prop) :
  cols_rel df c d R -> cols_rel (keep_where2 p a b df) c d R.
Proof.
  apply (@keep_where2_stable (fun df => cols_rel df c d R)), cols_rel_stable.
Qed.

Lemma cols_rel_fold_keep_where (p : num -> bool) (cols : list string) (df : Table)
    (c d : string) (R : num -> num -> Prop) :
  cols_rel df c d R -> cols_rel (fold_left (keep_where p) cols df) c d R.
Proof.
  apply (@fold_keep_where_stable (fun df => cols_rel df c d R)), cols_rel_stable.
Qed.

Lemma clean_labels_col_all (df : Table) (c : string) (P : num -> Prop) :
  String.eqb "Lithologie" c = false ->
  col_all df c P -> col_all (clean_labels df) c P.
Proof.
  intros Hc. unfold clean_labels, col_all.
  destruct (lookup df "Lithologie") as [c0|] eqn:E; [|auto].
  now rewrite lookup_assign, Hc.
Qed.

Lemma clean_labels_cols_rel (df : Table) (c d : string) (R : num -> num -> Prop) :
  String.eqb "Lithologie" c = false -> String.eqb "Lithologie" d = false ->
  cols_rel df c d R -> cols_rel (clean_labels df) c d R.
Proof.
  intros Hc Hd. unfold clean_labels, cols_rel.
  destruct (lookup df "Lithologie") as [c0|] eqn:E; [|auto].
  now rewrite !lookup_assign, Hc, Hd.
Qed.

Lemma clean_labels_stripped (df : Table) : labels_stripped (clean_labels df).
Proof.
  unfold clean_labels, labels_stripped.
  destruct (lookup df "Lithologie") as [c0|] eqn:E; [|now rewrite E].
  rewrite lookup_assign, E. simpl.
  destruct c0 as [v|cells]; simpl; apply Forall_forall; intros c Hc;
    apply in_map_iff in Hc as (x & <- & _); destruct x; eauto.
Qed.

Lemma fge_zero_nonneg (x : num) : fge x (Fin 0) = true -> nonneg x.
Proof. intros H. apply fge_Fin in H as (g & -> & Hg). exact Hg. Qed.

Lemma in_range_between (x : num) :
  fgt x (Fin 100000) && flt x (Fin 10000000) = true ->
  strictly_between 100000 10000000 x.
Proof.
  intros H. apply andb_true_iff in H as [H1 H2]. unfold fgt in H1.
  destruct x as [|q]; [discriminate|]. simpl in *.
  apply negb_true_iff in H1, H2. split; apply Qnot_le_lt; intros H;
    apply Qle_bool_iff in H; congruence.
Qed.

Lemma fgt_below (x y : num) : fgt y x = true -> strictly_below x y.
Proof.
  unfold fgt. destruct x as [|a], y as [|b]; try discriminate. simpl.
  intros H. apply negb_true_iff in H. apply Qnot_le_lt. intros L.
  apply Qle_bool_iff in L. congruence.
Qed.

Lemma fge_fle (x y : num) : fge y x = true -> fle x y.
Proof.
  destruct x as [|a], y as [|b]; try discriminate. simpl. apply Qle_bool_iff.
Qed.

Ltac through_filters :=
  repeat first [ apply col_all_keep_where2 | apply col_all_fold_keep_where
               | apply cols_rel_keep_where2 | apply cols_rel_fold_keep_where ].

Lemma clean_data_cleaned (df : Table) : cleaned (clean_data df).
Proof.
  unfold clean_data. cbv zeta.
  set (t1 := fold_left convert numeric_columns df).
  assert (N : forall col, In col numeric_columns -> col_all t1 col (fun _ => True))
    by (intros col Hin; now apply fold_convert_establish).
  constructor.
  - intros col Hin.
    apply clean_labels_col_all;
      [simpl in Hin; repeat (destruct Hin as [<-|Hin]; [reflexivity|]); destruct Hin|].
    through_filters. now apply N.
  - intros col Hin.
    apply clean_labels_col_all;
      [simpl in Hin; repeat (destruct Hin as [<-|Hin]; [reflexivity|]); destruct Hin|].
    apply (@col_all_impl _ _ _ _ in_range_between).
    do 4 (first [ apply col_all_keep_where2 | apply col_all_fold_keep_where ]).
    apply fold_keep_where_establish; [exact Hin|].
    apply N. simpl in Hin |- *. tauto.
  - intros col Hin.
    apply clean_labels_col_all;
      [simpl in Hin; repeat (destruct Hin as [<-|Hin]; [reflexivity|]); destruct Hin|].
    apply (@col_all_impl _ _ _ _ fge_zero_nonneg).
    do 3 (first [ apply col_all_keep_where2 | apply col_all_fold_keep_where ]).
    apply fold_keep_where_establish; [exact Hin|].
    through_filters. apply N. simpl in Hin |- *. tauto.
  - apply clean_labels_cols_rel; [reflexivity | reflexivity |].
    apply (@cols_rel_impl _ _ _ _ _ fgt_below).
    do 2 (first [ apply cols_rel_keep_where2 | apply cols_rel_fold_keep_where ]).
    apply keep_where2_establish; through_filters; apply N; simpl; tauto.
  - intros col Hin.
    apply clean_labels_col_all;
      [simpl in Hin; repeat (destruct Hin as [<-|Hin]; [reflexivity|]); destruct Hin|].
    apply (@col_all_impl _ _ _ _ fge_zero_nonneg).
    apply col_all_keep_where2.
    apply fold_keep_where_establish; [exact Hin|].
    through_filters. apply N. simpl in Hin |- *. tauto.
  - apply clean_labels_cols_rel; [reflexivity | reflexivity |].
    apply (@cols_rel_impl _ _ _ _ _ fge_fle).
    apply keep_where2_establish; through_filters; apply N; simpl; tauto.
  - apply clean_labels_stripped.
Qed.

(** *** Row counts and column names *)

Lemma select_shorter {A} (mask : list bool) (l : list A) :
  (length (select mask l) <= length l)%nat.
Proof.
  unfold select. revert l. induction mask as [|m mask IH]; intros [|a l]; simpl; try lia.
  specialize (IH l). destruct m; simpl; lia.
Qed.

Lemma select_col_length (mask : list bool) (c c' : Column) :
  col_length c = col_length c' ->
  col_length (select_col mask c) = col_length (select_col mask c').
Proof. destruct c, c'; simpl; apply select_length. Qed.

Lemma keep_names (df : Table) (mask : list bool) :
  map fst (keep df mask) = map fst df.
Proof. unfold keep. rewrite map_map. reflexivity. Qed.

Lemma assign_names (df : Table) (col : string) (c : Column) :
  map fst (assign df col c) = map fst df.
Proof.
  induction df as [|[name c0] df IH]; simpl; [reflexivity|].
  destruct (String.eqb name col); simpl; [reflexivity | now rewrite IH].
Qed.

Lemma keep_rows (df : Table) (mask : list bool) :
  (n_rows (keep df mask) <= n_rows df)%nat.
Proof.
  destruct df as [|[name c] df]; simpl; [lia|].
  destruct c; simpl; apply select_shorter.
Qed.

Lemma keep_well_formed (df : Table) (mask : list bool) :
  well_formed df -> well_formed (keep df mask).
Proof.
  unfold well_formed. intros H.
  destruct df as [|[name c] df]; [constructor|].
  cbn [n_rows keep map fst snd] in *.
  apply Forall_forall. intros [name' c'] Hin. cbn [snd].
  change ((name, select_col mask c) :: map (fun nc => (fst nc, select_col mask (snd nc))) df)
    with (map (fun nc => (fst nc, select_col mask (snd nc))) ((name, c) :: df)) in Hin.
  apply in_map_iff in Hin as ([n0 c0] & E & Hin). injection E as <- <-.
  apply select_col_length. rewrite Forall_forall in H. apply (H _ Hin).
Qed.

Lemma lookup_In (df : Table) (col : string) (c : Column) :
  lookup df col = Some c -> In c (map snd df).
Proof.
  induction df as [|[name c0] df IH]; simpl; [discriminate|].
  destruct (String.eqb name col); [intros E; injection E as ->; now left|].
  intros E. right. now apply IH.
Qed.

Lemma well_formed_lookup (df : Table) (col : string) (c : Column) :
  well_formed df -> lookup df col = Some c -> col_length c = n_rows df.
Proof.
  intros W E. apply lookup_In in E. apply in_map_iff in E as (nc & <- & Hin).
  unfold well_formed in W. rewrite Forall_forall in W. now apply W.
Qed.

Lemma assign_rows (df : Table) (col : string) (c0 c : Column) :
  lookup df col = Some c0 -> col_length c = col_length c0 ->
  n_rows (assign df col c) = n_rows df.
Proof.
  destruct df as [|[name c1] df]; simpl; [discriminate|].
  destruct (String.eqb name col); simpl; [|reflexivity].
  intros E. injection E as ->. auto.
Qed.

Lemma assign_Forall (P : string * Column -> Prop) (df : Table) (col : string)
    (c : Column) :
  Forall P df -> (forall name, P (name, c)) -> Forall P (assign df col c).
Proof.
  intros W Hc. induction W as [|[name c1] df H Ht IH]; simpl; [constructor|].
  destruct (String.eqb name col); constructor; auto.
Qed.

Lemma assign_well_formed (df : Table) (col : string) (c0 c : Column) :
  well_formed df -> lookup df col = Some c0 -> col_length c = col_length c0 ->
  well_formed (assign df col c).
Proof.
  intros W E L. unfold well_formed. rewrite (@assign_rows df col c0 c E L).
  pose proof (@well_formed_lookup df col c0 W E) as L0.
  apply assign_Forall; [exact W|]. intros name. simpl. congruence.
Qed.

Lemma to_numeric_col_length (c : Column) : col_length (to_numeric_col c) = col_length c.
Proof. destruct c; simpl; [reflexivity | apply length_map]. Qed.

Lemma clean_label_length (c : Column) : col_length (clean_label c) = col_length c.
Proof. destruct c; simpl; apply length_map. Qed.

Lemma step_ok_refl (df : Table) : step_ok df df.
Proof. repeat split; auto. Qed.

Lemma step_ok_trans (df1 df2 df3 : Table) :
  step_ok df1 df2 -> step_ok df2 df3 -> step_ok df1 df3.
Proof.
  intros (N1 & R1 & W1) (N2 & R2 & W2). repeat split; [congruence | lia | auto].
Qed.

Lemma keep_step (df : Table) (mask : list bool) : step_ok df (keep df mask).
Proof.
  repeat split; [apply keep_names | apply keep_rows | apply keep_well_formed].
Qed.

Lemma convert_step (df : Table) (col : string) : step_ok df (convert df col).
Proof.
  unfold convert. destruct (lookup df col) as [c|] eqn:E; [|apply step_ok_refl].
  pose proof (to_numeric_col_length c) as L.
  repeat split.
  - apply assign_names.
  - rewrite (@assign_rows df col c (to_numeric_col c) E L). lia.
  - intros W. exact (@assign_well_formed df col c (to_numeric_col c) W E L).
Qed.

Lemma clean_labels_step (df : Table) : step_ok df (clean_labels df).
Proof.
  unfold clean_labels. destruct (lookup df "Lithologie") as [c|] eqn:E;
    [|apply step_ok_refl].
  pose proof (clean_label_length c) as L.
  repeat split.
  - apply assign_names.
  - rewrite (@assign_rows df _ c (clean_label c) E L). lia.
  - intros W. exact (@assign_well_formed df _ c (clean_label c) W E L).
Qed.

Lemma keep_where_step (p : num -> bool) (df : Table) (col : string) :
  step_ok df (keep_where p df col).
Proof.
  unfold keep_where. destruct (has_column df col); [apply keep_step | apply step_ok_refl].
Qed.

Lemma keep_where2_step (p : num -> num -> bool) (a b : string) (df : Table) :
  step_ok df (keep_where2 p a b df).
Proof.
  unfold keep_where2. destruct (forallb _ _); [apply keep_step | apply step_ok_refl].
Qed.

Lemma fold_step {X} (f : Table -> X -> Table) (l : list X) :
  (forall df x, step_ok df (f df x)) -> forall df, step_ok df (fold_left f l df).
Proof.
  intros H. induction l as [|x l IH]; intros df; simpl; [apply step_ok_refl|].
  eapply step_ok_trans; [apply H | apply IH].
Qed.

Lemma clean_data_step (df : Table) : step_ok df (clean_data df).
Proof.
  unfold clean_data. cbv zeta.
  eapply step_ok_trans; [|apply clean_labels_step].
  eapply step_ok_trans; [|apply keep_where2_step].
  eapply step_ok_trans; [|apply fold_step; intros; apply keep_where_step].
  eapply step_ok_trans; [|apply keep_where2_step].
  eapply step_ok_trans; [|apply fold_step; intros; apply keep_where_step].
  eapply step_ok_trans; [|apply fold_step; intros; apply keep_where_step].
  apply fold_step. intros. apply convert_step.
Qed.

(** X18.  Whatever the table, [clean_data] returns a table with the same
    columns in the same order and no more rows, in which every numeric
    column it knows is numeric, every coordinate lies strictly between
    100000 and 10000000, every depth and every grade is present and not
    negative, each interval ends below where it starts, each maximal grade
    is at least the mean grade, and the labels are stripped strings. *)
Theorem clean_data_invariants (df : Table) :
  cleaned (clean_data df) /\
  map fst (clean_data df) = map fst df /\
  (n_rows (clean_data df) <= n_rows df)%nat.
Proof.
  split; [apply clean_data_cleaned|].
  destruct (clean_data_step df) as (N & R & _). auto.
Qed.

(** *** A cleaned table is left as it is *)

Lemma convert_fixed (df : Table) (col : string) :
  col_all df col (fun _ => True) -> convert df col = df.
Proof.
  unfold col_all, convert. destruct (lookup df col) as [[v|cells]|] eqn:E;
    [|tauto|reflexivity].
  intros _. now apply assign_same.
Qed.

Lemma fold_fixed {X} (f : Table -> X -> Table) (l : list X) (df : Table) :
  (forall x, In x l -> f df x = df) -> fold_left f l df = df.
Proof.
  induction l as [|x l IH]; intros H; simpl; [reflexivity|].
  rewrite (H x (or_introl eq_refl)). apply IH. intros y Hy. apply H. now right.
Qed.

Lemma select_col_all (mask : list bool) (c : Column) :
  length mask = col_length c -> Forall (fun b => b = true) mask ->
  select_col mask c = c.
Proof.
  intros L H. destruct c; simpl in *; f_equal; now apply select_all.
Qed.

Lemma keep_fixed (df : Table) (mask : list bool) :
  well_formed df -> length mask = n_rows df -> Forall (fun b => b = true) mask ->
  keep df mask = df.
Proof.
  unfold well_formed, keep. intros W L H. rewrite <- L in W. clear L.
  induction W as [|[name c] df Hc _ IH]; simpl; [reflexivity|].
  rewrite IH. f_equal. f_equal. apply select_col_all; [symmetry; exact Hc | exact H].
Qed.

Lemma keep_where_fixed (p : num -> bool) (df : Table) (col : string) :
  well_formed df -> col_all df col (fun x => p x = true) -> keep_where p df col = df.
Proof.
  intros W. unfold keep_where, col_all, column_numbers. rewrite has_column_lookup.
  destruct (lookup df col) as [[v|cells]|] eqn:E; [|tauto|reflexivity].
  intros H. apply keep_fixed; [exact W| |].
  - rewrite length_map. exact (@well_formed_lookup df col (NumericCol v) W E).
  - apply Forall_forall. intros b Hb. apply in_map_iff in Hb as (x & <- & Hx).
    rewrite Forall_forall in H. now apply H.
Qed.

Lemma keep_where2_fixed (p : num -> num -> bool) (a b : string) (df : Table) :
  well_formed df -> cols_rel df a b (fun x y => p x y = true) ->
  keep_where2 p a b df = df.
Proof.
  intros W. unfold keep_where2, cols_rel, column_numbers. cbn [forallb].
  rewrite !has_column_lookup.
  destruct (lookup df a) as [[va|ca]|] eqn:Ea;
    destruct (lookup df b) as [[vb|cb]|] eqn:Eb; try tauto; try reflexivity.
  intros H. cbn [andb numbers]. apply keep_fixed; [exact W| |].
  - rewrite length_map, length_combine, <- (Forall2_length_eq H), Nat.min_id.
    exact (@well_formed_lookup df a (NumericCol va) W Ea).
  - clear - H. induction H; simpl; constructor; auto.
Qed.

Lemma clean_labels_fixed (df : Table) :
  strip_idempotent python -> labels_stripped df -> clean_labels df = df.
Proof.
  intros Hs. unfold labels_stripped, clean_labels.
  destruct (lookup df "Lithologie") as [[v|cells]|] eqn:E; [tauto| |reflexivity].
  intros H. apply assign_same. rewrite E. simpl. do 2 f_equal. clear E.
  induction H as [|c cells (s & ->) _ IH]; simpl; [reflexivity|].
  rewrite (Hs s). f_equal. exact IH.
Qed.

Lemma between_in_range (x : num) :
  strictly_between 100000 10000000 x ->
  fgt x (Fin 100000) && flt x (Fin 10000000) = true.
Proof.
  destruct x as [|q]; simpl; [tauto|]. intros [H1 H2].
  apply andb_true_iff. split; apply negb_true_iff, not_true_iff_false;
    intros H; apply Qle_bool_iff in H; lra.
Qed.

Lemma nonneg_fge_zero (x : num) : nonneg x -> fge x (Fin 0) = true.
Proof. destruct x as [|q]; simpl; [tauto|]. apply Qle_bool_iff. Qed.

Lemma below_fgt (x y : num) : strictly_below x y -> fgt y x = true.
Proof.
  destruct x as [|a], y as [|b]; simpl; try tauto. intros H.
  apply negb_true_iff, not_true_iff_false. intros L. apply Qle_bool_iff in L. lra.
Qed.

Lemma fle_fge (x y : num) : fle x y -> fge y x = true.
Proof. destruct x as [|a], y as [|b]; simpl; try tauto. apply Qle_bool_iff. Qed.

Lemma clean_data_fixed (df : Table) :
  strip_idempotent python -> well_formed df -> cleaned df -> clean_data df = df.
Proof.
  intros Hs W [Hn Hc Hd Hi Hg Hm Hl]. unfold clean_data. cbv zeta.
  rewrite (@fold_fixed _ convert numeric_columns df)
    by (intros col Hin; apply convert_fixed; now apply Hn).
  rewrite (@fold_fixed _ (keep_where _) coord_cols df)
    by (intros col Hin; apply keep_where_fixed; [exact W|];
        apply (@col_all_impl _ _ _ _ between_in_range); now apply Hc).
  rewrite (@fold_fixed _ (keep_where _) depth_cols df)
    by (intros col Hin; apply keep_where_fixed; [exact W|];
        apply (@col_all_impl _ _ _ _ nonneg_fge_zero); now apply Hd).
  rewrite (@keep_where2_fixed (fun de a => fgt a de) _ _ df W)
    by (apply (@cols_rel_impl _ _ _ _ _ below_fgt); exact Hi).
  rewrite (@fold_fixed _ (keep_where _) grade_cols df)
    by (intros col Hin; apply keep_where_fixed; [exact W|];
        apply (@col_all_impl _ _ _ _ nonneg_fge_zero); now apply Hg).
  rewrite (@keep_where2_fixed (fun moyenne max => fge max moyenne) _ _ df W)
    by (apply (@cols_rel_impl _ _ _ _ _ fle_fge); exact Hm).
  now apply clean_labels_fixed.
Qed.

(** X19.  On a table whose columns have one length, and with a [strip] that
    gives back what it returns, cleaning a cleaned table changes nothing:
    [clean_data(clean_data(df))] is [clean_data(df)]. *)
Theorem clean_data_idempotent (df : Table) :
  strip_idempotent python -> well_formed df ->
  clean_data (clean_data df) = clean_data df.
Proof.
  intros Hs W. apply clean_data_fixed; [exact Hs| |apply clean_data_cleaned].
  destruct (clean_data_step df) as (_ & _ & H). now apply H.
Qed.

(** *** Structure check *)

Lemma flat_map_nil {A B} (f : A -> list B) (l : list A) :
  flat_map f l = [] <-> forall a, In a l -> f a = [].
Proof.
  induction l as [|a l IH]; simpl; [tauto|]. split.
  - intros H. apply app_eq_nil in H as [H1 H2]. intros x [<-|Hx]; [exact H1|].
    now apply IH.
  - intros H. rewrite (H a (or_introl eq_refl)). apply IH. intros x Hx. apply H. now right.
Qed.

(** X17.  [validate_file_structure] reports no error exactly when the table
    has the twelve required columns and at least one row; the columns
    [N° Tranche] and [Direction] are not asked for.  It gives no warning
    exactly when, in every numeric column the table has, [float] accepts
    every cell; a column that is numeric already never warns. *)
Theorem validate_file_structure_errors (df : Table) :
  (fst (validate_file_structure df) = [] <->
   (forall col, In col required_columns -> has_column df col = true) /\
   n_rows df <> 0%nat) /\
  (length (fst (validate_file_structure df)) <= 2)%nat /\
  ~ In "N° Tranche"%string required_columns /\
  ~ In "Direction"%string required_columns /\
  (snd (validate_file_structure df) = [] <->
   forall col c, In col numeric_columns -> lookup df col = Some c ->
                 Forall (fun x => _is_numeric x = true)
                   (match c with NumericCol _ => [] | ObjectCol cells => cells end)).
Proof.
  unfold validate_file_structure. cbv zeta. cbn [fst snd].
  set (missing := filter (fun col => negb (has_column df col)) required_columns).
  assert (Hm : missing = [] <->
               forall col, In col required_columns -> has_column df col = true).
  { unfold missing. rewrite filter_nil_iff. split; intros H col Hin.
    - apply negb_false_iff. now apply H.
    - apply negb_false_iff. now apply H. }
  split; [|split; [|split; [|split]]].
  - rewrite <- Hm. destruct missing as [|m ms]; destruct (n_rows df) as [|n]; simpl;
      split; try discriminate; try tauto; try (intros [H1 H2]; congruence).
    split; [reflexivity | discriminate].
  - destruct missing, (n_rows df =? 0)%nat; simpl; lia.
  - simpl. intros H. repeat (destruct H as [H|H]; [discriminate H|]). exact H.
  - simpl. intros H. repeat (destruct H as [H|H]; [discriminate H|]). exact H.
  - rewrite flat_map_nil. split; intros H col.
    + intros c Hin E. specialize (H col Hin). rewrite E in H.
      destruct c as [v|cells]; [constructor|]. simpl in H.
      destruct (filter _ cells) as [|x xs] eqn:F; [|discriminate].
      rewrite filter_nil_iff in F. apply Forall_forall. intros x Hx.
      apply negb_false_iff. now apply F.
    + intros Hin. destruct (lookup df col) as [c|] eqn:E; [|reflexivity].
      specialize (H col c Hin E). destruct c as [v|cells]; [reflexivity|].
      simpl. assert (F : filter (fun x => negb (_is_numeric x)) cells = []).
      { apply filter_nil_iff. intros x Hx. rewrite Forall_forall in H.
        apply negb_false_iff. now apply H. }
      now rewrite F.
Qed.

End ValidatorSteps.

Lemma reference_rstrip_fixed (s : string) :
  PythonReference.rstrip (PythonReference.rstrip s) = PythonReference.rstrip s.
Proof.
  induction s as [|c s IH]; simpl; [reflexivity|].
  destruct (PythonReference.rstrip s) as [|d r] eqn:E.
  - destruct (PythonReference.is_space c) eqn:Ec; simpl; [reflexivity|].
    now rewrite Ec.
  - cbn [PythonReference.rstrip]. cbn [PythonReference.rstrip] in IH. rewrite IH.
    reflexivity.
Qed.

Lemma reference_rstrip_head (c : Ascii.ascii) (s : string) :
  PythonReference.is_space c = false ->
  exists r, PythonReference.rstrip (String c s) = String c r.
Proof.
  intros Hc. simpl. destruct (PythonReference.rstrip s); [rewrite Hc|]; eauto.
Qed.

Lemma reference_lstrip_head (s : string) :
  PythonReference.lstrip s = EmptyString \/
  exists c r, PythonReference.lstrip s = String c r /\ PythonReference.is_space c = false.
Proof.
  induction s as [|c s IH]; simpl; [now left|].
  destruct (PythonReference.is_space c) eqn:E; [exact IH|]. right. eauto.
Qed.

Lemma reference_strip_idempotent : strip_idempotent PythonReference.python.
Proof.
  intros s. simpl. unfold PythonReference.strip_ascii.
  assert (L : PythonReference.lstrip (PythonReference.rstrip (PythonReference.lstrip s))
              = PythonReference.rstrip (PythonReference.lstrip s)).
  { destruct (reference_lstrip_head s) as [->|(c & r & -> & Hc)]; [reflexivity|].
    destruct (@reference_rstrip_head c r Hc) as [r' ->]. simpl. now rewrite Hc. }
  rewrite L. apply reference_rstrip_fixed.
Qed.

Lemma clean_data_idempotent_witness :
  clean_data (pandas := Reference.pandas) (python := PythonReference.python)
    (clean_data (pandas := Reference.pandas) (python := PythonReference.python)
       file_example)
  = clean_data (pandas := Reference.pandas) (python := PythonReference.python)
      file_example.
Proof.
  apply clean_data_idempotent; [exact reference_strip_idempotent|].
  repeat constructor.
Defined.

(** *** The summary of a cleaned table *)

Section ValidatorSummary.

Context {pandas : Pandas} {python : Python} {series : PandasSeries}.

Lemma has_column_names (df df' : Table) (col : string) :
  map fst df' = map fst df -> has_column df' col = has_column df col.
Proof.
  unfold has_column. revert df'.
  induction df as [|[name c] df IH]; intros [|[name' c'] df']; simpl; try discriminate;
    [reflexivity|].
  intros E. injection E as -> E. now rewrite (IH df' E).
Qed.

Lemma all_present_bounds (P : num -> Prop) (v : list num) :
  (forall x, P x -> exists q, x = Fin q) -> Forall P v -> v <> [] ->
  exists lo hi,
    series_min v = Fin lo /\ series_max v = Fin hi /\ column_bounds v lo hi /\
    P (Fin lo) /\ P (Fin hi).
Proof.
  intros HP H Hne.
  assert (D : dropna_values v <> []).
  { destruct v as [|x v]; [congruence|]. inversion H as [|? ? Hx _]; subst.
    destruct (HP x Hx) as [q ->]. simpl. discriminate. }
  destruct (series_bounds _ D) as (lo & hi & Elo & Ehi & B).
  exists lo, hi. split; [exact Elo|]. split; [exact Ehi|]. split; [exact B|].
  destruct B as (Ilo & Ihi & _). rewrite Forall_forall in H. split; now apply H.
Qed.

Lemma cleaned_column (df : Table) (col : string) (P : num -> Prop) :
  well_formed df -> n_rows df <> 0%nat -> has_column df col = true ->
  col_all df col P ->
  exists v, lookup df col = Some (NumericCol v) /\ Forall P v /\ v <> [].
Proof.
  intros W N Hc Ha. rewrite has_column_lookup in Hc. unfold col_all in Ha.
  destruct (lookup df col) as [[v|cells]|] eqn:E; [|tauto|discriminate].
  exists v. split; [reflexivity|]. split; [exact Ha|].
  pose proof (@well_formed_lookup df col (NumericCol v) W E) as L. simpl in L.
  intros ->. simpl in L. congruence.
Qed.

Lemma summary_of_cleaned (t : Table) :
  well_formed t -> n_rows t <> 0%nat -> cleaned t ->
  (forall col, In col coord_cols -> has_column t col = true ->
     exists lo hi,
       In (col, (Fin lo, Fin hi)) (coordinate_range (get_data_summary t)) /\
       100000 < lo /\ lo <= hi /\ hi < 10000000) /\
  (forall col, In col grade_cols -> has_column t col = true ->
     exists lo hi mean,
       In (col, (Fin lo, Fin hi, Fin mean)) (grade_range (get_data_summary t)) /\
       0 <= lo /\ lo <= hi /\ 0 <= mean).
Proof.
  intros W N [_ Hc _ _ Hg _ _]. split.
  - intros col Hin Hcol.
    destruct (@cleaned_column t col _ W N Hcol (Hc col Hin)) as (v & E & Hv & Hne).
    destruct (@all_present_bounds (strictly_between 100000 10000000) v)
      as (lo & hi & Elo & Ehi & B & Plo & Phi); [|exact Hv|exact Hne|].
    { intros [|q] Hq; [destruct Hq | eauto]. }
    exists lo, hi. split.
    + unfold get_data_summary, coordinate_range. apply in_flat_map.
      exists col. split; [exact Hin|]. rewrite E, Elo, Ehi. now left.
    + destruct Plo as [Plo _]. destruct Phi as [_ Phi].
      destruct B as (Ilo & _ & Hall). destruct (Hall lo Ilo) as [_ Hle].
      split; [exact Plo|]. split; [exact Hle | exact Phi].
  - intros col Hin Hcol.
    destruct (@cleaned_column t col _ W N Hcol (Hg col Hin)) as (v & E & Hv & Hne).
    destruct (@all_present_bounds nonneg v)
      as (lo & hi & Elo & Ehi & B & Plo & _); [|exact Hv|exact Hne|].
    { intros [|q] Hq; [destruct Hq | eauto]. }
    pose proof (series_mean_within B) as M.
    destruct (series_mean v) as [|mean] eqn:Em; [destruct M|].
    exists lo, hi, mean. split.
    + unfold get_data_summary, grade_range. apply in_flat_map.
      exists col. split; [exact Hin|]. rewrite E, Elo, Ehi, Em. now left.
    + destruct M as [M1 M2]. simpl in Plo.
      destruct B as (Ilo & _ & Hall). destruct (Hall lo Ilo) as [_ Hle].
      split; [exact Plo|]. split; [exact Hle | lra].
Qed.

(** X21.  What the application shows after cleaning.  On a well-formed
    table, either cleaning leaves no row, or the summary of the cleaned table
    gives, for every coordinate column the file has, a least and a greatest
    value that are numbers strictly between 100000 and 10000000, and for
    every grade column the file has a least value, a greatest value and a
    mean that are numbers, with 0 <= least <= greatest and a mean that is
    not negative. *)
Theorem get_data_summary_cleaned (df : Table) :
  well_formed df ->
  n_rows (clean_data df) = 0%nat \/
  ((forall col, In col coord_cols -> has_column df col = true ->
      exists lo hi,
        In (col, (Fin lo, Fin hi))
          (coordinate_range (get_data_summary (clean_data df))) /\
        100000 < lo /\ lo <= hi /\ hi < 10000000) /\
   (forall col, In col grade_cols -> has_column df col = true ->
      exists lo hi mean,
        In (col, (Fin lo, Fin hi, Fin mean))
          (grade_range (get_data_summary (clean_data df))) /\
        0 <= lo /\ lo <= hi /\ 0 <= mean)).
Proof.
  intros W.
  destruct (clean_data_step df) as (Names & _ & W').
  pose proof (clean_data_cleaned df) as C.
  specialize (W' W).
  revert Names W' C. generalize (clean_data df) as t. intros t Names W' C.
  destruct (Nat.eq_dec (n_rows t) 0) as [N|N]; [now left | right].
  destruct (summary_of_cleaned W' N C) as [S1 S2].
  split; intros col Hin Hcol.
  - apply S1; [exact Hin|]. now rewrite (@has_column_names df t col Names).
  - apply S2; [exact Hin|]. now rewrite (@has_column_names df t col Names).
Qed.

End ValidatorSummary.


Lemma get_data_summary_cleaned_witness :
  exists lo hi,
    In ("Début_EUTM"%string, (Fin lo, Fin hi))
      (coordinate_range
         (get_data_summary (series := SeriesReference.series)
            (clean_data (pandas := Reference.pandas) (python := PythonReference.python)
               file_example))) /\
    100000 < lo /\ lo <= hi /\ hi < 10000000.
Proof.
  assert (W : well_formed file_example) by (repeat constructor).
  pose proof (@get_data_summary_cleaned Reference.pandas PythonReference.python
                SeriesReference.series file_example W) as H.
  destruct H as [N|[H _]].
  - vm_compute in N. discriminate N.
  - apply (H "Début_EUTM"%string); [simpl; auto | reflexivity].
Defined.
